(** * Slot-range merging and batch assembly: a model of
      [sample_factory/algo/learning/batcher.py]

    The development embeds [SliceMerger], [Batcher] and [SavingBatcher] as
    Rocq functions over explicit state, and proves the properties stated
    for them.

    Conventions.
    - Python integers are [Z].
    - A Python [dict] keeps its keys in insertion order, and the code
      iterates over [values()] and [items()]; a dict is therefore an
      association list in insertion order ([dict_set] overwrites in place
      or appends, [dict_del] raises [KeyError] on a missing key).
    - Exceptions are the constructors of [exn]; a computation that can
      raise returns a [result].
    - Tensor payloads are not modelled: a record of a trajectory buffer is
      identified by its provenance, the pair (device, slot index). *)

From Stdlib Require Import ZArith List Bool Lia Permutation Sorted String.
Import ListNotations.
Open Scope Z_scope.


(* ------------------------------------------------------------------ *)
(** ** Exceptions *)

Inductive exn : Type :=
| KeyError
| IndexError
| AssertionError
| NotImplementedError
| RuntimeError
| StopIteration
| TypeError
| AttributeError
| UnboundLocalError
| FuelExhausted.  (* not a Python exception: the recursion bound of the model *)

Inductive result (A : Type) : Type :=
| Ok (a : A)
| Raise (e : exn).

Arguments Ok {A} a.
Arguments Raise {A} e.

(* ------------------------------------------------------------------ *)
(** ** Python dictionaries, in insertion order *)

Class Key (K : Type) : Type := {
  key_eqb : K -> K -> bool;
  key_eqb_spec : forall a b, reflect (a = b) (key_eqb a b)
}.

#[export] Instance Key_Z : Key Z :=
  {| key_eqb := Z.eqb; key_eqb_spec := Z.eqb_spec |}.

#[export] Instance Key_string : Key string :=
  {| key_eqb := String.eqb; key_eqb_spec := String.eqb_spec |}.

Definition dict (K V : Type) : Type := list (K * V).

Section Dict.
Context {K V : Type} `{Key K}.

(** [d.get(k)] *)
Fixpoint dict_get (d : dict K V) (k : K) : option V :=
  match d with
  | [] => None
  | (k', v) :: rest => if key_eqb k' k then Some v else dict_get rest k
  end.

(** [d[k] = v]: an existing key keeps its position, a new one goes last. *)
Fixpoint dict_set (d : dict K V) (k : K) (v : V) : dict K V :=
  match d with
  | [] => [(k, v)]
  | (k', v') :: rest =>
      if key_eqb k' k then (k', v) :: rest else (k', v') :: dict_set rest k v
  end.

(** [del d[k]]: [None] stands for [KeyError]. *)
Fixpoint dict_del (d : dict K V) (k : K) : option (dict K V) :=
  match d with
  | [] => None
  | (k', v') :: rest =>
      if key_eqb k' k then Some rest
      else match dict_del rest k with
           | Some rest' => Some ((k', v') :: rest')
           | None => None
           end
  end.

Definition dict_keys (d : dict K V) : list K := map fst d.
Definition dict_values (d : dict K V) : list V := map snd d.
End Dict.

(* ------------------------------------------------------------------ *)
(** ** Slices *)

Record slice : Type := mk_slice { start : Z; stop : Z }.

Definition slice_len (s : slice) : Z := stop s - start s.

(** [range(s.start, s.stop)] *)
Definition slice_indices (s : slice) : list Z :=
  map (fun k => start s + Z.of_nat k) (seq 0 (Z.to_nat (slice_len s))).

Definition slice_eqb (s t : slice) : bool :=
  (start s =? start t) && (stop s =? stop t).

(* ------------------------------------------------------------------ *)
(** ** SliceMerger *)

Record SliceMerger : Type := mk_merger {
  slice_starts : dict Z slice;
  slice_stops : dict Z slice;
  total_num : Z
}.

Definition SliceMerger_init : SliceMerger :=
  {| slice_starts := []; slice_stops := []; total_num := 0 |}.

Definition _add_slice (self : SliceMerger) (s : slice) : SliceMerger :=
  {| slice_starts := dict_set (slice_starts self) (start s) s;
     slice_stops := dict_set (slice_stops self) (stop s) s;
     total_num := total_num self + slice_len s |}.

Definition _del_slice (self : SliceMerger) (s : slice) : result SliceMerger :=
  match dict_del (slice_starts self) (start s) with
  | None => Raise KeyError
  | Some starts' =>
      match dict_del (slice_stops self) (stop s) with
      | None => Raise KeyError
      | Some stops' =>
          Ok {| slice_starts := starts';
                slice_stops := stops';
                total_num := total_num self - slice_len s |}
      end
  end.

(** [merge_slices] calls itself after every successful merge.  Each call
    is preceded by a [_del_slice], so the number of stored slices bounds
    the depth; [merge_slices] starts the recursion with that bound. *)
Fixpoint merge_slices_rec (fuel : nat) (self : SliceMerger)
    (trajectory_slice : slice) : result SliceMerger :=
  match fuel with
  | O => Raise FuelExhausted
  | S fuel' =>
      match dict_get (slice_stops self) (start trajectory_slice) with
      | Some prev_slice =>
          (* merge with a slice that precedes ours in the buffer *)
          let new_slice := mk_slice (start prev_slice) (stop trajectory_slice) in
          match _del_slice self prev_slice with
          | Raise e => Raise e
          | Ok self' => merge_slices_rec fuel' self' new_slice
          end
      | None =>
          match dict_get (slice_starts self) (stop trajectory_slice) with
          | Some next_slice =>
              (* merge with a slice that is next in the buffer *)
              let new_slice :=
                mk_slice (start trajectory_slice) (stop next_slice) in
              match _del_slice self next_slice with
              | Raise e => Raise e
              | Ok self' => merge_slices_rec fuel' self' new_slice
              end
          | None =>
              (* nothing to merge, just add a new slice *)
              Ok (_add_slice self trajectory_slice)
          end
      end
  end.

Definition merge_slices (self : SliceMerger) (trajectory_slice : slice)
    : result SliceMerger :=
  merge_slices_rec (S (List.length (slice_starts self))) self trajectory_slice.

Definition _extract_at_most (self : SliceMerger) (s : slice) (batch_size : Z)
    : result (slice * SliceMerger) :=
  let n := slice_len s in
  match _del_slice self s with
  | Raise e => Raise e
  | Ok self' =>
      if n >? batch_size then
        let remaining_slice := mk_slice (start s + batch_size) (stop s) in
        Ok (mk_slice (start s) (start s + batch_size),
            _add_slice self' remaining_slice)
      else Ok (s, self')
  end.

(** [for s in self.slice_starts.values(): return ...]: the first value in
    insertion order, if any. *)
Definition get_at_most (self : SliceMerger) (batch_size : Z)
    : result (option slice * SliceMerger) :=
  match dict_values (slice_starts self) with
  | s :: _ =>
      match _extract_at_most self s batch_size with
      | Raise e => Raise e
      | Ok (r, self') => Ok (Some r, self')
      end
  | [] => Ok (None, self)
  end.

(** The loop returns at the first value, in insertion order, that is long
    enough. *)
Definition get_exactly (self : SliceMerger) (batch_size : Z)
    : result (option slice * SliceMerger) :=
  match find (fun s => slice_len s >=? batch_size)
             (dict_values (slice_starts self)) with
  | Some s =>
      match _extract_at_most self s batch_size with
      | Raise e => Raise e
      | Ok (r, self') => Ok (Some r, self')
      end
  | None => Ok (None, self)
  end.

(** Inserting a sequence of ranges, one [merge_slices] call each. *)
Fixpoint merge_all (self : SliceMerger) (rs : list slice) : result SliceMerger :=
  match rs with
  | [] => Ok self
  | r :: rest =>
      match merge_slices self r with
      | Raise e => Raise e
      | Ok self' => merge_all self' rest
      end
  end.

Definition ranges (m : SliceMerger) : list slice := dict_values (slice_starts m).


(* ------------------------------------------------------------------ *)
(** ** Well-formed range sets *)

Definition nonempty (s : slice) : Prop := start s < stop s.

(** No common index. *)
Definition disjoint (s t : slice) : Prop :=
  stop s <= start t \/ stop t <= start s.

(** No common index and no common boundary. *)
Definition separated (s t : slice) : Prop :=
  stop s < start t \/ stop t < start s.

Definition in_slice (i : Z) (s : slice) : Prop := start s <= i < stop s.

Definition covered (i : Z) (L : list slice) : Prop :=
  exists s, In s L /\ in_slice i s.

Fixpoint pairwise {A : Type} (R : A -> A -> Prop) (l : list A) : Prop :=
  match l with
  | [] => True
  | x :: rest => Forall (R x) rest /\ pairwise R rest
  end.

(** The independent recount: the lengths of the stored ranges, summed. *)
Fixpoint sum_len (L : list slice) : Z :=
  match L with
  | [] => 0
  | s :: rest => slice_len s + sum_len rest
  end.

Definition index_by (key : slice -> Z) (L : list slice) : dict Z slice :=
  map (fun s => (key s, s)) L.

(** The merger that stores exactly the ranges [L], in that order. *)
Definition of_ranges (L : list slice) : SliceMerger :=
  {| slice_starts := index_by start L;
     slice_stops := index_by stop L;
     total_num := sum_len L |}.

Definition wf_ranges (L : list slice) : Prop :=
  Forall nonempty L /\ pairwise separated L.

(** The state invariant of a merger: both maps index the same ranges, the
    counter is their total length, and the ranges are non-empty and
    pairwise separated. *)
Definition SInv (m : SliceMerger) : Prop :=
  m = of_ranges (ranges m) /\ wf_ranges (ranges m).

(** Insertion sort of ranges by their start. *)
Fixpoint insert_by_start (s : slice) (L : list slice) : list slice :=
  match L with
  | [] => [s]
  | t :: rest =>
      if start s <=? start t then s :: t :: rest
      else t :: insert_by_start s rest
  end.

Fixpoint sort_by_start (L : list slice) : list slice :=
  match L with
  | [] => []
  | s :: rest => insert_by_start s (sort_by_start rest)
  end.

(** The ranges of a merger, sorted and concatenated. *)
Definition sorted_indices (m : SliceMerger) : list Z :=
  flat_map slice_indices (sort_by_start (ranges m)).

Definition le_start (s t : slice) : Prop := start s <= start t.

(** The range a start-ordered scan would meet first. *)
Definition first_in_start_order (m : SliceMerger) : option slice :=
  hd_error (sort_by_start (ranges m)).

(** The first range, in start order, that holds at least [n] slots. *)
Definition first_fit_in_start_order (m : SliceMerger) (n : Z) : option slice :=
  find (fun s => slice_len s >=? n) (sort_by_start (ranges m)).

(** What an extraction of [n] slots from the range [p] returns, and what
    it leaves behind. *)
Definition prefix_of (p : slice) (n : Z) : slice :=
  if slice_len p >? n then mk_slice (start p) (start p + n) else p.

Definition remainder_of (p : slice) (n : Z) : list slice :=
  if slice_len p >? n then [mk_slice (start p + n) (stop p)] else [].

(** The mergers the engine can build: from the empty one, by inserting
    non-empty ranges that overlap nothing stored, and by extracting. *)
Inductive merger_reachable : SliceMerger -> Prop :=
| reach_init :
    merger_reachable SliceMerger_init
| reach_merge (m : SliceMerger) (s : slice) (m' : SliceMerger) :
    merger_reachable m ->
    nonempty s ->
    (forall r, In r (ranges m) -> disjoint s r) ->
    merge_slices m s = Ok m' ->
    merger_reachable m'
| reach_get_at_most (m : SliceMerger) (n : Z) (r : option slice)
    (m' : SliceMerger) :
    merger_reachable m ->
    0 <= n ->
    get_at_most m n = Ok (r, m') ->
    merger_reachable m'
| reach_get_exactly (m : SliceMerger) (n : Z) (r : option slice)
    (m' : SliceMerger) :
    merger_reachable m ->
    0 <= n ->
    get_exactly m n = Ok (r, m') ->
    merger_reachable m'.

(* ------------------------------------------------------------------ *)
(** ** Python lists updated by index *)

(** [l[n] = v]; [None] stands for [IndexError]. *)
Fixpoint list_set {A : Type} (l : list A) (n : nat) (v : A) : option (list A) :=
  match l, n with
  | [], _ => None
  | _ :: rest, O => Some (v :: rest)
  | x :: rest, S n' =>
      match list_set rest n' v with
      | Some rest' => Some (x :: rest')
      | None => None
      end
  end.

(** [list.sort()] on integers. *)
Fixpoint insert_Z (x : Z) (l : list Z) : list Z :=
  match l with
  | [] => [x]
  | y :: rest => if x <=? y then x :: y :: rest else y :: insert_Z x rest
  end.

Fixpoint sort_Z (l : list Z) : list Z :=
  match l with
  | [] => []
  | x :: rest => insert_Z x (sort_Z rest)
  end.

(* ------------------------------------------------------------------ *)
(** ** Configuration, collaborators, signals *)

Definition Device : Type := string.
Definition PolicyID : Type := Z.

(** The configuration entries the batchers and [get_rnn_info] read. *)
Record Cfg : Type := {
  async_rl : bool;
  batched_sampling : bool;
  use_rnn : bool;
  rnn_type : string;
  actor_critic_share_weights : bool;
  rnn_determinstic_size : Z;
  rnn_stochastic_size : Z;
  rnn_discrete_size : Z;
  (* read by the saving batcher only *)
  num_batches_to_accumulate : nat;
  min_saving_samples : Z;
  min_initial_train_iters : Z;
  train_iter_to_data_collection_ratio : Z;
  train_n_trajectories : Z
}.

(** What the batcher takes from [BufferMgr].  [traj_tensors_torch] and
    [traj_buffer_queues] are dicts keyed by device; of the former only the
    keys matter here. *)
Record BufferMgr : Type := {
  trajectories_per_training_iteration : Z;
  sampling_trajectories_per_iteration : Z;
  traj_tensors_torch : list Device;
  bm_traj_buffer_queues : list Device;
  bm_max_batches_to_accumulate : nat
}.

(** A record of a trajectory buffer, named by where it was read from. *)
Definition record : Type := (Device * Z)%type.

(** What [put_many] hands to a producer-facing queue: slot indices, or
    whole slices under batched sampling. *)
Inductive qitem : Type :=
| QIndex (i : Z)
| QSlice (s : slice).

Inductive event : Type :=
| Initialized
| TrainingBatchesAvailable (batch_idx : nat)
| StopExperienceCollection
| ResumeExperienceCollection
| TrajectoryBuffersAvailable (policy_id : PolicyID) (training_iteration : Z).

(** An entry of [trajectory_dicts]: [traj_buffer_idx] is an index or a
    slice. *)
Record TrajectoryDict : Type := {
  td_policy_id : PolicyID;
  traj_buffer_idx : Z + slice
}.

(** ** [model_utils.get_rnn_info] *)

Record RNNSpace : Type := { dtype : string; shape : list Z }.

(** The last branch runs [size *= 2] on a name that was never bound. *)
Definition get_rnn_info (cfg : Cfg) : result (dict string RNNSpace) :=
  let spaces :=
    if use_rnn cfg then
      let deter_shape := [rnn_determinstic_size cfg] in
      let stoch_shape := [rnn_stochastic_size cfg; rnn_discrete_size cfg] in
      dict_set
        (dict_set
           (dict_set [] "deter"%string
              {| dtype := "float32"; shape := deter_shape |})
           "stoch"%string {| dtype := "float32"; shape := stoch_shape |})
        "logit"%string {| dtype := "float32"; shape := stoch_shape |}
    else dict_set [] "deter"%string {| dtype := "float32"; shape := [1] |} in
  if String.eqb (rnn_type cfg) "lstm" then Raise NotImplementedError
  else if negb (actor_critic_share_weights cfg) then Raise UnboundLocalError
  else Ok spaces.

(* ------------------------------------------------------------------ *)
(** ** Batcher state *)

Record Batcher : Type := mk_batcher {
  cfg : Cfg;
  policy_id : PolicyID;
  training_iteration : Z;
  traj_per_training_iteration : Z;
  traj_per_sampling_iteration : Z;
  slices_for_training : dict Device SliceMerger;
  slices_for_sampling : dict Device SliceMerger;
  traj_buffer_queues : dict Device (list qitem);
  traj_tensors : list Device;                    (* keys of the source tensors *)
  training_batches : list (list (option record));
  max_batches_to_accumulate : nat;
  available_batches : list nat;
  traj_tensors_to_release : list (list (Device * slice));
  shuffles : nat;                                (* [random.shuffle] calls so far *)
  emitted : list event                           (* signals, oldest first *)
}.

Definition set_training_iteration (v : Z) (b : Batcher) : Batcher :=
  mk_batcher (cfg b) (policy_id b) v (traj_per_training_iteration b)
    (traj_per_sampling_iteration b) (slices_for_training b)
    (slices_for_sampling b) (traj_buffer_queues b) (traj_tensors b)
    (training_batches b) (max_batches_to_accumulate b) (available_batches b)
    (traj_tensors_to_release b) (shuffles b) (emitted b).

Definition set_slices_for_training (v : dict Device SliceMerger) (b : Batcher)
    : Batcher :=
  mk_batcher (cfg b) (policy_id b) (training_iteration b)
    (traj_per_training_iteration b) (traj_per_sampling_iteration b) v
    (slices_for_sampling b) (traj_buffer_queues b) (traj_tensors b)
    (training_batches b) (max_batches_to_accumulate b) (available_batches b)
    (traj_tensors_to_release b) (shuffles b) (emitted b).

Definition set_slices_for_sampling (v : dict Device SliceMerger) (b : Batcher)
    : Batcher :=
  mk_batcher (cfg b) (policy_id b) (training_iteration b)
    (traj_per_training_iteration b) (traj_per_sampling_iteration b)
    (slices_for_training b) v (traj_buffer_queues b) (traj_tensors b)
    (training_batches b) (max_batches_to_accumulate b) (available_batches b)
    (traj_tensors_to_release b) (shuffles b) (emitted b).

Definition set_traj_buffer_queues (v : dict Device (list qitem)) (b : Batcher)
    : Batcher :=
  mk_batcher (cfg b) (policy_id b) (training_iteration b)
    (traj_per_training_iteration b) (traj_per_sampling_iteration b)
    (slices_for_training b) (slices_for_sampling b) v (traj_tensors b)
    (training_batches b) (max_batches_to_accumulate b) (available_batches b)
    (traj_tensors_to_release b) (shuffles b) (emitted b).

Definition set_training_batches (v : list (list (option record))) (b : Batcher)
    : Batcher :=
  mk_batcher (cfg b) (policy_id b) (training_iteration b)
    (traj_per_training_iteration b) (traj_per_sampling_iteration b)
    (slices_for_training b) (slices_for_sampling b) (traj_buffer_queues b)
    (traj_tensors b) v (max_batches_to_accumulate b) (available_batches b)
    (traj_tensors_to_release b) (shuffles b) (emitted b).

Definition set_available_batches (v : list nat) (b : Batcher) : Batcher :=
  mk_batcher (cfg b) (policy_id b) (training_iteration b)
    (traj_per_training_iteration b) (traj_per_sampling_iteration b)
    (slices_for_training b) (slices_for_sampling b) (traj_buffer_queues b)
    (traj_tensors b) (training_batches b) (max_batches_to_accumulate b) v
    (traj_tensors_to_release b) (shuffles b) (emitted b).

Definition set_traj_tensors_to_release (v : list (list (Device * slice)))
    (b : Batcher) : Batcher :=
  mk_batcher (cfg b) (policy_id b) (training_iteration b)
    (traj_per_training_iteration b) (traj_per_sampling_iteration b)
    (slices_for_training b) (slices_for_sampling b) (traj_buffer_queues b)
    (traj_tensors b) (training_batches b) (max_batches_to_accumulate b)
    (available_batches b) v (shuffles b) (emitted b).

Definition set_shuffles (v : nat) (b : Batcher) : Batcher :=
  mk_batcher (cfg b) (policy_id b) (training_iteration b)
    (traj_per_training_iteration b) (traj_per_sampling_iteration b)
    (slices_for_training b) (slices_for_sampling b) (traj_buffer_queues b)
    (traj_tensors b) (training_batches b) (max_batches_to_accumulate b)
    (available_batches b) (traj_tensors_to_release b) v (emitted b).

Definition set_emitted (v : list event) (b : Batcher) : Batcher :=
  mk_batcher (cfg b) (policy_id b) (training_iteration b)
    (traj_per_training_iteration b) (traj_per_sampling_iteration b)
    (slices_for_training b) (slices_for_sampling b) (traj_buffer_queues b)
    (traj_tensors b) (training_batches b) (max_batches_to_accumulate b)
    (available_batches b) (traj_tensors_to_release b) (shuffles b) v.

(** ** Handlers run in a state-and-exception monad: the state reached when
    an exception is raised is kept, with the signals emitted before it. *)

Definition M (S A : Type) : Type := S -> result A * S.

Definition ret {S A : Type} (a : A) : M S A := fun s => (Ok a, s).

Definition bind {S A B : Type} (m : M S A) (f : A -> M S B) : M S B :=
  fun s =>
    match m s with
    | (Ok a, s') => f a s'
    | (Raise e, s') => (Raise e, s')
    end.

Definition raise {S A : Type} (e : exn) : M S A := fun s => (Raise e, s).

Definition get {S : Type} : M S S := fun s => (Ok s, s).

Definition modify {S : Type} (f : S -> S) : M S unit := fun s => (Ok tt, f s).

Definition lift {S A : Type} (r : result A) : M S A := fun s => (r, s).

Definition assert {S : Type} (b : bool) : M S unit :=
  if b then ret tt else raise AssertionError.

Definition emit (e : event) : M Batcher unit :=
  modify (fun s => set_emitted (emitted s ++ [e]) s).

Declare Scope monad_scope.
Delimit Scope monad_scope with monad.
Notation "x <- m ;; k" := (bind m (fun x => k))
  (at level 61, m at next level, right associativity) : monad_scope.
Notation "m ;; k" := (bind m (fun _ => k))
  (at level 61, right associativity) : monad_scope.
Open Scope monad_scope.

(** [d[k]] and [l[n]] as reads. *)
Definition dict_lookup {K V : Type} `{Key K} (d : dict K V) (k : K) : result V :=
  match dict_get d k with
  | Some v => Ok v
  | None => Raise KeyError
  end.

Definition list_lookup {A : Type} (l : list A) (n : nat) : result A :=
  match nth_error l n with
  | Some v => Ok v
  | None => Raise IndexError
  end.

Definition list_assign {A : Type} (l : list A) (n : nat) (v : A)
    : result (list A) :=
  match list_set l n v with
  | Some l' => Ok l'
  | None => Raise IndexError
  end.

(* ------------------------------------------------------------------ *)
(** ** Batcher *)

Definition Batcher_init (policy_id : PolicyID) (buffer_mgr : BufferMgr)
    (cfg : Cfg) : Batcher :=
  {| cfg := cfg;
     policy_id := policy_id;
     training_iteration := 0;
     traj_per_training_iteration := trajectories_per_training_iteration buffer_mgr;
     traj_per_sampling_iteration := sampling_trajectories_per_iteration buffer_mgr;
     slices_for_training :=
       map (fun device => (device, SliceMerger_init)) (traj_tensors_torch buffer_mgr);
     slices_for_sampling :=
       map (fun device => (device, SliceMerger_init)) (traj_tensors_torch buffer_mgr);
     traj_buffer_queues :=
       map (fun device => (device, [])) (bm_traj_buffer_queues buffer_mgr);
     traj_tensors := traj_tensors_torch buffer_mgr;
     training_batches := [];
     max_batches_to_accumulate := bm_max_batches_to_accumulate buffer_mgr;
     available_batches := seq 0 (bm_max_batches_to_accumulate buffer_mgr);
     traj_tensors_to_release := repeat [] (bm_max_batches_to_accumulate buffer_mgr);
     shuffles := 0;
     emitted := [] |}.

(** [alloc_trajectory_tensors]: a buffer of [n] records, none written yet. *)
Definition alloc_trajectory_tensors (n : Z) : list (option record) :=
  repeat None (Z.to_nat n).

Definition init : M Batcher unit :=
  self <- get;;
  _ <- lift (get_rnn_info (cfg self));;
  modify (fun s =>
    set_training_batches
      (training_batches s ++
       repeat (alloc_trajectory_tensors (traj_per_training_iteration s))
              (max_batches_to_accumulate s)) s);;
  emit Initialized.

Definition as_slice (idx : Z + slice) : slice :=
  match idx with
  | inl i => mk_slice i (i + 1)   (* slice of len 1 *)
  | inr s => s
  end.

(** The loop of [on_new_trajectories].  The two tensor writes read
    [self.traj_tensors['cpu']]. *)
Fixpoint merge_new_trajectories (device : Device)
    (trajectory_dicts : list TrajectoryDict) : M Batcher unit :=
  match trajectory_dicts with
  | [] => ret tt
  | trajectory_dict :: rest =>
      self <- get;;
      assert (td_policy_id trajectory_dict =? policy_id self);;
      let trajectory_slice := as_slice (traj_buffer_idx trajectory_dict) in
      slices <- lift (dict_lookup (slices_for_training self) device);;
      slices' <- lift (merge_slices slices trajectory_slice);;
      modify (fun s =>
        set_slices_for_training
          (dict_set (slices_for_training s) device slices') s);;
      (if existsb (String.eqb "cpu") (traj_tensors self)
       then ret tt else raise KeyError);;
      merge_new_trajectories device rest
  end.

(** *** Copying slices into a training batch *)

(** [traj_tensors[traj_slice]] *)
Definition read_records (device : Device) (traj_slice : slice) : list record :=
  map (pair device) (slice_indices traj_slice).

(** [batch[start:stop] = records]: the shapes must agree. *)
Definition copy_range (batch : list (option record)) (start : Z)
    (records : list record) : result (list (option record)) :=
  if (0 <=? start) &&
     (start + Z.of_nat (List.length records) <=? Z.of_nat (List.length batch))
  then Ok (firstn (Z.to_nat start) batch ++ map Some records ++
           skipn (Z.to_nat start + List.length records) batch)
  else Raise RuntimeError.

(** The variables of the inner [while] loop. *)
Record CopyState : Type := mk_copy {
  cs_slices : SliceMerger;                  (* [slices] *)
  cs_batch : result (list (option record)); (* [self.training_batches[batch_idx]],
                                               read when a slice is copied *)
  cs_release : list (Device * slice);       (* [self.traj_tensors_to_release[batch_idx]] *)
  trajectories_copied : Z;
  remaining : Z
}.

(** [while remaining > 0 and (traj_slice := slices.get_at_most(remaining))].
    A pass either removes a stored slice for good or brings [remaining]
    to zero, so the number of stored slices bounds the passes. *)
Fixpoint copy_while (fuel : nat) (B : Z) (device : Device) (c : CopyState)
    : result CopyState :=
  match fuel with
  | O => Raise FuelExhausted
  | S fuel' =>
      if remaining c >? 0 then
        match get_at_most (cs_slices c) (remaining c) with
        | Raise e => Raise e
        | Ok (None, slices') =>
            Ok (mk_copy slices' (cs_batch c) (cs_release c)
                  (trajectories_copied c) (remaining c))
        | Ok (Some traj_slice, slices') =>
            let start := trajectories_copied c in
            match cs_batch c with
            | Raise e => Raise e
            | Ok batch =>
                match copy_range batch start (read_records device traj_slice) with
                | Raise e => Raise e
                | Ok batch' =>
                    let copied := trajectories_copied c + slice_len traj_slice in
                    copy_while fuel' B device
                      (mk_copy slices' (Ok batch')
                         (cs_release c ++ [(device, traj_slice)])
                         copied (B - copied))
                end
            end
        end
      else Ok c
  end.

(** The variables of the [for device in devices] loop. *)
Record BatchFill : Type := mk_fill {
  bf_slices : dict Device SliceMerger;      (* [self.slices_for_training] *)
  bf_batch : result (list (option record));
  bf_release : list (Device * slice);
  bf_copied : Z;
  bf_remaining : Z
}.

Fixpoint copy_from_devices (B : Z) (tensors : list Device)
    (devices : list Device) (f : BatchFill) : result BatchFill :=
  match devices with
  | [] => Ok f
  | device :: rest =>
      if existsb (String.eqb device) tensors then
        match dict_lookup (bf_slices f) device with
        | Raise e => Raise e
        | Ok slices =>
            match copy_while (S (List.length (slice_starts slices))) B device
                    (mk_copy slices (bf_batch f) (bf_release f)
                       (bf_copied f) (bf_remaining f)) with
            | Raise e => Raise e
            | Ok c =>
                copy_from_devices B tensors rest
                  (mk_fill (dict_set (bf_slices f) device (cs_slices c))
                     (cs_batch c) (cs_release c)
                     (trajectories_copied c) (remaining c))
            end
        end
      else Raise KeyError
  end.

Definition total_num_trajectories (slices : dict Device SliceMerger) : Z :=
  fold_left (fun total m => total + total_num m) (dict_values slices) 0.

(** *** Releasing trajectory slots *)

(** Batched sampling, first loop: merge every released slice. *)
Fixpoint merge_released (sampling : dict Device SliceMerger)
    (to_release : list (Device * slice)) : result (dict Device SliceMerger) :=
  match to_release with
  | [] => Ok sampling
  | (device, traj_slice) :: rest =>
      match dict_lookup sampling device with
      | Raise e => Raise e
      | Ok slices =>
          match merge_slices slices traj_slice with
          | Raise e => Raise e
          | Ok slices' => merge_released (dict_set sampling device slices') rest
          end
      end
  end.

(** [while (sampling_batch := slices.get_exactly(n)) is not None]. *)
Fixpoint take_sampling_batches (fuel : nat) (n : Z) (slices : SliceMerger)
    : result (list slice * SliceMerger) :=
  match fuel with
  | O => Raise FuelExhausted
  | S fuel' =>
      match get_exactly slices n with
      | Raise e => Raise e
      | Ok (None, slices') => Ok ([], slices')
      | Ok (Some sampling_batch, slices') =>
          match take_sampling_batches fuel' n slices' with
          | Raise e => Raise e
          | Ok (batches, slices'') => Ok (sampling_batch :: batches, slices'')
          end
      end
  end.

(** Batched sampling, second loop, over [self.slices_for_sampling.items()]. *)
Fixpoint extract_sampling_batches (n : Z) (items : dict Device SliceMerger)
    (sampling : dict Device SliceMerger)
    (new_sampling_batches : dict Device (list qitem))
    : result (dict Device SliceMerger * dict Device (list qitem)) :=
  match items with
  | [] => Ok (sampling, new_sampling_batches)
  | (device, slices) :: rest =>
      match take_sampling_batches (S (Z.to_nat (total_num slices))) n slices with
      | Raise e => Raise e
      | Ok (batches, slices') =>
          extract_sampling_batches n rest
            (dict_set sampling device slices')
            (dict_set new_sampling_batches device (map QSlice batches))
      end
  end.

(** Unbatched sampling, first loop: the slot indices of every released
    slice, by device. *)
Fixpoint collect_indices (to_release : list (Device * slice))
    (new_sampling_batches : dict Device (list Z)) : dict Device (list Z) :=
  match to_release with
  | [] => new_sampling_batches
  | (device, traj_slice) :: rest =>
      let current :=
        match dict_get new_sampling_batches device with
        | Some l => l
        | None => []
        end in
      collect_indices rest
        (dict_set new_sampling_batches device (current ++ slice_indices traj_slice))
  end.

(** Unbatched sampling, second loop. *)
Definition sort_all (new_sampling_batches : dict Device (list Z))
    : dict Device (list Z) :=
  map (fun '(device, l) => (device, sort_Z l)) new_sampling_batches.

(** [self.traj_buffer_queues[device].put_many(batches)], for every entry. *)
Fixpoint put_all (queues : dict Device (list qitem))
    (new_sampling_batches : dict Device (list qitem))
    : result (dict Device (list qitem)) :=
  match new_sampling_batches with
  | [] => Ok queues
  | (device, batches) :: rest =>
      match dict_lookup queues device with
      | Raise e => Raise e
      | Ok q => put_all (dict_set queues device (q ++ batches)) rest
      end
  end.

Definition _release_traj_tensors (batch_idx : nat) : M Batcher unit :=
  self <- get;;
  to_release <- lift (list_lookup (traj_tensors_to_release self) batch_idx);;
  new_sampling_batches <-
    (if batched_sampling (cfg self) then
       sampling <- lift (merge_released (slices_for_sampling self) to_release);;
       modify (set_slices_for_sampling sampling);;
       r <- lift (extract_sampling_batches (traj_per_sampling_iteration self)
                    sampling sampling []);;
       modify (set_slices_for_sampling (fst r));;
       ret (snd r)
     else
       ret (map (fun '(device, l) => (device, map QIndex l))
              (sort_all (collect_indices to_release []))));;
  released <- lift (list_assign (traj_tensors_to_release self) batch_idx []);;
  modify (set_traj_tensors_to_release released);;
  queues <- lift (put_all (traj_buffer_queues self) new_sampling_batches);;
  modify (set_traj_buffer_queues queues);;
  emit (TrajectoryBuffersAvailable (policy_id self) (training_iteration self)).

(** *** Assembling training batches *)

Section Shuffled.
(** [random.shuffle]: the order produced by the [k]-th call. *)
Variable shuffle : nat -> list Device -> list Device.

(** One pass of the [while self.available_batches] loop, from the
    assertion on the release list to the assertion on the copied count.
    An exception raised inside the copying loops leaves the state as it
    was before them. *)
Definition fill_training_batch (batch_idx : nat) : M Batcher unit :=
  self <- get;;
  to_release <- lift (list_lookup (traj_tensors_to_release self) batch_idx);;
  assert (Nat.eqb (List.length to_release) 0);;
  (* extract slices of trajectories and copy them to the training batch *)
  let devices := shuffle (shuffles self) (dict_keys (slices_for_training self)) in
  modify (set_shuffles (S (shuffles self)));;
  let B := traj_per_training_iteration self in
  let trajectories_copied := 0 in
  let remaining := B - trajectories_copied in
  f <- lift (copy_from_devices B (traj_tensors self) devices
               (mk_fill (slices_for_training self)
                  (list_lookup (training_batches self) batch_idx)
                  to_release trajectories_copied remaining));;
  modify (set_slices_for_training (bf_slices f));;
  batches <- lift (match bf_batch f with
                   | Ok batch => list_assign (training_batches self) batch_idx batch
                   | Raise _ => Ok (training_batches self)
                   end);;
  modify (set_training_batches batches);;
  released <- lift (list_assign (traj_tensors_to_release self) batch_idx
                      (bf_release f));;
  modify (set_traj_tensors_to_release released);;
  assert ((bf_copied f =? B) && (bf_remaining f =? 0)).

(** The rest of a pass, after [self.available_batches.pop(0)]. *)
Definition enqueue_pass (batch_idx : nat) : M Batcher unit :=
  fill_training_batch batch_idx;;
  (* signal the learner that we have a new training batch *)
  emit (TrainingBatchesAvailable batch_idx);;
  self <- get;;
  if async_rl (cfg self) then
    _release_traj_tensors batch_idx;;
    self' <- get;;
    match available_batches self' with
    | [] => emit StopExperienceCollection
    | _ :: _ => ret tt
    end
  else ret tt.

(** [while self.available_batches]: every pass that does not break pops
    one batch index, so the length of the list bounds the passes. *)
Fixpoint enqueue_loop (fuel : nat) : M Batcher unit :=
  match fuel with
  | O => raise FuelExhausted
  | S fuel' =>
      self <- get;;
      match available_batches self with
      | [] => ret tt
      | batch_idx :: rest =>
          if total_num_trajectories (slices_for_training self)
             <? traj_per_training_iteration self
          then ret tt  (* not enough experience yet to start training *)
          else
            modify (set_available_batches rest);;
            enqueue_pass batch_idx;;
            enqueue_loop fuel'
      end
  end.

Definition _maybe_enqueue_new_training_batches : M Batcher unit :=
  self <- get;;
  enqueue_loop (S (List.length (available_batches self))).

Definition on_new_trajectories (trajectory_dicts : list TrajectoryDict)
    (device : Device) : M Batcher unit :=
  merge_new_trajectories device trajectory_dicts;;
  _maybe_enqueue_new_training_batches.

(** [on_training_batch_released], up to its call of
    [_maybe_enqueue_new_training_batches]. *)
Definition return_batch (batch_idx : nat) (training_iteration : Z)
    : M Batcher unit :=
  modify (set_training_iteration training_iteration);;
  self <- get;;
  (if negb (async_rl (cfg self)) then
     (* in synchronous RL, we release the trajectories after they're
        processed by the learner *)
     _release_traj_tensors batch_idx
   else ret tt);;
  self' <- get;;
  (match available_batches self' with
   | [] => if async_rl (cfg self') then emit ResumeExperienceCollection
           else ret tt
   | _ :: _ => ret tt
   end);;
  modify (fun s => set_available_batches (available_batches s ++ [batch_idx]) s).

Definition on_training_batch_released (batch_idx : nat)
    (training_iteration : Z) : M Batcher unit :=
  return_batch batch_idx training_iteration;;
  _maybe_enqueue_new_training_batches.
End Shuffled.


(** The identity order, for examples. *)
Definition no_shuffle (k : nat) (l : list Device) : list Device := l.

(* ------------------------------------------------------------------ *)
(** ** SavingBatcher *)

(** [BatcherRamDataset] and torch's [DataLoader] are collaborators whose
    code is not part of this model; the saving batcher is defined over any
    implementation of the operations it calls. *)
Record DatasetOps : Type := {
  Dataset : Type;
  DataIter : Type;
  dataset_new : Cfg -> Dataset;                       (* [BatcherRamDataset(...)] *)
  dataset_add : Dataset -> list record -> Dataset;    (* [dataset.add(...)] *)
  num_samples : Dataset -> Z;                         (* [dataset.num_samples] *)
  loader_iter : Dataset -> DataIter;                  (* [iter(self._dataloader)] *)
  loader_next : Dataset -> DataIter ->
                option (list (option record) * DataIter)
                                                      (* [next(it)]; [None] is
                                                         [StopIteration] *)
}.

Record SavingBatcher (ops : DatasetOps) : Type := mk_saving {
  sb_base : Batcher;                                  (* the inherited fields *)
  sb_min_saving_samples : option Z;
  traj_slices_to_release : list (Device * slice);
  _n_slices_merged : Z;
  _prev_data_collect_iteration : Z;
  sb_dataset : option (Dataset ops);
  _data_iter : option (DataIter ops)
}.

Arguments mk_saving {ops}.
Arguments sb_base {ops}.
Arguments sb_min_saving_samples {ops}.
Arguments traj_slices_to_release {ops}.
Arguments _n_slices_merged {ops}.
Arguments _prev_data_collect_iteration {ops}.
Arguments sb_dataset {ops}.
Arguments _data_iter {ops}.

Section Saving.
Variable ops : DatasetOps.
Variable shuffle : nat -> list Device -> list Device.

Definition set_base (f : Batcher -> Batcher) (s : SavingBatcher ops)
    : SavingBatcher ops :=
  mk_saving (f (sb_base s)) (sb_min_saving_samples s)
    (traj_slices_to_release s) (_n_slices_merged s)
    (_prev_data_collect_iteration s) (sb_dataset s) (_data_iter s).

Definition set_min_saving_samples (v : option Z) (s : SavingBatcher ops)
    : SavingBatcher ops :=
  mk_saving (sb_base s) v (traj_slices_to_release s) (_n_slices_merged s)
    (_prev_data_collect_iteration s) (sb_dataset s) (_data_iter s).

Definition set_traj_slices_to_release (v : list (Device * slice))
    (s : SavingBatcher ops) : SavingBatcher ops :=
  mk_saving (sb_base s) (sb_min_saving_samples s) v (_n_slices_merged s)
    (_prev_data_collect_iteration s) (sb_dataset s) (_data_iter s).

Definition set_n_slices_merged (v : Z) (s : SavingBatcher ops)
    : SavingBatcher ops :=
  mk_saving (sb_base s) (sb_min_saving_samples s) (traj_slices_to_release s) v
    (_prev_data_collect_iteration s) (sb_dataset s) (_data_iter s).

Definition set_prev_data_collect_iteration (v : Z) (s : SavingBatcher ops)
    : SavingBatcher ops :=
  mk_saving (sb_base s) (sb_min_saving_samples s) (traj_slices_to_release s)
    (_n_slices_merged s) v (sb_dataset s) (_data_iter s).

Definition set_dataset (v : option (Dataset ops)) (s : SavingBatcher ops)
    : SavingBatcher ops :=
  mk_saving (sb_base s) (sb_min_saving_samples s) (traj_slices_to_release s)
    (_n_slices_merged s) (_prev_data_collect_iteration s) v (_data_iter s).

Definition set_data_iter (v : option (DataIter ops)) (s : SavingBatcher ops)
    : SavingBatcher ops :=
  mk_saving (sb_base s) (sb_min_saving_samples s) (traj_slices_to_release s)
    (_n_slices_merged s) (_prev_data_collect_iteration s) (sb_dataset s) v.

Definition sb_emit (e : event) : M (SavingBatcher ops) unit :=
  modify (set_base (fun b => set_emitted (emitted b ++ [e]) b)).

(** [super().__init__(...)], then the fields the subclass sets. *)
Definition SavingBatcher_init (pid : PolicyID) (buffer_mgr : BufferMgr)
    (c : Cfg) : SavingBatcher ops :=
  let b := Batcher_init pid buffer_mgr c in
  {| sb_base :=
       mk_batcher (cfg b) (policy_id b) 0
         (traj_per_training_iteration b) (traj_per_sampling_iteration b)
         (slices_for_training b) (slices_for_sampling b)
         (traj_buffer_queues b) (traj_tensors b)
         []                                 (* [self.training_batches = []] *)
         (num_batches_to_accumulate c)      (* [self.max_batches_to_accumulate] *)
         (available_batches b) (traj_tensors_to_release b)
         (shuffles b) (emitted b);
     sb_min_saving_samples := None;
     traj_slices_to_release := [];
     _n_slices_merged := 0;
     _prev_data_collect_iteration := 0;
     sb_dataset := None;
     _data_iter := None |}.

(** Neither [async_rl] nor [batched_sampling] is read here. *)
Definition saving_init : M (SavingBatcher ops) unit :=
  self <- get;;
  _ <- lift (get_rnn_info (cfg (sb_base self)));;
  modify (set_base (fun b =>
    set_training_batches
      (training_batches b ++
       repeat (alloc_trajectory_tensors (train_n_trajectories (cfg b)))
              (max_batches_to_accumulate b)) b));;
  modify (set_min_saving_samples (Some (min_saving_samples (cfg (sb_base self)))));;
  modify (set_dataset (Some (dataset_new ops (cfg (sb_base self)))));;
  modify (set_data_iter None);;
  sb_emit Initialized.

Definition saving_release_traj_tensors : M (SavingBatcher ops) unit :=
  self <- get;;
  new_sampling_batches <-
    (if batched_sampling (cfg (sb_base self)) then raise NotImplementedError
     else ret (map (fun '(device, l) => (device, map QIndex l))
                 (sort_all (collect_indices (traj_slices_to_release self) []))));;
  modify (set_traj_slices_to_release []);;
  queues <- lift (put_all (traj_buffer_queues (sb_base self)) new_sampling_batches);;
  modify (set_base (set_traj_buffer_queues queues));;
  sb_emit (TrajectoryBuffersAvailable (policy_id (sb_base self))
             (training_iteration (sb_base self))).

(** The variables of the inner loop of [_maybe_enqueue_new_trajectory_data]. *)
Record CollectState : Type := mk_collect {
  cl_slices : SliceMerger;
  cl_dataset : option (Dataset ops);
  cl_release : list (Device * slice);
  cl_copied : Z;
  cl_remaining : Z
}.

Fixpoint collect_while (fuel : nat) (B : Z) (device : Device)
    (c : CollectState) : result CollectState :=
  match fuel with
  | O => Raise FuelExhausted
  | S fuel' =>
      if cl_remaining c >? 0 then
        match get_at_most (cl_slices c) (cl_remaining c) with
        | Raise e => Raise e
        | Ok (None, slices') =>
            Ok (mk_collect slices' (cl_dataset c) (cl_release c)
                  (cl_copied c) (cl_remaining c))
        | Ok (Some traj_slice, slices') =>
            match cl_dataset c with
            | None => Raise AttributeError
            | Some ds =>
                let ds' := dataset_add ops ds (read_records device traj_slice) in
                let copied := cl_copied c + slice_len traj_slice in
                collect_while fuel' B device
                  (mk_collect slices' (Some ds')
                     (cl_release c ++ [(device, traj_slice)])
                     copied (B - copied))
            end
        end
      else Ok c
  end.

Record Collect : Type := mk_collect_all {
  ca_slices : dict Device SliceMerger;
  ca_dataset : option (Dataset ops);
  ca_release : list (Device * slice);
  ca_copied : Z;
  ca_remaining : Z
}.

Fixpoint collect_from_devices (B : Z) (tensors : list Device)
    (devices : list Device) (f : Collect) : result Collect :=
  match devices with
  | [] => Ok f
  | device :: rest =>
      if existsb (String.eqb device) tensors then
        match dict_lookup (ca_slices f) device with
        | Raise e => Raise e
        | Ok slices =>
            match collect_while (S (List.length (slice_starts slices))) B device
                    (mk_collect slices (ca_dataset f) (ca_release f)
                       (ca_copied f) (ca_remaining f)) with
            | Raise e => Raise e
            | Ok c =>
                collect_from_devices B tensors rest
                  (mk_collect_all
                     (dict_set (ca_slices f) device (cl_slices c))
                     (cl_dataset c) (cl_release c) (cl_copied c)
                     (cl_remaining c))
            end
        end
      else Raise KeyError
  end.

Definition _maybe_enqueue_new_trajectory_data : M (SavingBatcher ops) unit :=
  self <- get;;
  let b := sb_base self in
  let devices := shuffle (shuffles b) (dict_keys (slices_for_training b)) in
  modify (set_base (set_shuffles (S (shuffles b))));;
  let B := traj_per_training_iteration b in
  f <- lift (collect_from_devices B (traj_tensors b) devices
               (mk_collect_all (slices_for_training b) (sb_dataset self)
                  (traj_slices_to_release self) 0 (B - 0)));;
  modify (set_base (set_slices_for_training (ca_slices f)));;
  modify (set_dataset (ca_dataset f));;
  modify (set_traj_slices_to_release (ca_release f)).

(** [try: batch = next(self._data_iter) except StopIteration: ...] *)
Definition next_batch : M (SavingBatcher ops) (list (option record)) :=
  self <- get;;
  match _data_iter self, sb_dataset self with
  | None, _ => raise TypeError          (* [next(None)] *)
  | Some _, None => raise AttributeError
  | Some it, Some ds =>
      match loader_next ops ds it with
      | Some (batch, it') => modify (set_data_iter (Some it'));; ret batch
      | None =>
          let it0 := loader_iter ops ds in
          modify (set_data_iter (Some it0));;
          match loader_next ops ds it0 with
          | Some (batch, it') => modify (set_data_iter (Some it'));; ret batch
          | None => raise StopIteration
          end
      end
  end.

Fixpoint saving_enqueue_loop (fuel : nat) : M (SavingBatcher ops) unit :=
  match fuel with
  | O => raise FuelExhausted
  | S fuel' =>
      self <- get;;
      match available_batches (sb_base self) with
      | [] => ret tt
      | batch_idx :: rest =>
          modify (set_base (set_available_batches rest));;
          to_release <- lift (list_lookup (traj_tensors_to_release (sb_base self))
                                batch_idx);;
          assert (Nat.eqb (List.length to_release) 0);;
          batch <- next_batch;;
          batches <- lift (list_assign (training_batches (sb_base self))
                             batch_idx batch);;
          modify (set_base (set_training_batches batches));;
          (* signal the learner that we have a new training batch *)
          sb_emit (TrainingBatchesAvailable batch_idx);;
          (if async_rl (cfg (sb_base self)) then raise NotImplementedError
           else ret tt);;
          saving_enqueue_loop fuel'
      end
  end.

Definition saving_maybe_enqueue_new_training_batches
    : M (SavingBatcher ops) unit :=
  self <- get;;
  saving_enqueue_loop (S (List.length (available_batches (sb_base self)))).

Fixpoint saving_merge_new_trajectories (device : Device)
    (trajectory_dicts : list TrajectoryDict) : M (SavingBatcher ops) unit :=
  match trajectory_dicts with
  | [] => ret tt
  | trajectory_dict :: rest =>
      self <- get;;
      assert (td_policy_id trajectory_dict =? policy_id (sb_base self));;
      let trajectory_slice := as_slice (traj_buffer_idx trajectory_dict) in
      slices <- lift (dict_lookup (slices_for_training (sb_base self)) device);;
      slices' <- lift (merge_slices slices trajectory_slice);;
      modify (set_base (fun b =>
        set_slices_for_training
          (dict_set (slices_for_training b) device slices') b));;
      modify (fun s =>
        set_n_slices_merged (_n_slices_merged s + slice_len trajectory_slice) s);;
      saving_merge_new_trajectories device rest
  end.

Definition saving_on_new_trajectories (trajectory_dicts : list TrajectoryDict)
    (device : Device) : M (SavingBatcher ops) unit :=
  saving_merge_new_trajectories device trajectory_dicts;;
  (* add to dataset *)
  _maybe_enqueue_new_trajectory_data;;
  self <- get;;
  match sb_dataset self, sb_min_saving_samples self with
  | None, _ => raise AttributeError
  | Some _, None => raise TypeError
  | Some ds, Some min_samples =>
      (* collect a minimum amount of data before starting training *)
      if num_samples ops ds <? min_samples then
        saving_release_traj_tensors   (* signal to do more rollouts *)
      else
        modify (set_data_iter (Some (loader_iter ops ds)));;
        saving_maybe_enqueue_new_training_batches   (* train signal *)
  end.

Definition saving_on_training_batch_released (batch_idx : nat)
    (training_iteration : Z) : M (SavingBatcher ops) unit :=
  modify (set_base (set_training_iteration training_iteration));;
  modify (set_base (fun b =>
    set_available_batches (available_batches b ++ [batch_idx]) b));;
  self <- get;;
  let collect_more_data :=
    (training_iteration - _prev_data_collect_iteration self
       >=? train_iter_to_data_collection_ratio (cfg (sb_base self)))
    && (training_iteration >? min_initial_train_iters (cfg (sb_base self))) in
  (if collect_more_data then
     saving_release_traj_tensors;;
     modify (set_prev_data_collect_iteration training_iteration)
   else ret tt);;
  saving_maybe_enqueue_new_training_batches;;
  if async_rl (cfg (sb_base self)) then raise NotImplementedError else ret tt.
End Saving.

(** A dataset for examples: the records added so far; the loader yields
    one batch per pass, with the first [n] records. *)
Definition list_dataset (n : nat) : DatasetOps :=
  {| Dataset := list record;
     DataIter := bool;
     dataset_new := fun _ => [];
     dataset_add := fun ds rs => ds ++ rs;
     num_samples := fun ds => Z.of_nat (List.length ds);
     loader_iter := fun _ => true;
     loader_next := fun ds it =>
       if it then
         match ds with
         | [] => None
         | _ :: _ => Some (map Some (firstn n ds), false)
         end
       else None |}.

(* ------------------------------------------------------------------ *)
(** ** Slot ownership and the engine invariant *)

Definition in_sliceb (i : Z) (s : slice) : bool :=
  (start s <=? i) && (i <? stop s).

Definition cnt1 (i : Z) (s : slice) : nat := if in_sliceb i s then 1 else 0.

(** How many of the slices [L] contain the index [i]. *)
Definition cnt (i : Z) (L : list slice) : nat :=
  List.length (filter (in_sliceb i) L).

Definition holds_slot (device : Device) (i : Z) (x : Device * slice) : bool :=
  String.eqb (fst x) device && in_sliceb i (snd x).

(** How many of the located slices [l] contain slot [i] of [device]. *)
Definition occ (device : Device) (i : Z) (l : list (Device * slice)) : nat :=
  List.length (filter (holds_slot device i) l).

(** The ranges stored in a dict of mergers, each with its device. *)
Definition located (d : dict Device SliceMerger) : list (Device * slice) :=
  flat_map (fun x => map (pair (fst x)) (ranges (snd x))) d.

(** The slices the engine holds: waiting for a training batch, waiting for
    a sampling batch, or copied into a batch and not yet released. *)
Definition held (st : Batcher) : list (Device * slice) :=
  located (slices_for_training st) ++
  located (slices_for_sampling st) ++
  List.concat (traj_tensors_to_release st).

(** The records of a list of located slices, in order. *)
Definition records_of (l : list (Device * slice)) : list record :=
  flat_map (fun x => read_records (fst x) (snd x)) l.

Fixpoint sum_total (T : dict Device SliceMerger) : Z :=
  match T with
  | [] => 0
  | (_, m) :: rest => total_num m + sum_total rest
  end.

Definition lookup_total (T : dict Device SliceMerger) (d : Device) : Z :=
  match dict_get T d with
  | Some m => total_num m
  | None => 0
  end.

(** A batch buffer the learner holds: a valid index that is not free. *)
Definition in_flight (st : Batcher) (b : nat) : Prop :=
  (b < max_batches_to_accumulate st)%nat /\ ~ In b (available_batches st).

(** The records written in batch buffer [b]. *)
Definition batch_records (st : Batcher) (b : nat) : list record :=
  flat_map (fun o => match o with Some r => [r] | None => [] end)
           (nth b (training_batches st) []).

(** The slot indices of [device] among the located slices [l]. *)
Definition indices_for (device : Device) (l : list (Device * slice)) : list Z :=
  flat_map (fun x => if String.eqb (fst x) device
                     then slice_indices (snd x) else []) l.

(** Whether some located slice of [l] is on [device]. *)
Definition mentions (device : Device) (l : list (Device * slice)) : bool :=
  existsb (fun x => String.eqb (fst x) device) l.

Definition reported (device : Device) (tds : list TrajectoryDict)
    : list (Device * slice) :=
  map (fun td => (device, as_slice (traj_buffer_idx td))) tds.

(** What producers are trusted with: they report, under the batcher's
    policy, non-empty ranges of slots that the engine does not hold and
    that do not overlap one another. *)
Definition producer_ok (st : Batcher) (tds : list TrajectoryDict)
    (device : Device) : Prop :=
  Forall (fun td => td_policy_id td = policy_id st) tds /\
  Forall (fun x => nonempty (snd x)) (reported device tds) /\
  forall d i, (occ d i (held st ++ reported device tds) <= 1)%nat.

(** What the configuration is trusted with: distinct devices, a queue for
    every device, a batch size that is a count, and a positive sampling
    batch size under batched sampling. *)
Definition config_ok (bm : BufferMgr) (c : Cfg) : Prop :=
  NoDup (traj_tensors_torch bm) /\
  incl (traj_tensors_torch bm) (bm_traj_buffer_queues bm) /\
  0 <= trajectories_per_training_iteration bm /\
  (batched_sampling c = true -> 1 <= sampling_trajectories_per_iteration bm).

(** The part of the invariant that concerns the slots: the three dicts
    are keyed by the devices, every merger is well formed, the buffers
    have the size of a batch, and no slot is held twice. *)
Record BCore (st : Batcher) : Prop := {
  inv_keys_training : dict_keys (slices_for_training st) = traj_tensors st;
  inv_keys_sampling : dict_keys (slices_for_sampling st) = traj_tensors st;
  inv_devices : NoDup (traj_tensors st);
  inv_queues : incl (traj_tensors st) (dict_keys (traj_buffer_queues st));
  inv_batch_size : 0 <= traj_per_training_iteration st;
  inv_sampling_size :
    batched_sampling (cfg st) = true -> 1 <= traj_per_sampling_iteration st;
  inv_training : Forall SInv (dict_values (slices_for_training st));
  inv_sampling : Forall SInv (dict_values (slices_for_sampling st));
  inv_batches :
    List.length (training_batches st) = max_batches_to_accumulate st;
  inv_batch_len :
    Forall (fun buf => Z.of_nat (List.length buf) = traj_per_training_iteration st)
           (training_batches st);
  inv_release_len :
    List.length (traj_tensors_to_release st) = max_batches_to_accumulate st;
  inv_release_ok :
    Forall (fun x => In (fst x) (traj_tensors st) /\ nonempty (snd x))
           (List.concat (traj_tensors_to_release st));
  inv_exclusive : forall d i, (occ d i (held st) <= 1)%nat
}.

(** The engine invariant: the slot invariant, and the batch buffers: the
    free list has no repetition and only valid indices; a free buffer has
    nothing to release; in asynchronous mode nothing waits for release; in
    synchronous mode a buffer in flight holds exactly the records of its
    release list. *)
Record BInv (st : Batcher) : Prop := {
  inv_core : BCore st;
  inv_available_nodup : NoDup (available_batches st);
  inv_available_lt :
    Forall (fun b => (b < max_batches_to_accumulate st)%nat) (available_batches st);
  inv_available_released :
    forall b, In b (available_batches st) ->
              nth_error (traj_tensors_to_release st) b = Some [];
  inv_async_released :
    async_rl (cfg st) = true ->
    Forall (fun l => l = []) (traj_tensors_to_release st);
  inv_in_flight :
    async_rl (cfg st) = false ->
    forall b, in_flight st b ->
      nth_error (training_batches st) b
      = Some (map Some (records_of (nth b (traj_tensors_to_release st) [])))
}.

(** ** Flow control, as read off the emitted signals *)

Inductive phase : Type := Collecting | Paused.

(** The phase after the signals [evs], starting in phase [p]; [None] when
    a stop is signalled while paused or a resume while collecting. *)
Fixpoint flow_phase (p : phase) (evs : list event) : option phase :=
  match evs with
  | [] => Some p
  | StopExperienceCollection :: rest =>
      match p with
      | Collecting => flow_phase Paused rest
      | Paused => None
      end
  | ResumeExperienceCollection :: rest =>
      match p with
      | Paused => flow_phase Collecting rest
      | Collecting => None
      end
  | _ :: rest => flow_phase p rest
  end.

(** Paused exactly when the pool exists and has no free buffer. *)
Definition expected_phase (st : Batcher) : phase :=
  match available_batches st, max_batches_to_accumulate st with
  | [], S _ => Paused
  | _, _ => Collecting
  end.

Definition count_event (e : event) (evs : list event) : nat :=
  List.length (filter (fun x => match x, e with
                         | StopExperienceCollection, StopExperienceCollection => true
                         | ResumeExperienceCollection, ResumeExperienceCollection => true
                         | _, _ => false
                         end) evs).

(** ** The states of a run *)

Section Run.
Variable shuffle : nat -> list Device -> list Device.

Inductive reachable : Batcher -> Prop :=
| reach_setup (pid : PolicyID) (bm : BufferMgr) (c : Cfg) (st : Batcher) :
    config_ok bm c ->
    init (Batcher_init pid bm c) = (Ok tt, st) ->
    reachable st
| reach_report (st : Batcher) (tds : list TrajectoryDict) (device : Device)
    (st' : Batcher) :
    reachable st ->
    producer_ok st tds device ->
    merge_new_trajectories device tds st = (Ok tt, st') ->
    reachable st'
| reach_pass (st : Batcher) (b : nat) (rest : list nat) (st' : Batcher) :
    reachable st ->
    available_batches st = b :: rest ->
    traj_per_training_iteration st
      <= total_num_trajectories (slices_for_training st) ->
    enqueue_pass shuffle b (set_available_batches rest st) = (Ok tt, st') ->
    reachable st'
| reach_return (st : Batcher) (b : nat) (it : Z) (st' : Batcher) :
    reachable st ->
    in_flight st b ->
    return_batch b it st = (Ok tt, st') ->
    reachable st'.
End Run.

(* ------------------------------------------------------------------ *)
(** ** Concrete runs *)

(** A decidable check that no two located slices share a slot. *)
Definition overlapb (x y : Device * slice) : bool :=
  String.eqb (fst x) (fst y) &&
  (start (snd x) <? stop (snd y)) && (start (snd y) <? stop (snd x)).

Fixpoint exclusiveb (l : list (Device * slice)) : bool :=
  match l with
  | [] => true
  | x :: rest => forallb (fun y => negb (overlapb x y)) rest && exclusiveb rest
  end.

Definition example_cfg (async batched : bool) : Cfg :=
  {| async_rl := async;
     batched_sampling := batched;
     use_rnn := false;
     rnn_type := "gru";
     actor_critic_share_weights := true;
     rnn_determinstic_size := 1;
     rnn_stochastic_size := 1;
     rnn_discrete_size := 1;
     num_batches_to_accumulate := 2;
     min_saving_samples := 0;
     min_initial_train_iters := 0;
     train_iter_to_data_collection_ratio := 1;
     train_n_trajectories := 1 |}.

(** One device, batches of [B] trajectories, sampling batches of [n], a
    pool of [K] batch buffers. *)
Definition example_bm (B n : Z) (K : nat) : BufferMgr :=
  {| trajectories_per_training_iteration := B;
     sampling_trajectories_per_iteration := n;
     traj_tensors_torch := ["cpu"%string];
     bm_traj_buffer_queues := ["cpu"%string];
     bm_max_batches_to_accumulate := K |}.

Definition exec (m : M Batcher unit) (s : Batcher) : Batcher := snd (m s).

Definition report (s : slice) : TrajectoryDict :=
  {| td_policy_id := 0; traj_buffer_idx := inr s |}.

(** Scenario B, synchronous, B = 4, two buffers: [0,2) arrives, then
    [2,5), a first batch is assembled; then [5,8) arrives and a second
    batch is assembled. *)
Definition sB0 : Batcher :=
  exec init (Batcher_init 0 (example_bm 4 2 2) (example_cfg false false)).
Definition sB1 : Batcher :=
  exec (merge_new_trajectories "cpu"%string [report (mk_slice 0 2)]) sB0.
Definition sB2 : Batcher :=
  exec (merge_new_trajectories "cpu"%string [report (mk_slice 2 5)]) sB1.
Definition sB3 : Batcher :=
  exec (enqueue_pass no_shuffle 0) (set_available_batches [1%nat] sB2).
Definition sB4 : Batcher :=
  exec (merge_new_trajectories "cpu"%string [report (mk_slice 5 8)]) sB3.
Definition sB5 : Batcher :=
  exec (enqueue_pass no_shuffle 1) (set_available_batches [] sB4).


(** Asynchronous, B = 2, two buffers: [0,4) arrives and both buffers get
    ready one after the other; then the learner returns buffer 0. *)
Definition sA0 : Batcher :=
  exec init (Batcher_init 0 (example_bm 2 2 2) (example_cfg true false)).
Definition sA1 : Batcher :=
  exec (merge_new_trajectories "cpu"%string [report (mk_slice 0 4)]) sA0.
Definition sA2 : Batcher :=
  exec (enqueue_pass no_shuffle 0) (set_available_batches [1%nat] sA1).
Definition sA3 : Batcher :=
  exec (enqueue_pass no_shuffle 1) (set_available_batches [] sA2).
Definition sA4 : Batcher := exec (return_batch 0 1) sA3.

(** Asynchronous, B = 2, two buffers: [0,2) arrives and buffer 0 gets
    ready, its slots are released at once; the producers fill [0,2) again
    and buffer 1 gets ready. *)
Definition sC0 : Batcher := sA0.
Definition sC1 : Batcher :=
  exec (merge_new_trajectories "cpu"%string [report (mk_slice 0 2)]) sC0.
Definition sC2 : Batcher :=
  exec (enqueue_pass no_shuffle 0) (set_available_batches [1%nat] sC1).
Definition sC3 : Batcher :=
  exec (merge_new_trajectories "cpu"%string [report (mk_slice 0 2)]) sC2.
Definition sC4 : Batcher :=
  exec (enqueue_pass no_shuffle 1) (set_available_batches [] sC3).


(** The saving batcher in asynchronous mode: setup, then a first report. *)
Definition sS0 : SavingBatcher (list_dataset 1) :=
  snd (saving_init (list_dataset 1)
         (SavingBatcher_init (list_dataset 1) 0 (example_bm 2 2 2)
            (example_cfg true false))).
Definition sS1 : SavingBatcher (list_dataset 1) :=
  snd (saving_on_new_trajectories (list_dataset 1) no_shuffle
         [report (mk_slice 0 2)] "cpu"%string sS0).

(** The saving batcher with batched sampling: setup, a first report, and
    the learner's first acknowledgement. *)
Definition sT0 : SavingBatcher (list_dataset 1) :=
  snd (saving_init (list_dataset 1)
         (SavingBatcher_init (list_dataset 1) 0 (example_bm 2 2 2)
            (example_cfg false true))).
Definition sT1 : SavingBatcher (list_dataset 1) :=
  snd (saving_on_new_trajectories (list_dataset 1) no_shuffle
         [report (mk_slice 0 2)] "cpu"%string sT0).
Definition sT2 : SavingBatcher (list_dataset 1) :=
  snd (saving_on_training_batch_released (list_dataset 1) 0 1 sT1).

(** A configuration with a recurrent core of the given type. *)
Definition example_cfg_rnn (rnn : string) (share : bool) : Cfg :=
  {| async_rl := false;
     batched_sampling := false;
     use_rnn := true;
     rnn_type := rnn;
     actor_critic_share_weights := share;
     rnn_determinstic_size := 8;
     rnn_stochastic_size := 4;
     rnn_discrete_size := 2;
     num_batches_to_accumulate := 2;
     min_saving_samples := 0;
     min_initial_train_iters := 0;
     train_iter_to_data_collection_ratio := 1;
     train_n_trajectories := 1 |}.

(** A report under another policy. *)
Definition report_as (pid : PolicyID) (s : slice) : TrajectoryDict :=
  {| td_policy_id := pid; traj_buffer_idx := inr s |}.

(** A buffer manager whose tensors live on a GPU only. *)
Definition example_bm_gpu (B : Z) (K : nat) : BufferMgr :=
  {| trajectories_per_training_iteration := B;
     sampling_trajectories_per_iteration := 1;
     traj_tensors_torch := ["cuda:0"%string];
     bm_traj_buffer_queues := ["cuda:0"%string];
     bm_max_batches_to_accumulate := K |}.

(** Synchronous, batched sampling, B = 4, sampling batches of 2: [0,5)
    arrives and buffer 0 gets ready. *)
Definition sE0 : Batcher :=
  exec init (Batcher_init 0 (example_bm 4 2 2) (example_cfg false true)).
Definition sE1 : Batcher :=
  exec (merge_new_trajectories "cpu"%string [report (mk_slice 0 5)]) sE0.
Definition sE2 : Batcher :=
  exec (enqueue_pass no_shuffle 0) (set_available_batches [1%nat] sE1).

(** What [_maybe_enqueue_new_trajectory_data] adds to the dataset for the
    located slices [xs], one [dataset.add] call per slice, in order. *)
Definition add_all (ops : DatasetOps) (xs : list (Device * slice))
    (ds : Dataset ops) : Dataset ops :=
  fold_left (fun acc x => dataset_add ops acc (read_records (fst x) (snd x)))
            xs ds.

(** A configuration for the saving batcher, synchronous and unbatched,
    that starts training once [min_samples] samples are stored. *)
Definition example_cfg_saving (min_samples : Z) : Cfg :=
  {| async_rl := false;
     batched_sampling := false;
     use_rnn := false;
     rnn_type := "gru";
     actor_critic_share_weights := true;
     rnn_determinstic_size := 1;
     rnn_stochastic_size := 1;
     rnn_discrete_size := 1;
     num_batches_to_accumulate := 2;
     min_saving_samples := min_samples;
     min_initial_train_iters := 0;
     train_iter_to_data_collection_ratio := 1;
     train_n_trajectories := 1 |}.

(** The saving batcher, B = 4, training starts at 3 samples: setup, then
    [0,2) arrives, then [2,7). *)
Definition sU0 : SavingBatcher (list_dataset 1) :=
  snd (saving_init (list_dataset 1)
         (SavingBatcher_init (list_dataset 1) 0 (example_bm 4 2 2)
            (example_cfg_saving 3))).
Definition sU1 : SavingBatcher (list_dataset 1) :=
  snd (saving_on_new_trajectories (list_dataset 1) no_shuffle
         [report (mk_slice 0 2)] "cpu"%string sU0).
Definition sU2 : SavingBatcher (list_dataset 1) :=
  snd (saving_on_new_trajectories (list_dataset 1) no_shuffle
         [report (mk_slice 2 7)] "cpu"%string sU1).
Definition sU3 : SavingBatcher (list_dataset 1) :=
  snd (saving_on_training_batch_released (list_dataset 1) 0 1 sU2).

(** The test [collect_more_data] of [SavingBatcher.on_training_batch_released]
    for an acknowledgement at training iteration [it]. *)
Definition collect_more_data (ops : DatasetOps) (st : SavingBatcher ops)
    (it : Z) : bool :=
  (it - _prev_data_collect_iteration st
     >=? train_iter_to_data_collection_ratio (cfg (sb_base st)))
  && (it >? min_initial_train_iters (cfg (sb_base st))).

(** The slices a report names, in order. *)
Definition reported_slices (tds : list TrajectoryDict) : list slice :=
  map (fun td => as_slice (traj_buffer_idx td)) tds.

(* ------------------------------------------------------------------ *)
(** ** [algo/utils/context.py]: the global context *)

(** [ModelFactory], [LearnerFactory] and the environment constructors are
    objects of other modules; only their identity matters here. *)
Definition ObjId : Type := nat.
Definition CreateEnvFunc : Type := Z.

Record SampleFactoryContext : Type := mk_context {
  env_registry : dict string CreateEnvFunc;
  model_factory : ObjId;
  learner_factory : ObjId
}.

(** The part of the interpreter state the module works on: the context
    objects created so far, a reference to one being its position; the
    number of factory objects created so far; the module variable
    [GLOBAL_CONTEXT]. *)
Record Globals : Type := mk_globals {
  contexts : list SampleFactoryContext;
  factories : nat;
  GLOBAL_CONTEXT : option nat
}.

Definition set_GLOBAL_CONTEXT (v : option nat) (g : Globals) : Globals :=
  mk_globals (contexts g) (factories g) v.

(** [SampleFactoryContext()]: a new object with an empty registry and two
    new factories. *)
Definition SampleFactoryContext_init : M Globals nat :=
  g <- get;;
  modify (fun g0 =>
    mk_globals
      (contexts g0 ++ [mk_context [] (factories g0) (S (factories g0))])
      (S (S (factories g0)))
      (GLOBAL_CONTEXT g0));;
  ret (List.length (contexts g)).

Definition sf_global_context : M Globals nat :=
  g <- get;;
  match GLOBAL_CONTEXT g with
  | None =>
      ctx <- SampleFactoryContext_init;;
      modify (set_GLOBAL_CONTEXT (Some ctx));;
      ret ctx
  | Some ctx => ret ctx
  end.

Definition set_global_context (ctx : nat) : M Globals unit :=
  modify (set_GLOBAL_CONTEXT (Some ctx)).

Definition reset_global_context : M Globals unit :=
  ctx <- SampleFactoryContext_init;;
  modify (set_GLOBAL_CONTEXT (Some ctx)).

(** [global_env_registry()] returns the registry object of the global
    context: a reference to it is the reference to its context. *)
Definition global_env_registry : M Globals nat := sf_global_context.

(** The attribute reads below find their object: a reference that names
    none does not occur when [globals_ok] holds (defined further down). *)
Definition global_model_factory : M Globals ObjId :=
  ctx <- sf_global_context;;
  g <- get;;
  match nth_error (contexts g) ctx with
  | Some c => ret (model_factory c)
  | None => raise AttributeError
  end.

Definition global_learner_factory : M Globals ObjId :=
  ctx <- sf_global_context;;
  g <- get;;
  match nth_error (contexts g) ctx with
  | Some c => ret (learner_factory c)
  | None => raise AttributeError
  end.

(** What callers do with the registry they were handed: [registry[name] = f]
    and [registry.get(name)].  The dict is the one stored in the context,
    not a copy. *)
Fixpoint update_nth {A : Type} (l : list A) (n : nat) (f : A -> A) : list A :=
  match l, n with
  | [], _ => []
  | x :: rest, O => f x :: rest
  | x :: rest, S n' => x :: update_nth rest n' f
  end.

Definition registry_setitem (registry : nat) (name : string)
    (make_env : CreateEnvFunc) : M Globals unit :=
  modify (fun g =>
    mk_globals
      (update_nth (contexts g) registry
         (fun c => mk_context (dict_set (env_registry c) name make_env)
                     (model_factory c) (learner_factory c)))
      (factories g) (GLOBAL_CONTEXT g)).

Definition registry_get (registry : nat) (name : string)
    : M Globals (option CreateEnvFunc) :=
  g <- get;;
  ret (match nth_error (contexts g) registry with
       | Some c => dict_get (env_registry c) name
       | None => None
       end).

(** References held in the module variable name an object. *)
Definition globals_ok (g : Globals) : Prop :=
  forall ctx, GLOBAL_CONTEXT g = Some ctx -> (ctx < List.length (contexts g))%nat.

(** The interpreter state when the module has just been imported. *)
Definition globals_at_import : Globals := mk_globals [] 0 None.


(* ================================================================== *)
(** * Properties of the range merger *)

(** ** Dictionaries indexed by a key of the stored value *)

Section IndexBy.
Variable key : slice -> Z.

Lemma dict_get_index_by (L : list slice) (k : Z) :
  dict_get (index_by key L) k = find (fun s => key s =? k) L.
Proof.
  induction L as [|s L IH]; simpl; [reflexivity|].
  destruct (key s =? k); [reflexivity | exact IH].
Qed.

Lemma dict_del_index_by (L1 L2 : list slice) (p : slice) :
  (forall s, In s L1 -> key s <> key p) ->
  dict_del (index_by key (L1 ++ p :: L2)) (key p)
  = Some (index_by key (L1 ++ L2)).
Proof.
  unfold index_by.
  induction L1 as [|s L1 IH]; simpl; intros Hfresh.
  - now rewrite Z.eqb_refl.
  - destruct (Z.eqb_spec (key s) (key p)) as [E|_].
    + exfalso. apply (Hfresh s); auto.
    + rewrite IH; auto.
Qed.

Lemma dict_set_index_by (L : list slice) (s : slice) :
  (forall t, In t L -> key t <> key s) ->
  dict_set (index_by key L) (key s) s = index_by key (L ++ [s]).
Proof.
  unfold index_by.
  induction L as [|t L IH]; simpl; intros Hfresh; [reflexivity|].
  destruct (Z.eqb_spec (key t) (key s)) as [E|_].
  - exfalso. apply (Hfresh t); auto.
  - rewrite IH; auto.
Qed.

Lemma dict_values_index_by (L : list slice) :
  dict_values (index_by key L) = L.
Proof.
  unfold dict_values, index_by. rewrite map_map. simpl. apply map_id.
Qed.

Lemma length_index_by (L : list slice) :
  List.length (index_by key L) = List.length L.
Proof. apply length_map. Qed.
End IndexBy.

Lemma ranges_of_ranges (L : list slice) : ranges (of_ranges L) = L.
Proof. apply dict_values_index_by. Qed.

(** ** Pairwise relations *)

Lemma pairwise_app {A : Type} (R : A -> A -> Prop) (l1 l2 : list A) :
  pairwise R (l1 ++ l2) <->
  pairwise R l1 /\ pairwise R l2 /\ (forall x y, In x l1 -> In y l2 -> R x y).
Proof.
  induction l1 as [|a l1 IH]; simpl.
  - intuition auto; contradiction.
  - rewrite Forall_app, IH, !Forall_forall. split.
    + intros [[H1 H2] [H3 [H4 H5]]]. repeat split; auto.
      intros x y [->|Hx] Hy; auto.
    + intros [[H1 H2] [H3 H4]]. repeat split; auto.
  Qed.

Lemma pairwise_In {A : Type} (R : A -> A -> Prop) (l : list A) (x y : A) :
  (forall a b, R a b -> R b a) ->
  pairwise R l -> In x l -> In y l -> x = y \/ R x y.
Proof.
  intros Hsym. induction l as [|a l IH]; simpl; [contradiction|].
  intros [Hall Hp] [->|Hx] [->|Hy]; auto.
  - right. rewrite Forall_forall in Hall. auto.
  - right. rewrite Forall_forall in Hall. auto.
Qed.

Lemma separated_sym (s t : slice) : separated s t -> separated t s.
Proof. unfold separated. tauto. Qed.

Lemma disjoint_sym (s t : slice) : disjoint s t -> disjoint t s.
Proof. unfold disjoint. tauto. Qed.

Lemma separated_disjoint (s t : slice) : separated s t -> disjoint s t.
Proof. unfold separated, disjoint. lia. Qed.

(** ** Sums of lengths, covered indices *)

Lemma sum_len_app (L1 L2 : list slice) :
  sum_len (L1 ++ L2) = sum_len L1 + sum_len L2.
Proof. induction L1; simpl; lia. Qed.

Lemma sum_len_nonneg (L : list slice) : Forall nonempty L -> 0 <= sum_len L.
Proof.
  induction 1 as [|s L Hs _ IH]; simpl; [lia|].
  unfold nonempty, slice_len in *. lia.
Qed.

Lemma covered_app (i : Z) (L1 L2 : list slice) :
  covered i (L1 ++ L2) <-> covered i L1 \/ covered i L2.
Proof.
  unfold covered. split.
  - intros (s & Hs & Hi). apply in_app_or in Hs. destruct Hs; eauto.
  - intros [(s & Hs & Hi) | (s & Hs & Hi)]; exists s; split; auto;
      apply in_or_app; auto.
Qed.

Lemma covered_cons (i : Z) (s : slice) (L : list slice) :
  covered i (s :: L) <-> in_slice i s \/ covered i L.
Proof.
  unfold covered; simpl. split.
  - intros (t & [<-|Ht] & Hi); eauto.
  - intros [Hi | (t & Ht & Hi)]; eauto.
Qed.

Lemma covered_nil (i : Z) : ~ covered i [].
Proof. intros (s & [] & _). Qed.

(** ** Well-formed range lists *)

Lemma wf_ranges_nil : wf_ranges [].
Proof. split; simpl; auto. Qed.

Lemma wf_ranges_split (L1 L2 : list slice) (p : slice) :
  wf_ranges (L1 ++ p :: L2) ->
  wf_ranges (L1 ++ L2) /\ nonempty p /\
  (forall s, In s (L1 ++ L2) -> separated p s).
Proof.
  intros [Hne Hpw].
  apply Forall_app in Hne. destruct Hne as [Hne1 Hne2].
  inversion Hne2 as [|? ? Hp Hne2']; subst.
  apply pairwise_app in Hpw. destruct Hpw as (Hp1 & Hp2 & Hc).
  simpl in Hp2. destruct Hp2 as [Hp2a Hp2b].
  repeat split.
  - apply Forall_app; auto.
  - apply pairwise_app. repeat split; auto.
    intros x y Hx Hy. apply Hc; simpl; auto.
  - exact Hp.
  - intros s Hs. apply in_app_or in Hs. destruct Hs as [Hs|Hs].
    + apply separated_sym. apply Hc; simpl; auto.
    + rewrite Forall_forall in Hp2a. auto.
Qed.

Lemma wf_ranges_snoc (L : list slice) (s : slice) :
  wf_ranges L -> nonempty s -> (forall t, In t L -> separated t s) ->
  wf_ranges (L ++ [s]).
Proof.
  intros [Hne Hpw] Hs Hsep. split.
  - apply Forall_app; auto.
  - apply pairwise_app. repeat split; simpl; auto.
    intros x y Hx [<-|[]]. auto.
Qed.

Lemma wf_ranges_In (L : list slice) (s t : slice) :
  wf_ranges L -> In s L -> In t L -> s = t \/ separated s t.
Proof.
  intros [_ Hpw]. apply pairwise_In; auto. exact separated_sym.
Qed.

Lemma wf_ranges_nonempty (L : list slice) (s : slice) :
  wf_ranges L -> In s L -> nonempty s.
Proof. intros [Hne _] Hs. rewrite Forall_forall in Hne. auto. Qed.

(** ** Counting the ranges that hold an index *)

Lemma in_sliceb_spec (i : Z) (s : slice) :
  reflect (in_slice i s) (in_sliceb i s).
Proof.
  apply iff_reflect. unfold in_slice, in_sliceb.
  rewrite andb_true_iff, Z.leb_le, Z.ltb_lt. tauto.
Qed.

Lemma cnt_cons (i : Z) (s : slice) (L : list slice) :
  cnt i (s :: L) = (cnt1 i s + cnt i L)%nat.
Proof. unfold cnt, cnt1. simpl. destruct (in_sliceb i s); reflexivity. Qed.

Lemma cnt_nil (i : Z) : cnt i [] = 0%nat.
Proof. reflexivity. Qed.

Lemma cnt_app (i : Z) (L1 L2 : list slice) :
  cnt i (L1 ++ L2) = (cnt i L1 + cnt i L2)%nat.
Proof. unfold cnt. rewrite filter_app, length_app. reflexivity. Qed.

Lemma cnt1_join (i : Z) (p t : slice) :
  stop p = start t -> nonempty p -> nonempty t ->
  cnt1 i (mk_slice (start p) (stop t)) = (cnt1 i p + cnt1 i t)%nat.
Proof.
  unfold cnt1, nonempty. intros E Hp Ht.
  destruct (in_sliceb_spec i (mk_slice (start p) (stop t))) as [H|H],
           (in_sliceb_spec i p) as [H1|H1], (in_sliceb_spec i t) as [H2|H2];
    unfold in_slice in *; simpl in *; lia.
Qed.

Lemma cnt_prefix_remainder (i : Z) (p : slice) (n : Z) :
  0 <= n -> nonempty p ->
  cnt1 i p = (cnt1 i (prefix_of p n) + cnt i (remainder_of p n))%nat.
Proof.
  unfold prefix_of, remainder_of, nonempty. intros Hn Hp.
  destruct (Z.gtb_spec (slice_len p) n) as [Hlt|Hge].
  - rewrite cnt_cons, cnt_nil. unfold cnt1, slice_len in *.
    destruct (in_sliceb_spec i p) as [H|H],
             (in_sliceb_spec i (mk_slice (start p) (start p + n))) as [H1|H1],
             (in_sliceb_spec i (mk_slice (start p + n) (stop p))) as [H2|H2];
      unfold in_slice in *; simpl in *; lia.
  - rewrite cnt_nil. lia.
Qed.

Lemma cnt_covered (i : Z) (L : list slice) :
  covered i L <-> (1 <= cnt i L)%nat.
Proof.
  induction L as [|s L IH].
  - rewrite cnt_nil. split; [intros H; exfalso; eapply covered_nil; eauto | lia].
  - rewrite covered_cons, cnt_cons, IH. unfold cnt1.
    destruct (in_sliceb_spec i s); split; intros; try lia; auto.
    destruct H; [contradiction | lia].
Qed.

Lemma cnt_wf_le_1 (i : Z) (L : list slice) :
  wf_ranges L -> (cnt i L <= 1)%nat.
Proof.
  intros [_ Hpw]. induction L as [|s L IH]; [rewrite cnt_nil; lia|].
  destruct Hpw as [Hsep Hpw]. rewrite cnt_cons. specialize (IH Hpw).
  unfold cnt1. destruct (in_sliceb_spec i s) as [Hi|_]; [|lia].
  assert (cnt i L = 0%nat); [|lia].
  destruct (cnt i L) eqn:E; [reflexivity|exfalso].
  assert (Hc : covered i L) by (apply cnt_covered; lia).
  destruct Hc as (t & Ht & Hit). rewrite Forall_forall in Hsep.
  specialize (Hsep t Ht). unfold separated, in_slice in *. lia.
Qed.

(** ** The two primitive updates on a well-formed merger *)

Lemma del_slice_of_ranges (L1 L2 : list slice) (p : slice) :
  wf_ranges (L1 ++ p :: L2) ->
  _del_slice (of_ranges (L1 ++ p :: L2)) p = Ok (of_ranges (L1 ++ L2)).
Proof.
  intros Hwf. destruct (wf_ranges_split _ _ _ Hwf) as (Hwf' & Hp & Hsep).
  assert (Hne : forall s, In s L1 -> nonempty s).
  { intros s Hs. apply (wf_ranges_nonempty _ _ Hwf'). apply in_or_app; auto. }
  unfold _del_slice, of_ranges; simpl.
  rewrite (dict_del_index_by start), (dict_del_index_by stop).
  - rewrite !sum_len_app. simpl. do 2 f_equal. lia.
  - intros s Hs E. specialize (Hne s Hs).
    assert (Hx : separated p s) by (apply Hsep, in_or_app; auto).
    unfold separated, nonempty in *. lia.
  - intros s Hs E. specialize (Hne s Hs).
    assert (Hx : separated p s) by (apply Hsep, in_or_app; auto).
    unfold separated, nonempty in *. lia.
Qed.

Lemma add_slice_of_ranges (L : list slice) (s : slice) :
  (forall t, In t L -> start t <> start s /\ stop t <> stop s) ->
  _add_slice (of_ranges L) s = of_ranges (L ++ [s]).
Proof.
  intros Hfresh. unfold _add_slice, of_ranges; simpl.
  rewrite (dict_set_index_by start), (dict_set_index_by stop).
  - rewrite sum_len_app. simpl. f_equal. lia.
  - intros t Ht. apply Hfresh; auto.
  - intros t Ht. apply Hfresh; auto.
Qed.

(** ** [merge_slices] *)

Lemma merge_slices_rec_spec (fuel : nat) :
  forall (L : list slice) (ts : slice),
    wf_ranges L -> nonempty ts ->
    (forall r, In r L -> disjoint ts r) ->
    (List.length L < fuel)%nat ->
    exists L',
      merge_slices_rec fuel (of_ranges L) ts = Ok (of_ranges L') /\
      wf_ranges L' /\
      (forall i, covered i L' <-> covered i L \/ in_slice i ts) /\
      sum_len L' = sum_len L + slice_len ts /\
      (forall i, cnt i L' = (cnt i L + cnt1 i ts)%nat).
Proof.
  induction fuel as [|fuel IH]; intros L ts Hwf Hts Hdis Hfuel; [lia|].
  simpl. rewrite dict_get_index_by.
  destruct (find (fun s => stop s =? start ts) L) as [p|] eqn:Eprev.
  - (* a range ends where ours starts *)
    apply find_some in Eprev. destruct Eprev as [Hin Hk].
    apply Z.eqb_eq in Hk.
    destruct (in_split _ _ Hin) as (L1 & L2 & ->).
    rewrite del_slice_of_ranges by assumption.
    destruct (wf_ranges_split _ _ _ Hwf) as (Hwf' & Hp & Hsep).
    destruct (IH (L1 ++ L2) (mk_slice (start p) (stop ts))) as (L' & HL' & Hwf'' & Hcov & Hsum & Hcnt).
    + assumption.
    + unfold nonempty in *; simpl; lia.
    + intros r Hr. specialize (Hsep r Hr).
      assert (Hd : disjoint ts r).
      { apply Hdis. apply in_app_or in Hr. apply in_or_app. simpl. tauto. }
      assert (Hrne : nonempty r) by (apply (wf_ranges_nonempty _ _ Hwf'); auto).
      unfold disjoint, separated, nonempty in *; simpl; lia.
    + rewrite length_app in *. simpl in Hfuel. lia.
    + exists L'. split; [exact HL'|]. split; [exact Hwf''|].
      split; [intros i; split|split].
      * intros Hi. apply Hcov in Hi. rewrite covered_app, covered_cons.
        rewrite covered_app in Hi. unfold in_slice in *; simpl in *.
        destruct Hi as [[?|?]|?]; auto.
        unfold nonempty in *.
        destruct (Z_lt_le_dec i (stop p)); [left; right; left|right]; lia.
      * intros Hi. apply Hcov. rewrite covered_app, covered_cons in Hi.
        rewrite covered_app. unfold in_slice in *; simpl in *.
        unfold nonempty in *.
        destruct Hi as [[?|[?|?]]|?]; auto; right; lia.
      * rewrite Hsum, !sum_len_app. simpl. unfold slice_len; simpl. lia.
      * intros i. rewrite Hcnt, !cnt_app, cnt_cons, cnt1_join by assumption. lia.
  - rewrite dict_get_index_by.
    destruct (find (fun s => start s =? stop ts) L) as [p|] eqn:Enext.
    + (* a range starts where ours ends *)
      apply find_some in Enext. destruct Enext as [Hin Hk].
      apply Z.eqb_eq in Hk.
      destruct (in_split _ _ Hin) as (L1 & L2 & ->).
      rewrite del_slice_of_ranges by assumption.
      destruct (wf_ranges_split _ _ _ Hwf) as (Hwf' & Hp & Hsep).
      destruct (IH (L1 ++ L2) (mk_slice (start ts) (stop p))) as (L' & HL' & Hwf'' & Hcov & Hsum & Hcnt).
      * assumption.
      * unfold nonempty in *; simpl; lia.
      * intros r Hr. specialize (Hsep r Hr).
        assert (Hd : disjoint ts r).
        { apply Hdis. apply in_app_or in Hr. apply in_or_app. simpl. tauto. }
        assert (Hrne : nonempty r) by (apply (wf_ranges_nonempty _ _ Hwf'); auto).
        unfold disjoint, separated, nonempty in *; simpl; lia.
      * rewrite length_app in *. simpl in Hfuel. lia.
      * exists L'. split; [exact HL'|]. split; [exact Hwf''|].
        split; [intros i; split|split].
        -- intros Hi. apply Hcov in Hi. rewrite covered_app, covered_cons.
           rewrite covered_app in Hi. unfold in_slice in *; simpl in *.
           destruct Hi as [[?|?]|?]; auto.
           unfold nonempty in *.
           destruct (Z_lt_le_dec i (stop ts)); [right|left; right; left]; lia.
        -- intros Hi. apply Hcov. rewrite covered_app, covered_cons in Hi.
           rewrite covered_app. unfold in_slice in *; simpl in *.
           unfold nonempty in *.
           destruct Hi as [[?|[?|?]]|?]; auto; right; lia.
        -- rewrite Hsum, !sum_len_app. simpl. unfold slice_len; simpl. lia.
        -- intros i. rewrite Hcnt, !cnt_app, cnt_cons.
           rewrite (cnt1_join i ts p) by (assumption || lia). lia.
    + (* nothing to merge *)
      assert (Hsep : forall t, In t L -> separated t ts).
      { intros t Ht.
        pose proof (find_none _ _ Eprev t Ht) as H1.
        pose proof (find_none _ _ Enext t Ht) as H2.
        simpl in H1, H2. apply Z.eqb_neq in H1, H2.
        specialize (Hdis t Ht). unfold disjoint, separated in *. lia. }
      exists (L ++ [ts]). split; [|split; [|split; [intros i; split|split]]].
      * f_equal. apply add_slice_of_ranges.
        intros t Ht. specialize (Hsep t Ht).
        assert (nonempty t) by (apply (wf_ranges_nonempty _ _ Hwf); auto).
        unfold separated, nonempty in *. lia.
      * apply wf_ranges_snoc; auto.
      * rewrite covered_app, covered_cons. intros [?|[?|?]]; auto.
        exfalso; eapply covered_nil; eauto.
      * rewrite covered_app, covered_cons. intros [?|?]; auto.
      * rewrite sum_len_app; simpl; lia.
      * intros i. rewrite cnt_app, cnt_cons, cnt_nil. lia.
Qed.

(** Inserting a non-empty range that overlaps no stored range succeeds,
    keeps the merger well formed, and adds exactly its indices. *)
Lemma merge_slices_spec (L : list slice) (ts : slice) :
  wf_ranges L -> nonempty ts ->
  (forall r, In r L -> disjoint ts r) ->
  exists L',
    merge_slices (of_ranges L) ts = Ok (of_ranges L') /\
    wf_ranges L' /\
    (forall i, covered i L' <-> covered i L \/ in_slice i ts) /\
    sum_len L' = sum_len L + slice_len ts /\
    (forall i, cnt i L' = (cnt i L + cnt1 i ts)%nat).
Proof.
  intros. unfold merge_slices. apply merge_slices_rec_spec; auto.
  simpl. rewrite length_index_by. lia.
Qed.

Lemma disjoint_of_no_common_index (s t : slice) :
  nonempty s -> nonempty t ->
  (forall i, in_slice i s -> in_slice i t -> False) ->
  disjoint s t.
Proof.
  unfold nonempty, in_slice, disjoint. intros Hs Ht Hno.
  destruct (Z_le_dec (stop s) (start t)); [auto|].
  destruct (Z_le_dec (stop t) (start s)); [auto|].
  exfalso. apply (Hno (Z.max (start s) (start t))); lia.
Qed.

Lemma merge_all_spec (rs : list slice) :
  forall L,
    wf_ranges L -> Forall nonempty rs -> pairwise disjoint rs ->
    (forall r i, In r rs -> in_slice i r -> ~ covered i L) ->
    exists L',
      merge_all (of_ranges L) rs = Ok (of_ranges L') /\
      wf_ranges L' /\
      (forall i, covered i L' <-> covered i L \/ covered i rs) /\
      sum_len L' = sum_len L + sum_len rs.
Proof.
  induction rs as [|r rs IH]; intros L Hwf Hne Hpw Hfresh.
  - exists L. simpl. split; [reflexivity|]. split; [assumption|].
    split; [|lia]. intros i. split; [auto|].
    intros [?|?]; [assumption|]. exfalso; eapply covered_nil; eauto.
  - inversion Hne as [|? ? Hr Hne']; subst.
    destruct Hpw as [Hr_rs Hpw].
    destruct (merge_slices_spec L r Hwf Hr) as (L1 & E1 & Hwf1 & Hcov1 & Hsum1 & _).
    { intros q Hq. apply disjoint_of_no_common_index; auto.
      - apply (wf_ranges_nonempty _ _ Hwf); auto.
      - intros i Hi Hiq. apply (Hfresh r i); simpl; auto.
        exists q; auto. }
    destruct (IH L1 Hwf1 Hne' Hpw) as (L' & E' & Hwf' & Hcov' & Hsum').
    { intros q i Hq Hi Hc. apply Hcov1 in Hc. destruct Hc as [Hc|Hc].
      - apply (Hfresh q i); simpl; auto.
      - rewrite Forall_forall in Hr_rs. specialize (Hr_rs q Hq).
        unfold disjoint, in_slice in *. lia. }
    exists L'. simpl. rewrite E1. split; [exact E'|]. split; [exact Hwf'|].
    split.
    + intros i. rewrite Hcov', Hcov1, covered_cons. tauto.
    + lia.
Qed.

(** ** Sorting the ranges by start *)

Lemma insert_by_start_perm (s : slice) (L : list slice) :
  Permutation (insert_by_start s L) (s :: L).
Proof.
  induction L as [|t L IH]; simpl; [reflexivity|].
  destruct (start s <=? start t); [reflexivity|].
  rewrite IH. apply perm_swap.
Qed.

Lemma sort_by_start_perm (L : list slice) : Permutation (sort_by_start L) L.
Proof.
  induction L as [|s L IH]; simpl; [reflexivity|].
  rewrite insert_by_start_perm. now constructor.
Qed.

Lemma insert_by_start_sorted (s : slice) (L : list slice) :
  StronglySorted le_start L -> StronglySorted le_start (insert_by_start s L).
Proof.
  induction 1 as [|t L HL IH Ht]; simpl.
  - repeat constructor.
  - destruct (Z.leb_spec (start s) (start t)).
    + constructor; [constructor; assumption|].
      constructor; [assumption|].
      rewrite Forall_forall in *. intros u Hu. specialize (Ht u Hu).
      unfold le_start in *. lia.
    + constructor; [assumption|].
      rewrite Forall_forall in *. intros u Hu.
      apply (Permutation_in _ (insert_by_start_perm s L)) in Hu.
      destruct Hu as [<-|Hu]; [unfold le_start; lia | auto].
Qed.

Lemma sort_by_start_sorted (L : list slice) :
  StronglySorted le_start (sort_by_start L).
Proof.
  induction L; simpl; [constructor | now apply insert_by_start_sorted].
Qed.

Lemma pairwise_perm {A : Type} (R : A -> A -> Prop) (l l' : list A) :
  (forall a b, R a b -> R b a) ->
  Permutation l l' -> pairwise R l -> pairwise R l'.
Proof.
  intros Hsym. induction 1 as [|x l l' Hp IH|x y l|l l' l'' _ IH1 _ IH2]; simpl.
  - auto.
  - intros [Hall Hpw]. split; [|auto].
    eapply Permutation_Forall; eauto.
  - intros [Hall [Hall' Hpw]]. inversion Hall as [|? ? Hyx Hall'']; subst.
    repeat split; auto.
  - auto.
Qed.

Lemma wf_ranges_perm (L L' : list slice) :
  Permutation L L' -> wf_ranges L -> wf_ranges L'.
Proof.
  intros Hp [Hne Hpw]. split.
  - eapply Permutation_Forall; eauto.
  - eapply pairwise_perm; eauto. exact separated_sym.
Qed.

Lemma covered_perm (i : Z) (L L' : list slice) :
  Permutation L L' -> covered i L -> covered i L'.
Proof.
  intros Hp (s & Hs & Hi). exists s. split; [|assumption].
  eapply Permutation_in; eauto.
Qed.

(** ** The indices of a slice and of a sorted range list *)

Lemma In_slice_indices (i : Z) (s : slice) :
  In i (slice_indices s) <-> in_slice i s.
Proof.
  unfold slice_indices, in_slice, slice_len. rewrite in_map_iff. split.
  - intros (k & <- & Hk). apply in_seq in Hk. lia.
  - intros Hi. exists (Z.to_nat (i - start s)). split; [lia|].
    apply in_seq. lia.
Qed.

Lemma StronglySorted_offsets (a : Z) (n b : nat) :
  StronglySorted Z.lt (map (fun k => a + Z.of_nat k) (seq b n)).
Proof.
  revert b. induction n as [|n IH]; intros b; simpl; constructor.
  - apply IH.
  - rewrite Forall_forall. intros x Hx. apply in_map_iff in Hx.
    destruct Hx as (k & <- & Hk). apply in_seq in Hk. lia.
Qed.

Lemma StronglySorted_app_lt (l1 l2 : list Z) :
  StronglySorted Z.lt l1 -> StronglySorted Z.lt l2 ->
  (forall x y, In x l1 -> In y l2 -> x < y) ->
  StronglySorted Z.lt (l1 ++ l2).
Proof.
  induction 1 as [|a l1 H1 IH Ha]; simpl; intros H2 Hlt; [assumption|].
  constructor.
  - apply IH; auto.
  - apply Forall_app. split; [assumption|].
    rewrite Forall_forall. intros y Hy. apply Hlt; auto.
Qed.

Lemma In_flat_indices (i : Z) (L : list slice) :
  In i (flat_map slice_indices L) <-> covered i L.
Proof.
  rewrite in_flat_map. unfold covered.
  split; intros (s & Hs & Hi); exists s; split; auto;
    now apply In_slice_indices.
Qed.

Lemma flat_indices_sorted (L : list slice) :
  StronglySorted le_start L -> wf_ranges L ->
  StronglySorted Z.lt (flat_map slice_indices L).
Proof.
  induction 1 as [|s L HL IH Hs]; intros [Hne Hpw]; simpl; [constructor|].
  inversion Hne as [|? ? Hs_ne Hne']; subst. destruct Hpw as [Hsep Hpw].
  apply StronglySorted_app_lt.
  - apply StronglySorted_offsets.
  - apply IH. split; assumption.
  - intros x y Hx Hy. apply In_slice_indices in Hx.
    apply In_flat_indices in Hy. destruct Hy as (t & Ht & Hy).
    rewrite Forall_forall in Hs, Hsep, Hne'.
    specialize (Hs t Ht). specialize (Hsep t Ht). specialize (Hne' t Ht).
    unfold le_start, separated, nonempty, in_slice in *. lia.
Qed.

Lemma sorted_indices_of_ranges (L : list slice) :
  wf_ranges L ->
  StronglySorted Z.lt (sorted_indices (of_ranges L)) /\
  (forall i, In i (sorted_indices (of_ranges L)) <-> covered i L).
Proof.
  intros Hwf. unfold sorted_indices. rewrite ranges_of_ranges. split.
  - apply flat_indices_sorted; [apply sort_by_start_sorted|].
    eapply wf_ranges_perm; [|exact Hwf].
    symmetry. apply sort_by_start_perm.
  - intros i. rewrite In_flat_indices. split; apply covered_perm.
    + apply sort_by_start_perm.
    + symmetry. apply sort_by_start_perm.
Qed.

(** C1: merge correctness.  For every sequence of non-empty, pairwise
    non-overlapping ranges inserted one after the other into an empty
    merger, every [merge_slices] call returns, and in the final merger the
    ranges, sorted by start and concatenated, are the strictly increasing
    list of exactly the inserted indices; no stored range ends where
    another starts; both maps hold the same ranges. *)
Theorem merge_slices_correct (rs : list slice) :
  Forall nonempty rs -> pairwise disjoint rs ->
  exists m,
    merge_all SliceMerger_init rs = Ok m /\
    StronglySorted Z.lt (sorted_indices m) /\
    (forall i, In i (sorted_indices m) <->
               exists r, In r rs /\ start r <= i < stop r) /\
    (forall s t, In s (ranges m) -> In t (ranges m) -> stop s <> start t) /\
    dict_values (slice_stops m) = ranges m.
Proof.
  intros Hne Hpw.
  destruct (merge_all_spec rs [] wf_ranges_nil Hne Hpw)
    as (L & E & Hwf & Hcov & _).
  { intros r i _ _ Hc. eapply covered_nil; eauto. }
  exists (of_ranges L). split; [exact E|].
  destruct (sorted_indices_of_ranges L Hwf) as [Hs Hin].
  split; [exact Hs|]. split; [|split].
  - intros i. rewrite Hin, Hcov. split.
    + intros [Hc|Hc]; [exfalso; eapply covered_nil; eauto | exact Hc].
    + intros Hc. right. exact Hc.
  - rewrite ranges_of_ranges. intros s t Hs' Ht'.
    destruct (wf_ranges_In L s t Hwf Hs' Ht') as [->|Hsep].
    + pose proof (wf_ranges_nonempty _ _ Hwf Ht'). unfold nonempty in *. lia.
    + pose proof (wf_ranges_nonempty _ _ Hwf Hs').
      pose proof (wf_ranges_nonempty _ _ Hwf Ht').
      unfold separated, nonempty in *. lia.
  - rewrite ranges_of_ranges. apply dict_values_index_by.
Qed.

(** Scenario A: [0,3) then [3,5) leaves the single range [0,5), total 5. *)
Lemma merge_slices_correct_scenario_A :
  merge_all SliceMerger_init [mk_slice 0 3; mk_slice 3 5]
  = Ok (of_ranges [mk_slice 0 5]) /\
  exists m,
    merge_all SliceMerger_init [mk_slice 0 3; mk_slice 3 5] = Ok m /\
    StronglySorted Z.lt (sorted_indices m) /\
    (forall i, In i (sorted_indices m) <->
               exists r, In r [mk_slice 0 3; mk_slice 3 5] /\
                         start r <= i < stop r) /\
    (forall s t, In s (ranges m) -> In t (ranges m) -> stop s <> start t) /\
    dict_values (slice_stops m) = ranges m.
Proof.
  split; [reflexivity|].
  apply (merge_slices_correct [mk_slice 0 3; mk_slice 3 5]).
  - repeat constructor; unfold nonempty; simpl; lia.
  - simpl. repeat split; auto.
    constructor; [|constructor]. unfold disjoint; simpl; lia.
Defined.

(** ** Extraction *)

Lemma SInv_of_ranges (L : list slice) : wf_ranges L -> SInv (of_ranges L).
Proof. intros Hwf. unfold SInv. rewrite ranges_of_ranges. auto. Qed.

Lemma SInv_elim (m : SliceMerger) :
  SInv m -> exists L, m = of_ranges L /\ wf_ranges L /\ ranges m = L.
Proof. intros [E Hwf]. exists (ranges m). auto. Qed.

Lemma slice_eta (s : slice) : mk_slice (start s) (stop s) = s.
Proof. destruct s; reflexivity. Qed.

Lemma wf_ranges_remainder (L1 L2 : list slice) (p : slice) (n : Z) :
  wf_ranges (L1 ++ p :: L2) -> 0 <= n ->
  wf_ranges ((L1 ++ L2) ++ remainder_of p n).
Proof.
  intros Hwf Hn. destruct (wf_ranges_split _ _ _ Hwf) as (Hwf' & Hp & Hsep).
  unfold remainder_of. destruct (Z.gtb_spec (slice_len p) n) as [Hlt|Hge].
  - apply wf_ranges_snoc; auto.
    + unfold nonempty, slice_len in *; simpl; lia.
    + intros t Ht. specialize (Hsep t Ht).
      pose proof (wf_ranges_nonempty _ _ Hwf' Ht).
      unfold separated, nonempty, slice_len in *; simpl; lia.
  - rewrite app_nil_r. exact Hwf'.
Qed.

Lemma extract_at_most_of_ranges (L1 L2 : list slice) (p : slice) (n : Z) :
  wf_ranges (L1 ++ p :: L2) -> 0 <= n ->
  _extract_at_most (of_ranges (L1 ++ p :: L2)) p n
  = Ok (prefix_of p n, of_ranges ((L1 ++ L2) ++ remainder_of p n)).
Proof.
  intros Hwf Hn. unfold _extract_at_most.
  rewrite del_slice_of_ranges by assumption.
  destruct (wf_ranges_split _ _ _ Hwf) as (Hwf' & Hp & Hsep).
  unfold prefix_of, remainder_of.
  destruct (Z.gtb_spec (slice_len p) n) as [Hlt|Hge].
  - rewrite add_slice_of_ranges; [reflexivity|].
    intros t Ht. specialize (Hsep t Ht).
    pose proof (wf_ranges_nonempty _ _ Hwf' Ht).
    unfold separated, nonempty, slice_len in *; simpl; lia.
  - rewrite app_nil_r. reflexivity.
Qed.

Lemma sum_len_remainder (p : slice) (n : Z) :
  slice_len (prefix_of p n) + sum_len (remainder_of p n) = slice_len p.
Proof.
  unfold prefix_of, remainder_of.
  destruct (slice_len p >? n); simpl; unfold slice_len; simpl; lia.
Qed.

Lemma get_at_most_of_ranges (L : list slice) (n : Z) :
  wf_ranges L -> 0 <= n ->
  get_at_most (of_ranges L) n =
  match L with
  | [] => Ok (None, of_ranges L)
  | p :: rest => Ok (Some (prefix_of p n), of_ranges (rest ++ remainder_of p n))
  end.
Proof.
  intros Hwf Hn. unfold get_at_most.
  change (dict_values (slice_starts (of_ranges L))) with (ranges (of_ranges L)).
  rewrite ranges_of_ranges. destruct L as [|p rest]; [reflexivity|].
  pose proof (extract_at_most_of_ranges [] rest p n Hwf Hn) as E.
  simpl in E. rewrite E. reflexivity.
Qed.

Lemma find_split {A : Type} (f : A -> bool) (l : list A) (x : A) :
  find f l = Some x ->
  exists l1 l2, l = l1 ++ x :: l2 /\ f x = true /\ Forall (fun y => f y = false) l1.
Proof.
  induction l as [|a l IH]; simpl; [discriminate|].
  destruct (f a) eqn:Ea.
  - intros [= ->]. exists [], l. auto.
  - intros Hf. destruct (IH Hf) as (l1 & l2 & -> & Hx & Hall).
    exists (a :: l1), l2. auto.
Qed.

Lemma get_exactly_of_ranges (L : list slice) (n : Z) :
  wf_ranges L -> 0 <= n ->
  (Forall (fun s => slice_len s < n) L /\
   get_exactly (of_ranges L) n = Ok (None, of_ranges L)) \/
  (exists L1 p L2,
      L = L1 ++ p :: L2 /\
      Forall (fun s => slice_len s < n) L1 /\ n <= slice_len p /\
      get_exactly (of_ranges L) n
      = Ok (Some (prefix_of p n), of_ranges ((L1 ++ L2) ++ remainder_of p n))).
Proof.
  intros Hwf Hn. unfold get_exactly.
  change (dict_values (slice_starts (of_ranges L))) with (ranges (of_ranges L)).
  rewrite ranges_of_ranges.
  destruct (find (fun s => slice_len s >=? n) L) as [p|] eqn:Ef.
  - right. apply find_split in Ef. destruct Ef as (L1 & L2 & -> & Hp & Hall).
    exists L1, p, L2. split; [reflexivity|]. split; [|split].
    + eapply Forall_impl; [|exact Hall]. simpl. intros s Hs. lia.
    + lia.
    + rewrite extract_at_most_of_ranges by assumption. reflexivity.
  - left. split; [|reflexivity]. rewrite Forall_forall. intros s Hs.
    pose proof (find_none _ _ Ef s Hs) as Hx. simpl in Hx. lia.
Qed.

(** ** Reachable mergers are well formed *)

Lemma merger_reachable_SInv (m : SliceMerger) : merger_reachable m -> SInv m.
Proof.
  induction 1 as [|m s m' _ IH Hs Hdis E|m n r m' _ IH Hn E|m n r m' _ IH Hn E].
  - apply (SInv_of_ranges []). apply wf_ranges_nil.
  - destruct (SInv_elim m IH) as (L & -> & Hwf & HL). rewrite HL in Hdis.
    destruct (merge_slices_spec L s Hwf Hs Hdis) as (L' & E' & Hwf' & _).
    rewrite E' in E. injection E as <-. now apply SInv_of_ranges.
  - destruct (SInv_elim m IH) as (L & -> & Hwf & HL).
    rewrite get_at_most_of_ranges in E by assumption.
    destruct L as [|p rest]; injection E as <- <-.
    + now apply SInv_of_ranges.
    + apply SInv_of_ranges. apply (wf_ranges_remainder [] rest p n Hwf Hn).
  - destruct (SInv_elim m IH) as (L & -> & Hwf & HL).
    destruct (get_exactly_of_ranges L n Hwf Hn)
      as [[_ E']|(L1 & p & L2 & -> & _ & _ & E')];
      rewrite E' in E; injection E as <- <-.
    + now apply SInv_of_ranges.
    + apply SInv_of_ranges. now apply wf_ranges_remainder.
Qed.

(** No operation fails on a reachable merger. *)
Lemma merger_reachable_progress (m : SliceMerger) :
  merger_reachable m ->
  (forall s, nonempty s -> (forall r, In r (ranges m) -> disjoint s r) ->
             exists m', merge_slices m s = Ok m') /\
  (forall n, 0 <= n -> exists r m', get_at_most m n = Ok (r, m')) /\
  (forall n, 0 <= n -> exists r m', get_exactly m n = Ok (r, m')).
Proof.
  intros Hr. apply merger_reachable_SInv in Hr.
  destruct (SInv_elim m Hr) as (L & -> & Hwf & HL). rewrite HL.
  split; [|split].
  - intros s Hs Hdis.
    destruct (merge_slices_spec L s Hwf Hs Hdis) as (L' & E' & _). eauto.
  - intros n Hn. rewrite get_at_most_of_ranges by assumption.
    destruct L; eauto.
  - intros n Hn.
    destruct (get_exactly_of_ranges L n Hwf Hn)
      as [[_ E']|(L1 & p & L2 & _ & _ & _ & E')]; rewrite E'; eauto.
Qed.

Lemma sum_len_perm (L L' : list slice) :
  Permutation L L' -> sum_len L = sum_len L'.
Proof. induction 1; simpl; lia. Qed.

Lemma length_flat_indices (L : list slice) :
  Forall nonempty L ->
  Z.of_nat (List.length (flat_map slice_indices L)) = sum_len L.
Proof.
  induction 1 as [|s L Hs _ IH]; simpl; [reflexivity|].
  rewrite length_app, Nat2Z.inj_add, IH. unfold slice_indices.
  rewrite length_map, length_seq. unfold nonempty, slice_len in *. lia.
Qed.

(** C2: conservation.  In every merger reachable from the empty one by
    non-overlapping insertions and by extractions, the incrementally
    maintained [total_num] equals the recount over the ranges stored in
    either map, and the number of indices the merger contains. *)
Theorem total_num_conserved (m : SliceMerger) :
  merger_reachable m ->
  total_num m = sum_len (dict_values (slice_starts m)) /\
  total_num m = sum_len (dict_values (slice_stops m)) /\
  total_num m = Z.of_nat (List.length (sorted_indices m)).
Proof.
  intros Hr. apply merger_reachable_SInv in Hr.
  destruct (SInv_elim m Hr) as (L & -> & Hwf & HL).
  simpl. rewrite !dict_values_index_by. split; [reflexivity|].
  split; [reflexivity|].
  unfold sorted_indices. rewrite ranges_of_ranges.
  rewrite length_flat_indices.
  - apply sum_len_perm. symmetry. apply sort_by_start_perm.
  - eapply Permutation_Forall; [|apply Hwf].
    symmetry. apply sort_by_start_perm.
Qed.

(** A reachable merger: insert [0,3) and [3,5), extract at most 2 slots,
    insert [9,12), extract exactly 3. *)
Lemma total_num_conserved_example :
  total_num (of_ranges [mk_slice 9 12]) = 3 /\
  (total_num (of_ranges [mk_slice 9 12])
   = sum_len (dict_values (slice_starts (of_ranges [mk_slice 9 12]))) /\
   total_num (of_ranges [mk_slice 9 12])
   = sum_len (dict_values (slice_stops (of_ranges [mk_slice 9 12]))) /\
   total_num (of_ranges [mk_slice 9 12])
   = Z.of_nat (List.length (sorted_indices (of_ranges [mk_slice 9 12])))).
Proof.
  split; [reflexivity|].
  apply (total_num_conserved (of_ranges [mk_slice 9 12])).
  apply (reach_get_exactly (of_ranges [mk_slice 2 5; mk_slice 9 12]) 3
           (Some (mk_slice 2 5))); [|lia|reflexivity].
  apply (reach_merge (of_ranges [mk_slice 2 5]) (mk_slice 9 12)).
  - apply (reach_get_at_most (of_ranges [mk_slice 0 5]) 2
             (Some (mk_slice 0 2))); [|lia|reflexivity].
    apply (reach_merge (of_ranges [mk_slice 0 3]) (mk_slice 3 5)).
    + apply (reach_merge SliceMerger_init (mk_slice 0 3)).
      * exact reach_init.
      * unfold nonempty; simpl; lia.
      * intros r [].
      * reflexivity.
    + unfold nonempty; simpl; lia.
    + intros r [<-|[]]. unfold disjoint; simpl; lia.
    + reflexivity.
  - unfold nonempty; simpl; lia.
  - intros r [<-|[]]. unfold disjoint; simpl; lia.
  - reflexivity.
Defined.

Lemma prefix_of_min (p : slice) (n : Z) :
  prefix_of p n = mk_slice (start p) (start p + Z.min n (slice_len p)).
Proof.
  unfold prefix_of. destruct (Z.gtb_spec (slice_len p) n).
  - rewrite Z.min_l by lia. reflexivity.
  - rewrite Z.min_r by lia. unfold slice_len.
    replace (start p + (stop p - start p)) with (stop p) by lia.
    symmetry. apply slice_eta.
Qed.

Lemma remainder_of_ltb (p : slice) (n : Z) :
  remainder_of p n
  = if n <? slice_len p then [mk_slice (start p + n) (stop p)] else [].
Proof.
  unfold remainder_of. rewrite Z.gtb_ltb. reflexivity.
Qed.

Lemma stops_of_ranges (L : list slice) :
  dict_values (slice_stops (of_ranges L)) = L.
Proof. apply dict_values_index_by. Qed.

Lemma starts_of_ranges (L : list slice) :
  dict_values (slice_starts (of_ranges L)) = L.
Proof. apply dict_values_index_by. Qed.

(** C5, as the code has it: [get_exactly] scans the ranges in the
    insertion order of [slice_starts] and stops at the first one that holds
    at least [n] slots; it returns the [n]-slot prefix of that single
    range, removes the range and, when slots are left over, appends the
    remainder [start+n, stop) as a new range; when every range is shorter
    than [n] it returns [None] and changes nothing. *)
Theorem get_exactly_insertion_order (m : SliceMerger) (n : Z) :
  SInv m -> 1 <= n ->
  (Forall (fun s => slice_len s < n) (dict_values (slice_starts m)) /\
   get_exactly m n = Ok (None, m)) \/
  (exists L1 p L2 m',
      dict_values (slice_starts m) = L1 ++ p :: L2 /\
      Forall (fun s => slice_len s < n) L1 /\
      n <= slice_len p /\
      get_exactly m n = Ok (Some (mk_slice (start p) (start p + n)), m') /\
      dict_values (slice_starts m')
      = L1 ++ L2 ++
        (if n <? slice_len p then [mk_slice (start p + n) (stop p)] else []) /\
      dict_values (slice_stops m') = dict_values (slice_starts m') /\
      total_num m' = total_num m - n /\
      SInv m').
Proof.
  intros Hinv Hn. destruct (SInv_elim m Hinv) as (L & -> & Hwf & _).
  rewrite starts_of_ranges.
  destruct (get_exactly_of_ranges L n Hwf ltac:(lia))
    as [[Hall E]|(L1 & p & L2 & -> & Hall & Hp & E)]; [left; auto|right].
  exists L1, p, L2, (of_ranges ((L1 ++ L2) ++ remainder_of p n)).
  split; [reflexivity|]. split; [assumption|]. split; [assumption|].
  split; [|split; [|split; [|split]]].
  - rewrite E, prefix_of_min, Z.min_l by lia. reflexivity.
  - rewrite starts_of_ranges, remainder_of_ltb, app_assoc. reflexivity.
  - rewrite starts_of_ranges, stops_of_ranges. reflexivity.
  - simpl. rewrite !sum_len_app. simpl.
    pose proof (sum_len_remainder p n) as Hs.
    rewrite prefix_of_min, Z.min_l in Hs by lia.
    unfold slice_len in Hs at 1; simpl in Hs. lia.
  - apply SInv_of_ranges. apply wf_ranges_remainder; [assumption|lia].
Qed.

Lemma wf_ranges_scenario_C : wf_ranges [mk_slice 0 2; mk_slice 5 9].
Proof.
  split.
  - repeat constructor; unfold nonempty; simpl; lia.
  - simpl. repeat split; auto. constructor; [|constructor].
    unfold separated; simpl; lia.
Defined.

(** Scenario C: [get_exactly 3] on {[0,2), [5,9)} returns [5,8) and leaves
    [0,2) and [8,9). *)
Lemma get_exactly_scenario_C :
  get_exactly (of_ranges [mk_slice 0 2; mk_slice 5 9]) 3
  = Ok (Some (mk_slice 5 8), of_ranges [mk_slice 0 2; mk_slice 8 9]) /\
  ((Forall (fun s => slice_len s < 3)
      (dict_values (slice_starts (of_ranges [mk_slice 0 2; mk_slice 5 9]))) /\
    get_exactly (of_ranges [mk_slice 0 2; mk_slice 5 9]) 3
    = Ok (None, of_ranges [mk_slice 0 2; mk_slice 5 9])) \/
   (exists L1 p L2 m',
      dict_values (slice_starts (of_ranges [mk_slice 0 2; mk_slice 5 9]))
      = L1 ++ p :: L2 /\
      Forall (fun s => slice_len s < 3) L1 /\
      3 <= slice_len p /\
      get_exactly (of_ranges [mk_slice 0 2; mk_slice 5 9]) 3
      = Ok (Some (mk_slice (start p) (start p + 3)), m') /\
      dict_values (slice_starts m')
      = L1 ++ L2 ++
        (if 3 <? slice_len p then [mk_slice (start p + 3) (stop p)] else []) /\
      dict_values (slice_stops m') = dict_values (slice_starts m') /\
      total_num m' = total_num (of_ranges [mk_slice 0 2; mk_slice 5 9]) - 3 /\
      SInv m')).
Proof.
  split; [reflexivity|].
  apply (get_exactly_insertion_order (of_ranges [mk_slice 0 2; mk_slice 5 9]) 3).
  - apply SInv_of_ranges. exact wf_ranges_scenario_C.
  - lia.
Defined.

(** The scan is not in start order: after inserting [5,9) and then [0,3),
    the first range in start order that holds 3 slots is [0,3), and
    [get_exactly 3] returns [5,8), a prefix of [5,9). *)
Lemma get_exactly_not_in_start_order :
  merge_all SliceMerger_init [mk_slice 5 9; mk_slice 0 3]
  = Ok (of_ranges [mk_slice 5 9; mk_slice 0 3]) /\
  first_fit_in_start_order (of_ranges [mk_slice 5 9; mk_slice 0 3]) 3
  = Some (mk_slice 0 3) /\
  get_exactly (of_ranges [mk_slice 5 9; mk_slice 0 3]) 3
  = Ok (Some (mk_slice 5 8), of_ranges [mk_slice 0 3; mk_slice 8 9]) /\
  mk_slice 5 8 <> prefix_of (mk_slice 0 3) 3.
Proof.
  repeat split; try reflexivity. discriminate.
Qed.

(** C6, as the code has it: [get_at_most] takes the first range in the
    insertion order of [slice_starts], returns its prefix of at most [n]
    slots and removes the range; when the range is longer than [n], the
    remainder [start+n, stop) is appended as a new range, with no merge
    attempted; the result is [None] exactly when no range is stored. *)
Theorem get_at_most_insertion_order (m : SliceMerger) (n : Z) :
  SInv m -> 1 <= n ->
  match dict_values (slice_starts m) with
  | [] => get_at_most m n = Ok (None, m)
  | p :: rest =>
      exists m',
        get_at_most m n
        = Ok (Some (mk_slice (start p) (start p + Z.min n (slice_len p))), m') /\
        dict_values (slice_starts m')
        = rest ++
          (if n <? slice_len p then [mk_slice (start p + n) (stop p)] else []) /\
        dict_values (slice_stops m') = dict_values (slice_starts m') /\
        total_num m' = total_num m - Z.min n (slice_len p) /\
        SInv m'
  end.
Proof.
  intros Hinv Hn. destruct (SInv_elim m Hinv) as (L & -> & Hwf & _).
  rewrite starts_of_ranges, get_at_most_of_ranges by (assumption || lia).
  destruct L as [|p rest]; [reflexivity|].
  exists (of_ranges (rest ++ remainder_of p n)).
  split; [|split; [|split; [|split]]].
  - rewrite prefix_of_min. reflexivity.
  - rewrite starts_of_ranges, remainder_of_ltb. reflexivity.
  - rewrite starts_of_ranges, stops_of_ranges. reflexivity.
  - simpl. rewrite sum_len_app.
    pose proof (sum_len_remainder p n) as Hs.
    rewrite prefix_of_min in Hs. unfold slice_len in Hs at 1; simpl in Hs.
    lia.
  - apply SInv_of_ranges.
    apply (wf_ranges_remainder [] rest p n Hwf). lia.
Qed.

Lemma wf_ranges_scenario_B : wf_ranges [mk_slice 0 5].
Proof.
  split.
  - repeat constructor; unfold nonempty; simpl; lia.
  - simpl. auto.
Defined.

(** Scenario B's extraction: [get_at_most 4] on {[0,5)} yields [0,4) and
    leaves [4,5). *)
Lemma get_at_most_scenario_B :
  get_at_most (of_ranges [mk_slice 0 5]) 4
  = Ok (Some (mk_slice 0 4), of_ranges [mk_slice 4 5]) /\
  match dict_values (slice_starts (of_ranges [mk_slice 0 5])) with
  | [] => get_at_most (of_ranges [mk_slice 0 5]) 4
          = Ok (None, of_ranges [mk_slice 0 5])
  | p :: rest =>
      exists m',
        get_at_most (of_ranges [mk_slice 0 5]) 4
        = Ok (Some (mk_slice (start p) (start p + Z.min 4 (slice_len p))), m') /\
        dict_values (slice_starts m')
        = rest ++
          (if 4 <? slice_len p then [mk_slice (start p + 4) (stop p)] else []) /\
        dict_values (slice_stops m') = dict_values (slice_starts m') /\
        total_num m' = total_num (of_ranges [mk_slice 0 5]) - Z.min 4 (slice_len p) /\
        SInv m'
  end.
Proof.
  split; [reflexivity|].
  apply (get_at_most_insertion_order (of_ranges [mk_slice 0 5]) 4).
  - apply SInv_of_ranges. exact wf_ranges_scenario_B.
  - lia.
Defined.

(** The choice is not by start: after inserting [5,9) and then [0,2), the
    first range in start order is [0,2), and [get_at_most 3] returns
    [5,8), a prefix of [5,9). *)
Lemma get_at_most_not_in_start_order :
  merge_all SliceMerger_init [mk_slice 5 9; mk_slice 0 2]
  = Ok (of_ranges [mk_slice 5 9; mk_slice 0 2]) /\
  first_in_start_order (of_ranges [mk_slice 5 9; mk_slice 0 2])
  = Some (mk_slice 0 2) /\
  get_at_most (of_ranges [mk_slice 5 9; mk_slice 0 2]) 3
  = Ok (Some (mk_slice 5 8), of_ranges [mk_slice 0 2; mk_slice 8 9]) /\
  mk_slice 5 8 <> prefix_of (mk_slice 0 2) 3.
Proof.
  repeat split; try reflexivity. discriminate.
Qed.


(* ================================================================== *)
(** * Properties of batch assembly *)

(** ** Dictionaries *)

Section DictFacts.
Context {K V : Type} `{Key K}.

Lemma key_eqb_refl (k : K) : key_eqb k k = true.
Proof. destruct (key_eqb_spec k k); congruence. Qed.

Lemma key_eqb_neq (k k' : K) : k <> k' -> key_eqb k k' = false.
Proof. destruct (key_eqb_spec k k'); congruence. Qed.

Lemma dict_get_set (d : dict K V) (k k' : K) (v : V) :
  dict_get (dict_set d k v) k'
  = if key_eqb k k' then Some v else dict_get d k'.
Proof.
  induction d as [|[a w] d IH]; simpl.
  - reflexivity.
  - destruct (key_eqb_spec a k) as [->|Hak]; simpl.
    + destruct (key_eqb k k'); reflexivity.
    + rewrite IH. destruct (key_eqb_spec a k') as [->|Hak'].
      * rewrite key_eqb_neq by congruence. reflexivity.
      * reflexivity.
Qed.

Lemma dict_get_split (d : dict K V) (k : K) (v : V) :
  dict_get d k = Some v ->
  exists d1 d2, d = d1 ++ (k, v) :: d2 /\ ~ In k (dict_keys d1).
Proof.
  induction d as [|[a w] d IH]; simpl; [discriminate|].
  destruct (key_eqb_spec a k) as [->|Hak].
  - intros [= ->]. exists [], d. simpl. auto.
  - intros Hg. destruct (IH Hg) as (d1 & d2 & -> & Hn).
    exists ((a, w) :: d1), d2. split; [reflexivity|].
    simpl. intros [E|E]; auto.
Qed.

Lemma dict_get_app_fresh (d1 d2 : dict K V) (k : K) :
  ~ In k (dict_keys d1) -> dict_get (d1 ++ d2) k = dict_get d2 k.
Proof.
  induction d1 as [|[a w] d1 IH]; simpl; intros Hn; [reflexivity|].
  rewrite key_eqb_neq by tauto. apply IH. tauto.
Qed.

Lemma dict_set_split (d1 d2 : dict K V) (k : K) (v v' : V) :
  ~ In k (dict_keys d1) ->
  dict_set (d1 ++ (k, v) :: d2) k v' = d1 ++ (k, v') :: d2.
Proof.
  induction d1 as [|[a w] d1 IH]; simpl; intros Hn.
  - rewrite key_eqb_refl. reflexivity.
  - rewrite key_eqb_neq by tauto. rewrite IH by tauto. reflexivity.
Qed.

Lemma dict_get_In (d : dict K V) (k : K) :
  In k (dict_keys d) -> exists v, dict_get d k = Some v.
Proof.
  induction d as [|[a w] d IH]; simpl; [contradiction|].
  destruct (key_eqb_spec a k) as [->|Hak]; [eauto|].
  intros [E|Hin]; [contradiction|auto].
Qed.

Lemma dict_get_Some_In (d : dict K V) (k : K) (v : V) :
  dict_get d k = Some v -> In k (dict_keys d) /\ In v (dict_values d).
Proof.
  intros Hg. destruct (dict_get_split _ _ _ Hg) as (d1 & d2 & -> & _).
  unfold dict_keys, dict_values. rewrite !map_app, !in_app_iff. simpl. auto.
Qed.

Lemma dict_keys_app (d1 d2 : dict K V) :
  dict_keys (d1 ++ d2) = dict_keys d1 ++ dict_keys d2.
Proof. apply map_app. Qed.

Lemma dict_values_app (d1 d2 : dict K V) :
  dict_values (d1 ++ d2) = dict_values d1 ++ dict_values d2.
Proof. apply map_app. Qed.

Lemma dict_keys_set (d : dict K V) (k : K) (v v' : V) :
  dict_get d k = Some v -> dict_keys (dict_set d k v') = dict_keys d.
Proof.
  intros Hg. destruct (dict_get_split _ _ _ Hg) as (d1 & d2 & -> & Hn).
  rewrite dict_set_split by assumption. rewrite !dict_keys_app. reflexivity.
Qed.
End DictFacts.

(** ** Occurrence counts of located slices *)

Lemma occ_app (d : Device) (i : Z) (l1 l2 : list (Device * slice)) :
  occ d i (l1 ++ l2) = (occ d i l1 + occ d i l2)%nat.
Proof. unfold occ. rewrite filter_app, length_app. reflexivity. Qed.

Lemma occ_nil (d : Device) (i : Z) : occ d i [] = 0%nat.
Proof. reflexivity. Qed.

Lemma occ_cons (d : Device) (i : Z) (x : Device * slice)
    (l : list (Device * slice)) :
  occ d i (x :: l)
  = ((if String.eqb (fst x) d then cnt1 i (snd x) else 0) + occ d i l)%nat.
Proof.
  unfold occ, holds_slot, cnt1. simpl.
  destruct (String.eqb (fst x) d), (in_sliceb i (snd x)); reflexivity.
Qed.

Lemma occ_map_pair (d d' : Device) (i : Z) (L : list slice) :
  occ d i (map (pair d') L) = if String.eqb d' d then cnt i L else 0%nat.
Proof.
  induction L as [|s L IH]; simpl.
  - rewrite occ_nil. destruct (String.eqb d' d); reflexivity.
  - rewrite occ_cons, IH. simpl. destruct (String.eqb d' d); [|reflexivity].
    rewrite cnt_cons. reflexivity.
Qed.

Lemma located_app (T1 T2 : dict Device SliceMerger) :
  located (T1 ++ T2) = located T1 ++ located T2.
Proof. apply flat_map_app. Qed.

Lemma located_cons (d : Device) (m : SliceMerger) (T : dict Device SliceMerger) :
  located ((d, m) :: T) = map (pair d) (ranges m) ++ located T.
Proof. reflexivity. Qed.

Lemma occ_located_split (d : Device) (i : Z) (T1 T2 : dict Device SliceMerger)
    (d' : Device) (m : SliceMerger) :
  occ d i (located (T1 ++ (d', m) :: T2))
  = (occ d i (located T1) + (if String.eqb d' d then cnt i (ranges m) else 0)
     + occ d i (located T2))%nat.
Proof.
  rewrite located_app, located_cons, !occ_app, occ_map_pair. lia.
Qed.

Lemma sum_total_app (T1 T2 : dict Device SliceMerger) :
  sum_total (T1 ++ T2) = sum_total T1 + sum_total T2.
Proof. induction T1 as [|[d m] T1 IH]; simpl; lia. Qed.

Lemma total_num_trajectories_sum (T : dict Device SliceMerger) :
  total_num_trajectories T = sum_total T.
Proof.
  unfold total_num_trajectories.
  assert (G : forall acc, fold_left (fun total m => total + total_num m)
                            (dict_values T) acc = acc + sum_total T).
  { induction T as [|[d m] T IH]; simpl; intros acc; [lia|].
    unfold dict_values in IH. rewrite IH. lia. }
  rewrite G. lia.
Qed.

(** ** Records and buffers *)

Lemma length_slice_indices (s : slice) :
  List.length (slice_indices s) = Z.to_nat (slice_len s).
Proof. unfold slice_indices. rewrite length_map, length_seq. reflexivity. Qed.

Lemma length_read_records (d : Device) (s : slice) :
  List.length (read_records d s) = Z.to_nat (slice_len s).
Proof. unfold read_records. rewrite length_map. apply length_slice_indices. Qed.

Lemma records_of_app (l1 l2 : list (Device * slice)) :
  records_of (l1 ++ l2) = records_of l1 ++ records_of l2.
Proof. apply flat_map_app. Qed.

Lemma records_of_map_pair (d : Device) (xs : list slice) :
  records_of (map (pair d) xs) = flat_map (read_records d) xs.
Proof. induction xs as [|x xs IH]; simpl; [reflexivity|]. now rewrite <- IH. Qed.

Lemma length_records_of (l : list (Device * slice)) :
  Forall (fun x => nonempty (snd x)) l ->
  Z.of_nat (List.length (records_of l)) = sum_len (map snd l).
Proof.
  induction 1 as [|x l Hx _ IH]; simpl; [reflexivity|].
  rewrite length_app, Nat2Z.inj_add, IH, length_read_records.
  unfold nonempty, slice_len in *. lia.
Qed.

Lemma firstn_exact {A : Type} (l1 l2 : list A) (n : nat) :
  List.length l1 = n -> firstn n (l1 ++ l2) = l1.
Proof.
  intros <-. induction l1 as [|a l1 IH]; simpl.
  - reflexivity.
  - now rewrite IH.
Qed.

Lemma copy_range_ok (buf : list (option record)) (c : Z) (d : Device)
    (x : slice) :
  0 <= c -> 0 <= slice_len x ->
  c + slice_len x <= Z.of_nat (List.length buf) ->
  exists buf',
    copy_range buf c (read_records d x) = Ok buf' /\
    List.length buf' = List.length buf /\
    firstn (Z.to_nat (c + slice_len x)) buf'
    = firstn (Z.to_nat c) buf ++ map Some (read_records d x).
Proof.
  intros Hc Hx Hle. unfold copy_range. rewrite length_read_records.
  rewrite Z2Nat.id by assumption.
  replace (0 <=? c) with true by (symmetry; apply Z.leb_le; lia).
  replace (c + slice_len x <=? Z.of_nat (List.length buf)) with true
    by (symmetry; apply Z.leb_le; lia).
  simpl. eexists. split; [reflexivity|]. split.
  - rewrite !length_app, length_map, length_read_records, length_firstn,
      length_skipn. lia.
  - rewrite app_assoc. apply firstn_exact.
    rewrite length_app, length_map, length_read_records, length_firstn. lia.
Qed.

(** ** The inner copying loop *)

Lemma prefix_of_len (p : slice) (n : Z) :
  nonempty p -> 1 <= n ->
  1 <= slice_len (prefix_of p n) <= n /\
  slice_len (prefix_of p n) <= slice_len p.
Proof.
  unfold prefix_of, nonempty, slice_len. intros Hp Hn.
  destruct (Z.gtb_spec (stop p - start p) n); simpl; lia.
Qed.

Lemma copy_while_spec (B : Z) (d : Device) (fuel : nat) :
  forall (L : list slice) (buf : list (option record))
         (R : list (Device * slice)) (c : Z),
    wf_ranges L -> (List.length L < fuel)%nat -> 0 <= c <= B ->
    Z.of_nat (List.length buf) = B ->
    firstn (Z.to_nat c) buf = map Some (records_of R) ->
    exists L' xs buf' c',
      copy_while fuel B d (mk_copy (of_ranges L) (Ok buf) R c (B - c))
      = Ok (mk_copy (of_ranges L') (Ok buf') (R ++ map (pair d) xs)
              c' (B - c')) /\
      c' = c + sum_len xs /\
      wf_ranges L' /\ c' <= B /\ (c' = B \/ L' = []) /\
      (forall i, cnt i L = (cnt i L' + cnt i xs)%nat) /\
      sum_len L = sum_len L' + sum_len xs /\
      Forall nonempty xs /\
      List.length buf' = List.length buf /\
      firstn (Z.to_nat c') buf' = map Some (records_of (R ++ map (pair d) xs)).
Proof.
  induction fuel as [|fuel IH]; intros L buf R c Hwf Hfuel Hc Hlen Hbuf; [lia|].
  simpl. destruct (Z.gtb_spec (B - c) 0) as [Hrem|Hrem].
  - rewrite get_at_most_of_ranges by (assumption || lia).
    destruct L as [|p rest].
    + (* the device has nothing left *)
      exists [], [], buf, c. simpl. rewrite app_nil_r.
      repeat (split; [solve [auto | lia | constructor]|]). assumption.
    + assert (Hp : nonempty p) by (apply (wf_ranges_nonempty _ _ Hwf); simpl; auto).
      destruct (prefix_of_len p (B - c) Hp ltac:(lia)) as [Hx Hxp].
      remember (prefix_of p (B - c)) as x eqn:Ex.
      destruct (copy_range_ok buf c d x) as (buf1 & E1 & Hlen1 & Hfirst1);
        try lia.
      simpl. rewrite E1.
      assert (Hbuf1 : firstn (Z.to_nat (c + slice_len x)) buf1
                      = map Some (records_of (R ++ [(d, x)]))).
      { rewrite Hfirst1, Hbuf, records_of_app, map_app. simpl.
        rewrite app_nil_r. reflexivity. }
      assert (Hwf1 : wf_ranges (rest ++ remainder_of p (B - c))).
      { apply (wf_ranges_remainder [] rest p (B - c) Hwf). lia. }
      assert (Hcnt1 : forall i, cnt i (p :: rest)
                = (cnt i (rest ++ remainder_of p (B - c)) + cnt1 i x)%nat).
      { intros i. rewrite cnt_cons, cnt_app.
        rewrite (cnt_prefix_remainder i p (B - c)) by (assumption || lia).
        rewrite <- Ex. lia. }
      assert (Hsum1 : sum_len (p :: rest)
                = sum_len (rest ++ remainder_of p (B - c)) + slice_len x).
      { simpl. rewrite sum_len_app.
        pose proof (sum_len_remainder p (B - c)) as Hs.
        rewrite <- Ex in Hs. lia. }
      assert (Hxne : nonempty x) by (unfold nonempty, slice_len in *; lia).
      destruct (Z.eq_dec (c + slice_len x) B) as [Efull|Hmore].
      * (* the batch is full *)
        destruct fuel as [|fuel]; [simpl in Hfuel; lia|]. simpl.
        destruct (Z.gtb_spec (B - (c + slice_len x)) 0); [lia|].
        exists (rest ++ remainder_of p (B - c)), [x], buf1, (c + slice_len x).
        simpl. split; [reflexivity|]. split; [lia|]. split; [assumption|].
        split; [lia|]. split; [auto|]. split.
        { intros i. rewrite Hcnt1, cnt_cons, cnt_nil. lia. }
        simpl in Hsum1.
        split; [lia|]. split; [constructor; auto|]. split; [lia|].
        exact Hbuf1.
      * (* the whole range went in; keep going *)
        assert (Erem : remainder_of p (B - c) = []).
        { unfold remainder_of. unfold prefix_of in Ex.
          destruct (Z.gtb_spec (slice_len p) (B - c)); [|reflexivity].
          subst x. unfold slice_len in *; simpl in *. lia. }
        rewrite Erem, app_nil_r in *.
        destruct (IH rest buf1 (R ++ [(d, x)]) (c + slice_len x))
          as (L' & xs & buf' & c' & E & Hc' & Hwf' & Hle & Hdone & Hcnt & Hsum
              & Hne & Hlen' & Hfirst); try assumption; try lia.
        { simpl in Hfuel. lia. }
        exists L', (x :: xs), buf', c'.
        simpl. rewrite <- app_assoc in E, Hfirst. simpl in E, Hfirst.
        split; [exact E|]. split; [lia|]. split; [assumption|].
        split; [assumption|]. split; [assumption|]. split.
        { intros i. rewrite Hcnt1, Hcnt, cnt_cons. lia. }
        simpl in Hsum1.
        split; [lia|]. split; [constructor; auto|]. split; [lia|].
        exact Hfirst.
  - (* nothing remains to be copied *)
    exists L, [], buf, c. simpl. rewrite app_nil_r.
    assert (c = B) by lia.
    repeat (split; [solve [auto | lia | constructor]|]). assumption.
Qed.

(** ** The loop over the devices *)

Lemma existsb_eqb_In (d : Device) (l : list Device) :
  In d l -> existsb (String.eqb d) l = true.
Proof.
  intros Hin. apply existsb_exists. exists d. split; [assumption|].
  apply String.eqb_refl.
Qed.

Lemma map_snd_pair (d : Device) (xs : list slice) :
  map snd (map (pair d) xs) = xs.
Proof. rewrite map_map. simpl. apply map_id. Qed.

Lemma sum_total_zero (T : dict Device SliceMerger) :
  NoDup (dict_keys T) ->
  (forall d, In d (dict_keys T) -> lookup_total T d = 0) ->
  sum_total T = 0.
Proof.
  induction T as [|[d m] T IH]; simpl; intros Hnd Hz; [reflexivity|].
  inversion Hnd as [|? ? Hd Hnd']; subst.
  pose proof (Hz d (or_introl eq_refl)) as H0.
  unfold lookup_total in H0. simpl in H0. rewrite String.eqb_refl in H0.
  rewrite IH; [lia|assumption|].
  intros d' Hd'. specialize (Hz d' (or_intror Hd')).
  unfold lookup_total in *. simpl in Hz.
  destruct (String.eqb_spec d d') as [->|_]; [contradiction|assumption].
Qed.

Lemma copy_from_devices_spec (B : Z) (tensors : list Device) :
  forall (todo : list Device) (T : dict Device SliceMerger)
         (buf : list (option record)) (R : list (Device * slice)) (c : Z),
    NoDup todo -> incl todo (dict_keys T) -> incl todo tensors ->
    Forall SInv (dict_values T) ->
    0 <= c <= B -> Z.of_nat (List.length buf) = B ->
    firstn (Z.to_nat c) buf = map Some (records_of R) ->
    exists T' xs buf' c',
      copy_from_devices B tensors todo (mk_fill T (Ok buf) R c (B - c))
      = Ok (mk_fill T' (Ok buf') (R ++ xs) c' (B - c')) /\
      c' = c + sum_len (map snd xs) /\ c' <= B /\
      dict_keys T' = dict_keys T /\
      Forall SInv (dict_values T') /\
      (forall d i, occ d i (located T) = (occ d i (located T') + occ d i xs)%nat) /\
      sum_total T = sum_total T' + sum_len (map snd xs) /\
      Forall (fun x => In (fst x) todo /\ nonempty (snd x)) xs /\
      List.length buf' = List.length buf /\
      firstn (Z.to_nat c') buf' = map Some (records_of (R ++ xs)) /\
      (c' = B \/ forall d, In d todo -> lookup_total T' d = 0) /\
      (forall d, ~ In d todo -> dict_get T' d = dict_get T d).
Proof.
  induction todo as [|d todo IH];
    intros T buf R c Hnd Hkeys Htens HT Hc Hlen Hbuf.
  - exists T, [], buf, c. simpl. rewrite app_nil_r.
    split; [reflexivity|]. split; [lia|]. split; [lia|].
    split; [reflexivity|]. split; [assumption|].
    split; [intros; rewrite occ_nil; lia|]. split; [lia|].
    split; [constructor|]. split; [reflexivity|]. split; [assumption|].
    split; [right; intros ? []|auto].
  - apply NoDup_cons_iff in Hnd. destruct Hnd as [Hd Hnd'].
    cbn [copy_from_devices bf_slices bf_batch bf_release bf_copied bf_remaining].
    rewrite existsb_eqb_In by (apply Htens; simpl; auto).
    destruct (dict_get_In T d) as [m Hm]; [apply Hkeys; simpl; auto|].
    unfold dict_lookup. rewrite Hm.
    destruct (dict_get_split _ _ _ Hm) as (Ta & Tb & -> & Hfresh).
    rewrite dict_values_app in HT. apply Forall_app in HT.
    destruct HT as [HTa HTb]. simpl in HTb.
    apply Forall_cons_iff in HTb. destruct HTb as [Hminv HTb'].
    destruct (SInv_elim m Hminv) as (L & -> & Hwf & _).
    destruct (copy_while_spec B d (S (List.length (slice_starts (of_ranges L))))
                L buf R c)
      as (L1 & xs1 & buf1 & c1 & E1 & Hc1 & Hwf1 & Hle1 & Hdone1 & Hcnt1
          & Hsum1 & Hne1 & Hlen1 & Hbuf1); try assumption.
    { simpl. rewrite length_index_by. lia. }
    rewrite E1.
    cbn [cs_slices cs_batch cs_release trajectories_copied remaining].
    rewrite dict_set_split by assumption.
    set (T1 := Ta ++ (d, of_ranges L1) :: Tb).
    assert (Hkeys1 : dict_keys T1 = dict_keys (Ta ++ (d, of_ranges L) :: Tb)).
    { unfold T1. rewrite !dict_keys_app. reflexivity. }
    destruct (IH T1 buf1 (R ++ map (pair d) xs1) c1)
      as (T' & xs2 & buf' & c' & E & Hc' & Hle & Hk' & HT' & Hocc & Hsum
          & Hxs & Hlen' & Hbuf' & Hdone & Hframe); try assumption.
    { rewrite Hkeys1. intros x Hx. apply Hkeys. simpl. auto. }
    { intros x Hx. apply Htens. simpl. auto. }
    { unfold T1. rewrite dict_values_app. apply Forall_app. split; [assumption|].
      simpl. constructor; [|assumption]. now apply SInv_of_ranges. }
    { pose proof (sum_len_nonneg xs1 Hne1). lia. }
    { lia. }
    assert (Hnn2 : 0 <= sum_len (map snd xs2)).
    { apply sum_len_nonneg. rewrite Forall_map.
      eapply Forall_impl; [|exact Hxs]. simpl. tauto. }
    assert (Hnn1 : 0 <= sum_len xs1) by (apply sum_len_nonneg; assumption).
    exists T', (map (pair d) xs1 ++ xs2), buf', c'.
    rewrite app_assoc. split; [exact E|].
    rewrite map_app, map_snd_pair, sum_len_app.
    split; [lia|]. split; [assumption|].
    split; [rewrite Hk'; exact Hkeys1|]. split; [assumption|].
    split.
    { intros d' i. pose proof (Hocc d' i) as Ho. unfold T1 in Ho.
      rewrite occ_located_split, ranges_of_ranges in Ho.
      rewrite occ_located_split, ranges_of_ranges, occ_app, occ_map_pair.
      pose proof (Hcnt1 i). destruct (String.eqb d d'); lia. }
    split.
    { unfold T1 in Hsum. rewrite sum_total_app in Hsum.
      rewrite sum_total_app. simpl in *. lia. }
    split.
    { apply Forall_app. split.
      - rewrite Forall_map. eapply Forall_impl; [|exact Hne1]. simpl. auto.
      - eapply Forall_impl; [|exact Hxs]. simpl. tauto. }
    split; [lia|]. split; [exact Hbuf'|].
    split.
    { destruct Hdone as [Hfull|Hempty]; [left; assumption|].
      destruct Hdone1 as [Hfull1|Hempty1]; [left; lia|].
      right. intros d' [<-|Hd']; [|auto].
      unfold lookup_total. rewrite Hframe by assumption.
      unfold T1. rewrite dict_get_app_fresh by assumption. simpl.
      rewrite String.eqb_refl. subst L1. reflexivity. }
    { intros d' Hd'. simpl in Hd'. rewrite Hframe by tauto.
      unfold T1.
      rewrite <- (dict_set_split Ta Tb d (of_ranges L) (of_ranges L1) Hfresh).
      rewrite dict_get_set.
      destruct (key_eqb_spec d d') as [->|_]; [tauto|reflexivity]. }
Qed.

(** ** Running monadic code *)

Lemma run_bind_get {S B : Type} (f : S -> M S B) (s : S) :
  bind get f s = f s s.
Proof. reflexivity. Qed.

Lemma run_bind_lift {S A B : Type} (r : result A) (a : A) (f : A -> M S B)
    (s : S) :
  r = Ok a -> bind (lift r) f s = f a s.
Proof. intros ->. reflexivity. Qed.

Lemma run_bind_lift_raise {S A B : Type} (r : result A) (e : exn)
    (f : A -> M S B) (s : S) :
  r = Raise e -> bind (lift r) f s = (Raise e, s).
Proof. intros ->. reflexivity. Qed.

Lemma run_bind_modify {S B : Type} (g : S -> S) (f : unit -> M S B) (s : S) :
  bind (modify g) f s = f tt (g s).
Proof. reflexivity. Qed.

Lemma run_bind_assert {S B : Type} (c : bool) (f : unit -> M S B) (s : S) :
  c = true -> bind (assert c) f s = f tt s.
Proof. intros ->. reflexivity. Qed.

Lemma run_bind_ret {S A B : Type} (a : A) (f : A -> M S B) (s : S) :
  bind (ret a) f s = f a s.
Proof. reflexivity. Qed.

Lemma run_bind_emit {B : Type} (e : event) (f : unit -> M Batcher B)
    (s : Batcher) :
  bind (emit e) f s = f tt (set_emitted (emitted s ++ [e]) s).
Proof. reflexivity. Qed.

Lemma run_bind_ok {S A B : Type} (m : M S A) (a : A) (f : A -> M S B)
    (s s' : S) :
  m s = (Ok a, s') -> bind m f s = f a s'.
Proof. unfold bind. intros ->. reflexivity. Qed.

Lemma run_bind_raise {S A B : Type} (m : M S A) (e : exn) (f : A -> M S B)
    (s s' : S) :
  m s = (Raise e, s') -> bind m f s = (Raise e, s').
Proof. unfold bind. intros ->. reflexivity. Qed.

Lemma list_lookup_middle {A : Type} (l1 l2 : list A) (x : A) :
  list_lookup (l1 ++ x :: l2) (List.length l1) = Ok x.
Proof.
  unfold list_lookup.
  replace (nth_error (l1 ++ x :: l2) (List.length l1)) with (Some x);
    [reflexivity|].
  induction l1; simpl; auto.
Qed.

Lemma list_assign_middle {A : Type} (l1 l2 : list A) (x v : A) :
  list_assign (l1 ++ x :: l2) (List.length l1) v = Ok (l1 ++ v :: l2).
Proof.
  unfold list_assign.
  replace (list_set (l1 ++ x :: l2) (List.length l1) v)
    with (Some (l1 ++ v :: l2)); [reflexivity|].
  induction l1 as [|a l1 IH]; simpl; [reflexivity|]. now rewrite <- IH.
Qed.

(** ** Lists updated by index *)

Lemma list_set_split {A : Type} (l1 l2 : list A) (x v : A) :
  list_set (l1 ++ x :: l2) (List.length l1) v = Some (l1 ++ v :: l2).
Proof.
  induction l1 as [|a l1 IH]; simpl; [reflexivity|]. now rewrite IH.
Qed.

Lemma nth_error_middle {A : Type} (l1 l2 : list A) (x : A) :
  nth_error (l1 ++ x :: l2) (List.length l1) = Some x.
Proof. induction l1; simpl; auto. Qed.

Lemma nth_error_replace_other {A : Type} (l1 l2 : list A) (x v : A) (n : nat) :
  n <> List.length l1 ->
  nth_error (l1 ++ v :: l2) n = nth_error (l1 ++ x :: l2) n.
Proof.
  revert n. induction l1 as [|a l1 IH]; intros [|n] Hn; simpl in *;
    try reflexivity; try lia.
  apply IH. lia.
Qed.

Lemma nth_default_nth_error {A : Type} (l : list A) (n : nat) (x d : A) :
  nth_error l n = Some x -> nth n l d = x.
Proof. intros H. now apply nth_error_nth. Qed.

Lemma concat_middle {A : Type} (l1 l2 : list (list A)) (x : list A) :
  List.concat (l1 ++ x :: l2) = List.concat l1 ++ x ++ List.concat l2.
Proof. rewrite concat_app. reflexivity. Qed.

(** ** Filling one batch *)

Lemma firstn_whole {A : Type} (l l' : list A) (n : nat) :
  List.length l = n -> firstn n l = l' -> l = l'.
Proof. intros <- <-. symmetry. apply firstn_all. Qed.

Section Fill.
Variable shuffle : nat -> list Device -> list Device.
Hypothesis shuffle_perm : forall k l, Permutation (shuffle k l) l.

Lemma fill_training_batch_spec (st : Batcher) (b : nat)
    (P1 P2 : list (list (Device * slice)))
    (B1 B2 : list (list (option record))) (buf : list (option record)) :
  traj_tensors_to_release st = P1 ++ [] :: P2 -> List.length P1 = b ->
  training_batches st = B1 ++ buf :: B2 -> List.length B1 = b ->
  Z.of_nat (List.length buf) = traj_per_training_iteration st ->
  dict_keys (slices_for_training st) = traj_tensors st ->
  NoDup (traj_tensors st) ->
  Forall SInv (dict_values (slices_for_training st)) ->
  0 <= traj_per_training_iteration st ->
  traj_per_training_iteration st
    <= total_num_trajectories (slices_for_training st) ->
  exists T' xs,
    fill_training_batch shuffle b st
    = (Ok tt,
       set_traj_tensors_to_release (P1 ++ xs :: P2)
         (set_training_batches (B1 ++ map Some (records_of xs) :: B2)
            (set_slices_for_training T'
               (set_shuffles (S (shuffles st)) st)))) /\
    dict_keys T' = dict_keys (slices_for_training st) /\
    Forall SInv (dict_values T') /\
    (forall d i, occ d i (located (slices_for_training st))
                 = (occ d i (located T') + occ d i xs)%nat) /\
    sum_total (slices_for_training st)
      = sum_total T' + traj_per_training_iteration st /\
    sum_len (map snd xs) = traj_per_training_iteration st /\
    Forall (fun x => In (fst x) (traj_tensors st) /\ nonempty (snd x)) xs /\
    Z.of_nat (List.length (records_of xs)) = traj_per_training_iteration st.
Proof.
  intros HP Hb HBt Hb' Hlen Hkeys Hnd HT HB Hguard.
  set (B := traj_per_training_iteration st) in *.
  set (T := slices_for_training st) in *.
  set (todo := shuffle (shuffles st) (dict_keys T)).
  assert (Hperm : Permutation todo (dict_keys T)) by apply shuffle_perm.
  destruct (copy_from_devices_spec B (traj_tensors st) todo T buf [] 0)
    as (T' & xs & buf' & c' & E & Hc' & Hle & Hk' & HT' & Hocc & Hsum
        & Hxs & Hlen' & Hbuf' & Hdone & _).
  { eapply Permutation_NoDup; [symmetry; exact Hperm|]. rewrite Hkeys. exact Hnd. }
  { intros x Hx. eapply Permutation_in; eauto. }
  { intros x Hx. rewrite <- Hkeys. eapply Permutation_in; eauto. }
  { assumption. }
  { lia. }
  { assumption. }
  { reflexivity. }
  simpl in E, Hbuf', Hc'. rewrite Z.sub_0_r in E.
  assert (Hfull : c' = B).
  { destruct Hdone as [?|Hempty]; [assumption|].
    assert (Hz : sum_total T' = 0).
    { apply sum_total_zero.
      - rewrite Hk', Hkeys. exact Hnd.
      - intros d Hd. apply Hempty. rewrite Hk' in Hd.
        eapply Permutation_in; [symmetry; exact Hperm|exact Hd]. }
    rewrite total_num_trajectories_sum in Hguard. fold T in Hguard. lia. }
  assert (Ebuf : buf' = map Some (records_of xs)).
  { eapply firstn_whole; [|exact Hbuf']. lia. }
  exists T', xs. split; [|split; [|split; [|split; [|split; [|split; [|split]]]]]].
  - unfold fill_training_batch.
    rewrite run_bind_get.
    rewrite (run_bind_lift _ [])
      by (rewrite HP, <- Hb; apply list_lookup_middle).
    rewrite run_bind_assert by reflexivity.
    rewrite run_bind_modify. cbv zeta.
    rewrite (run_bind_lift _ (mk_fill T' (Ok buf') xs c' (B - c'))).
    2:{ rewrite HBt, <- Hb', list_lookup_middle.
        fold B. fold T. fold todo. rewrite Z.sub_0_r. exact E. }
    rewrite run_bind_modify.
    rewrite (run_bind_lift _ (B1 ++ buf' :: B2))
      by (simpl; rewrite HBt, <- Hb'; apply list_assign_middle).
    rewrite run_bind_modify.
    rewrite (run_bind_lift _ (P1 ++ xs :: P2))
      by (simpl; rewrite HP, <- Hb; apply list_assign_middle).
    rewrite run_bind_modify. simpl.
    rewrite Hfull. fold B. rewrite Z.eqb_refl, Z.sub_diag. simpl.
    rewrite Ebuf. reflexivity.
  - assumption.
  - assumption.
  - assumption.
  - lia.
  - lia.
  - eapply Forall_impl; [|exact Hxs]. simpl. intros x [Hx Hne]. split; [|assumption].
    rewrite <- Hkeys. eapply Permutation_in; eauto.
  - rewrite length_records_of; [lia|].
    eapply Forall_impl; [|exact Hxs]. simpl. tauto.
Qed.
End Fill.


(* ================================================================== *)
(** * Properties of the release of trajectory slots *)

(** ** Sorting integers *)

Lemma insert_Z_perm (x : Z) (l : list Z) : Permutation (insert_Z x l) (x :: l).
Proof.
  induction l as [|y l IH]; simpl; [reflexivity|].
  destruct (x <=? y); [reflexivity|]. rewrite IH. apply perm_swap.
Qed.

Lemma sort_Z_perm (l : list Z) : Permutation (sort_Z l) l.
Proof.
  induction l as [|x l IH]; simpl; [reflexivity|].
  rewrite insert_Z_perm. now constructor.
Qed.

Lemma insert_Z_sorted (x : Z) (l : list Z) :
  StronglySorted Z.le l -> StronglySorted Z.le (insert_Z x l).
Proof.
  induction 1 as [|y l Hl IH Hy]; simpl.
  - repeat constructor.
  - destruct (Z.leb_spec x y).
    + constructor; [constructor; assumption|].
      constructor; [assumption|].
      rewrite Forall_forall in *. intros z Hz. specialize (Hy z Hz). lia.
    + constructor; [assumption|].
      rewrite Forall_forall in *. intros z Hz.
      apply (Permutation_in _ (insert_Z_perm x l)) in Hz.
      destruct Hz as [<-|Hz]; [lia | auto].
Qed.

Lemma sort_Z_sorted (l : list Z) : StronglySorted Z.le (sort_Z l).
Proof. induction l; simpl; [constructor | now apply insert_Z_sorted]. Qed.



(** ** The slot indices of a release list *)



Lemma In_indices_for (d : Device) (i : Z) (P : list (Device * slice)) :
  In i (indices_for d P) <-> exists s, In (d, s) P /\ in_slice i s.
Proof.
  unfold indices_for. rewrite in_flat_map. split.
  - intros ([d' s] & Hx & Hi). simpl in Hi.
    destruct (String.eqb_spec d' d) as [->|_]; [|contradiction].
    exists s. split; [assumption|]. now apply In_slice_indices.
  - intros (s & Hs & Hi). exists (d, s). split; [assumption|]. simpl.
    rewrite String.eqb_refl. now apply In_slice_indices.
Qed.

Lemma occ_In (d : Device) (i : Z) (P : list (Device * slice)) :
  (1 <= occ d i P)%nat <-> exists s, In (d, s) P /\ in_slice i s.
Proof.
  induction P as [|[d' s] P IH].
  - rewrite occ_nil. split; [lia | intros (s & [] & _)].
  - rewrite occ_cons. simpl. unfold cnt1. split.
    + destruct (String.eqb_spec d' d) as [->|Hne].
      * destruct (in_sliceb_spec i s) as [Hi|Hi].
        -- intros _. exists s. auto.
        -- intros H. apply IH in H. destruct H as (t & Ht & Hit). eauto.
      * intros H. apply IH in H. destruct H as (t & Ht & Hit). eauto.
    + intros (t & [E|Ht] & Hit).
      * injection E as -> ->. rewrite String.eqb_refl.
        destruct (in_sliceb_spec i t); [lia|contradiction].
      * assert (1 <= occ d i P)%nat by (apply IH; eauto). lia.
Qed.


Lemma indices_for_not_mentioned (d : Device) (P : list (Device * slice)) :
  mentions d P = false -> indices_for d P = [].
Proof.
  unfold mentions, indices_for. induction P as [|[d' s] P IH]; simpl;
    [reflexivity|].
  destruct (String.eqb d' d); simpl; [discriminate|auto].
Qed.

(** ** Unbatched sampling: grouping by device *)

Lemma collect_indices_get (P : list (Device * slice)) :
  forall (acc : dict Device (list Z)) (d : Device),
    dict_get (collect_indices P acc) d
    = match dict_get acc d with
      | Some l => Some (l ++ indices_for d P)
      | None => if mentions d P then Some (indices_for d P) else None
      end.
Proof.
  induction P as [|[d' s] P IH]; intros acc d; simpl.
  - destruct (dict_get acc d); [rewrite app_nil_r|]; reflexivity.
  - rewrite IH, dict_get_set. unfold indices_for. simpl.
    fold (indices_for d P). simpl.
    destruct (String.eqb_spec d' d) as [->|Hne]; simpl.
    + destruct (dict_get acc d); [rewrite <- app_assoc|]; reflexivity.
    + reflexivity.
Qed.

Lemma dict_keys_set_incl {V : Type} (D : dict Device V) (k : Device) (v : V) :
  incl (dict_keys (dict_set D k v)) (k :: dict_keys D).
Proof.
  induction D as [|[a w] D IH]; simpl.
  - intros x [<-|[]]. simpl. auto.
  - destruct (String.eqb a k); simpl.
    + intros x Hx. simpl. auto.
    + intros x [<-|Hx]; [simpl; auto|].
      specialize (IH x Hx). simpl in *. tauto.
Qed.

Lemma dict_keys_set_NoDup {V : Type} (D : dict Device V) (k : Device) (v : V) :
  NoDup (dict_keys D) -> NoDup (dict_keys (dict_set D k v)).
Proof.
  induction D as [|[a w] D IH]; simpl; intros Hnd.
  - constructor; [intros []|constructor].
  - apply NoDup_cons_iff in Hnd. destruct Hnd as [Ha Hnd].
    destruct (String.eqb_spec a k) as [->|Hne]; simpl.
    + constructor; assumption.
    + constructor; [|auto]. intros Hin.
      apply dict_keys_set_incl in Hin. destruct Hin as [E|Hin]; congruence.
Qed.

Lemma collect_indices_keys (P : list (Device * slice)) :
  forall (acc : dict Device (list Z)),
    NoDup (dict_keys acc) ->
    NoDup (dict_keys (collect_indices P acc)) /\
    incl (dict_keys (collect_indices P acc)) (dict_keys acc ++ map fst P).
Proof.
  induction P as [|[d s] P IH]; intros acc Hnd; simpl.
  - split; [assumption|]. rewrite app_nil_r. apply incl_refl.
  - destruct (IH (dict_set acc d
                    (match dict_get acc d with Some l => l | None => [] end
                     ++ slice_indices s))) as [H1 H2].
    { now apply dict_keys_set_NoDup. }
    split; [assumption|]. intros x Hx. apply H2 in Hx.
    apply in_app_or in Hx. destruct Hx as [Hx|Hx].
    + apply dict_keys_set_incl in Hx. destruct Hx as [<-|Hx];
        apply in_or_app; simpl; auto.
    + apply in_or_app. simpl. auto.
Qed.

Lemma dict_get_map_values {V W : Type} (f : V -> W) (D : dict Device V)
    (d : Device) :
  dict_get (map (fun '(k, v) => (k, f v)) D) d = option_map f (dict_get D d).
Proof.
  induction D as [|[a w] D IH]; simpl; [reflexivity|].
  destruct (String.eqb a d); [reflexivity|exact IH].
Qed.

Lemma dict_keys_map_values {V W : Type} (f : V -> W) (D : dict Device V) :
  dict_keys (map (fun '(k, v) => (k, f v)) D) = dict_keys D.
Proof.
  unfold dict_keys. rewrite map_map. apply map_ext. intros [k v]. reflexivity.
Qed.

(** ** Handing slots to the queues *)

Lemma put_all_spec (nsb : dict Device (list qitem)) :
  forall (queues : dict Device (list qitem)),
    incl (dict_keys nsb) (dict_keys queues) ->
    exists queues',
      put_all queues nsb = Ok queues' /\
      dict_keys queues' = dict_keys queues /\
      (NoDup (dict_keys nsb) ->
       forall d, dict_get queues' d
                 = match dict_get nsb d with
                   | Some items => option_map (fun q => q ++ items) (dict_get queues d)
                   | None => dict_get queues d
                   end).
Proof.
  induction nsb as [|[k items] nsb IH]; intros queues Hincl; simpl.
  - exists queues. auto.
  - destruct (dict_get_In queues k) as [q Hq]; [apply Hincl; simpl; auto|].
    unfold dict_lookup. rewrite Hq.
    destruct (IH (dict_set queues k (q ++ items))) as (queues' & E & Hk & Hget).
    { rewrite (dict_keys_set _ _ _ _ Hq). intros x Hx. apply Hincl. simpl. auto. }
    exists queues'. split; [exact E|]. split.
    + rewrite Hk. apply (dict_keys_set _ _ _ _ Hq).
    + intros Hnd d. apply NoDup_cons_iff in Hnd. destruct Hnd as [Hk' Hnd].
      rewrite (Hget Hnd), dict_get_set.
      change (key_eqb k d) with (String.eqb k d).
      destruct (String.eqb_spec k d) as [->|Hne].
      * destruct (dict_get nsb d) eqn:Eg.
        -- apply dict_get_Some_In in Eg. tauto.
        -- rewrite Hq. reflexivity.
      * reflexivity.
Qed.

(** ** Batched sampling: merging the released slices *)

Lemma merge_released_spec (P : list (Device * slice)) :
  forall (S : dict Device SliceMerger),
    NoDup (dict_keys S) ->
    Forall SInv (dict_values S) ->
    Forall (fun x => In (fst x) (dict_keys S) /\ nonempty (snd x)) P ->
    (forall d i, (occ d i (located S ++ P) <= 1)%nat) ->
    exists S',
      merge_released S P = Ok S' /\
      dict_keys S' = dict_keys S /\
      Forall SInv (dict_values S') /\
      (forall d i, occ d i (located S')
                   = (occ d i (located S) + occ d i P)%nat).
Proof.
  induction P as [|[d s] P IH]; intros S Hnd HS HP Hocc.
  - exists S. simpl. split; [reflexivity|]. split; [reflexivity|].
    split; [assumption|]. intros. rewrite occ_nil. lia.
  - apply Forall_cons_iff in HP. destruct HP as [[Hd Hs] HP]. simpl in Hd, Hs.
    destruct (dict_get_In S d Hd) as [m Hm].
    simpl. unfold dict_lookup. rewrite Hm.
    destruct (dict_get_split _ _ _ Hm) as (Sa & Sb & -> & Hfresh).
    rewrite dict_values_app in HS. apply Forall_app in HS.
    destruct HS as [HSa HSb]. simpl in HSb.
    apply Forall_cons_iff in HSb. destruct HSb as [Hminv HSb].
    destruct (SInv_elim m Hminv) as (L & -> & Hwf & _).
    destruct (merge_slices_spec L s Hwf Hs)
      as (L1 & E1 & Hwf1 & _ & _ & Hcnt1).
    { intros r Hr. apply disjoint_of_no_common_index; auto.
      - apply (wf_ranges_nonempty _ _ Hwf); auto.
      - intros i Hi Hir. specialize (Hocc d i).
        rewrite occ_app, occ_located_split, ranges_of_ranges, occ_cons in Hocc.
        simpl in Hocc. rewrite String.eqb_refl in Hocc.
        assert (1 <= cnt i L)%nat by (apply cnt_covered; exists r; auto).
        unfold cnt1 in Hocc. destruct (in_sliceb_spec i s); [lia|contradiction]. }
    rewrite E1, dict_set_split by assumption.
    set (S1 := Sa ++ (d, of_ranges L1) :: Sb).
    assert (Hk1 : dict_keys S1 = dict_keys (Sa ++ (d, of_ranges L) :: Sb)).
    { unfold S1. rewrite !dict_keys_app. reflexivity. }
    assert (Hocc1 : forall d' i,
               occ d' i (located S1)
               = (occ d' i (located (Sa ++ (d, of_ranges L) :: Sb))
                  + occ d' i [(d, s)])%nat).
    { intros d' i. unfold S1.
      rewrite !occ_located_split, !ranges_of_ranges, occ_cons, occ_nil. simpl.
      destruct (String.eqb d d'); [rewrite Hcnt1|]; lia. }
    destruct (IH S1) as (S' & E & Hk & HS' & Hocc').
    + rewrite Hk1. assumption.
    + unfold S1. rewrite dict_values_app. apply Forall_app. split; [assumption|].
      simpl. constructor; [|assumption]. now apply SInv_of_ranges.
    + rewrite Hk1. assumption.
    + intros d' i. specialize (Hocc d' i).
      rewrite occ_app, Hocc1. rewrite occ_app in Hocc.
      change ((d, s) :: P) with ([(d, s)] ++ P) in Hocc.
      rewrite occ_app in Hocc. lia.
    + exists S'. split; [exact E|]. split; [congruence|]. split; [assumption|].
      intros d' i. rewrite Hocc', Hocc1.
      change ((d, s) :: P) with ([(d, s)] ++ P). rewrite occ_app. lia.
Qed.

(** ** Batched sampling: cutting sampling batches *)

Lemma take_sampling_batches_spec (n : Z) (fuel : nat) :
  1 <= n ->
  forall L,
    wf_ranges L -> sum_len L < Z.of_nat fuel ->
    exists chunks L',
      take_sampling_batches fuel n (of_ranges L) = Ok (chunks, of_ranges L') /\
      wf_ranges L' /\
      (forall i, cnt i L = (cnt i L' + cnt i chunks)%nat) /\
      Forall (fun c => slice_len c = n) chunks /\
      Forall (fun s => slice_len s < n) L'.
Proof.
  intros Hn. induction fuel as [|fuel IH]; intros L Hwf Hfuel.
  - pose proof (sum_len_nonneg L (proj1 Hwf)). lia.
  - simpl.
    destruct (get_exactly_of_ranges L n Hwf ltac:(lia))
      as [[Hall E]|(L1 & p & L2 & -> & Hall & Hp & E)]; rewrite E.
    + exists [], L. split; [reflexivity|]. split; [assumption|].
      split; [intros; rewrite cnt_nil; lia|]. split; [constructor|assumption].
    + assert (Hpne : nonempty p).
      { apply (wf_ranges_nonempty _ _ Hwf). apply in_or_app. simpl. auto. }
      assert (Hlen : slice_len (prefix_of p n) = n).
      { rewrite prefix_of_min, Z.min_l by lia. unfold slice_len; simpl. lia. }
      assert (Hwf1 : wf_ranges ((L1 ++ L2) ++ remainder_of p n)).
      { apply wf_ranges_remainder; [assumption|lia]. }
      destruct (IH ((L1 ++ L2) ++ remainder_of p n) Hwf1)
        as (chunks & L' & E' & Hwf' & Hcnt & Hch & Hsmall).
      { pose proof (sum_len_remainder p n) as Hs.
        rewrite !sum_len_app in *. simpl in Hfuel. lia. }
      rewrite E'. exists (prefix_of p n :: chunks), L'.
      split; [reflexivity|]. split; [assumption|]. split; [|split].
      * intros i. specialize (Hcnt i).
        rewrite !cnt_app in Hcnt. rewrite cnt_app, !cnt_cons.
        rewrite (cnt_prefix_remainder i p n) by (assumption || lia). lia.
      * constructor; assumption.
      * assumption.
Qed.

Lemma extract_sampling_batches_spec (n : Z) :
  1 <= n ->
  forall (items Sdone : dict Device SliceMerger)
         (nsb : dict Device (list qitem)),
    NoDup (dict_keys (Sdone ++ items)) ->
    Forall SInv (dict_values items) ->
    exists items' nsb',
      extract_sampling_batches n items (Sdone ++ items) nsb
      = Ok (Sdone ++ items', nsb') /\
      dict_keys items' = dict_keys items /\
      Forall SInv (dict_values items') /\
      (forall d i, (occ d i (located items') <= occ d i (located items))%nat) /\
      incl (dict_keys nsb') (dict_keys nsb ++ dict_keys items).
Proof.
  intros Hn. induction items as [|[d m] items IH]; intros Sdone nsb Hnd HS.
  - exists [], nsb. simpl. split; [reflexivity|]. split; [reflexivity|].
    split; [constructor|]. split; [intros; lia|].
    rewrite app_nil_r. apply incl_refl.
  - simpl in HS. apply Forall_cons_iff in HS. destruct HS as [Hminv HS].
    destruct (SInv_elim m Hminv) as (L & -> & Hwf & _).
    destruct (take_sampling_batches_spec n
                (S (Z.to_nat (total_num (of_ranges L)))) Hn L Hwf)
      as (chunks & L' & E & Hwf' & Hcnt & _ & _).
    { simpl. pose proof (sum_len_nonneg L (proj1 Hwf)). lia. }
    cbn [extract_sampling_batches]. rewrite E.
    assert (Hfresh : ~ In d (dict_keys Sdone)).
    { rewrite dict_keys_app in Hnd. simpl in Hnd.
      apply NoDup_remove_2 in Hnd. intros Hin. apply Hnd.
      apply in_or_app. auto. }
    rewrite dict_set_split by assumption.
    destruct (IH (Sdone ++ [(d, of_ranges L')])
                 (dict_set nsb d (map QSlice chunks)))
      as (items' & nsb' & E' & Hk & HS' & Hocc & Hincl).
    { rewrite <- app_assoc. simpl. rewrite !dict_keys_app in *. exact Hnd. }
    { assumption. }
    rewrite <- !app_assoc in E'. simpl in E'. rewrite E'.
    exists ((d, of_ranges L') :: items'), nsb'.
    split; [reflexivity|].
    split; [simpl; congruence|]. split.
    + simpl. constructor; [now apply SInv_of_ranges | assumption].
    + split.
      * intros d' i. rewrite !located_cons, !occ_app, !occ_map_pair,
          !ranges_of_ranges.
        specialize (Hocc d' i). specialize (Hcnt i).
        destruct (String.eqb d d'); lia.
      * intros x Hx. apply Hincl in Hx. apply in_app_or in Hx.
        apply in_or_app. simpl. destruct Hx as [Hx|Hx]; [|auto].
        apply dict_keys_set_incl in Hx. destruct Hx as [<-|Hx]; auto.
Qed.

(** ** [_release_traj_tensors] *)

Lemma set_slices_for_sampling_same (st : Batcher) :
  set_slices_for_sampling (slices_for_sampling st) st = st.
Proof. destruct st; reflexivity. Qed.

Lemma mentions_In (d : Device) (P : list (Device * slice)) :
  mentions d P = true <-> In d (map fst P).
Proof.
  unfold mentions. rewrite existsb_exists, in_map_iff. split.
  - intros (x & Hx & E). apply String.eqb_eq in E. eauto.
  - intros (x & E & Hx). exists x. split; [assumption|].
    now apply String.eqb_eq.
Qed.

Lemma release_unbatched_spec (st : Batcher) (b : nat)
    (P1 P2 : list (list (Device * slice))) (P : list (Device * slice)) :
  batched_sampling (cfg st) = false ->
  traj_tensors_to_release st = P1 ++ P :: P2 -> List.length P1 = b ->
  incl (map fst P) (dict_keys (traj_buffer_queues st)) ->
  exists queues',
    _release_traj_tensors b st
    = (Ok tt,
       set_emitted
         (emitted st ++
          [TrajectoryBuffersAvailable (policy_id st) (training_iteration st)])
         (set_traj_buffer_queues queues'
            (set_traj_tensors_to_release (P1 ++ [] :: P2) st))) /\
    dict_keys queues' = dict_keys (traj_buffer_queues st) /\
    forall d,
      dict_get queues' d
      = option_map (fun q => q ++ map QIndex (sort_Z (indices_for d P)))
                   (dict_get (traj_buffer_queues st) d).
Proof.
  intros Hmode HP Hb Hq.
  set (grouped := collect_indices P []).
  set (nsb := map (fun '(device, l) => (device, map QIndex l)) (sort_all grouped)).
  destruct (collect_indices_keys P []) as [Hnd Hincl]; [constructor|].
  fold grouped in Hnd, Hincl. simpl in Hincl.
  assert (Hkeys : dict_keys nsb = dict_keys grouped).
  { unfold nsb, sort_all.
    rewrite (dict_keys_map_values (map QIndex)).
    apply (dict_keys_map_values sort_Z). }
  destruct (put_all_spec nsb (traj_buffer_queues st))
    as (queues' & E & Hk & Hget).
  { rewrite Hkeys. intros x Hx. apply Hq. auto. }
  exists queues'. split; [|split; [exact Hk|]].
  - unfold _release_traj_tensors.
    rewrite run_bind_get.
    rewrite (run_bind_lift _ P) by (rewrite HP, <- Hb; apply list_lookup_middle).
    rewrite Hmode. rewrite run_bind_ret.
    rewrite (run_bind_lift _ (P1 ++ [] :: P2))
      by (rewrite HP, <- Hb; apply list_assign_middle).
    rewrite run_bind_modify.
    rewrite (run_bind_lift _ queues') by exact E.
    rewrite run_bind_modify. reflexivity.
  - intros d. rewrite Hget by (rewrite Hkeys; exact Hnd).
    unfold nsb, sort_all.
    rewrite (dict_get_map_values (map QIndex)), (dict_get_map_values sort_Z).
    unfold grouped. rewrite collect_indices_get. simpl.
    destruct (mentions d P) eqn:Em; simpl; [reflexivity|].
    rewrite indices_for_not_mentioned by assumption. simpl.
    destruct (dict_get (traj_buffer_queues st) d); simpl;
      [rewrite app_nil_r|]; reflexivity.
Qed.

Lemma release_batched_spec (st : Batcher) (b : nat)
    (P1 P2 : list (list (Device * slice))) (P : list (Device * slice)) :
  batched_sampling (cfg st) = true ->
  1 <= traj_per_sampling_iteration st ->
  traj_tensors_to_release st = P1 ++ P :: P2 -> List.length P1 = b ->
  NoDup (dict_keys (slices_for_sampling st)) ->
  incl (dict_keys (slices_for_sampling st)) (dict_keys (traj_buffer_queues st)) ->
  Forall SInv (dict_values (slices_for_sampling st)) ->
  Forall (fun x => In (fst x) (dict_keys (slices_for_sampling st))
                   /\ nonempty (snd x)) P ->
  (forall d i, (occ d i (located (slices_for_sampling st) ++ P) <= 1)%nat) ->
  exists S' queues',
    _release_traj_tensors b st
    = (Ok tt,
       set_emitted
         (emitted st ++
          [TrajectoryBuffersAvailable (policy_id st) (training_iteration st)])
         (set_traj_buffer_queues queues'
            (set_traj_tensors_to_release (P1 ++ [] :: P2)
               (set_slices_for_sampling S' st)))) /\
    dict_keys S' = dict_keys (slices_for_sampling st) /\
    Forall SInv (dict_values S') /\
    dict_keys queues' = dict_keys (traj_buffer_queues st) /\
    (forall d i, (occ d i (located S')
                  <= occ d i (located (slices_for_sampling st)) + occ d i P)%nat).
Proof.
  intros Hmode Hn HP Hb Hnd Hq HS HPok Hocc.
  destruct (merge_released_spec P (slices_for_sampling st) Hnd HS HPok Hocc)
    as (S1 & E1 & Hk1 & HS1 & Hocc1).
  destruct (extract_sampling_batches_spec (traj_per_sampling_iteration st) Hn
              S1 [] [])
    as (S' & nsb & E2 & Hk2 & HS2 & Hocc2 & Hincl).
  { simpl. rewrite Hk1. exact Hnd. }
  { exact HS1. }
  simpl in E2, Hincl.
  destruct (put_all_spec nsb (traj_buffer_queues st))
    as (queues' & E3 & Hk3 & _).
  { intros x Hx. apply Hq. rewrite <- Hk1. auto. }
  exists S', queues'. split; [|split; [congruence|split; [assumption|split; [assumption|]]]].
  - unfold _release_traj_tensors.
    rewrite run_bind_get.
    rewrite (run_bind_lift _ P) by (rewrite HP, <- Hb; apply list_lookup_middle).
    rewrite Hmode.
    erewrite run_bind_ok.
    2:{ rewrite (run_bind_lift _ S1) by exact E1.
        rewrite run_bind_modify.
        rewrite (run_bind_lift _ (S', nsb)) by exact E2.
        rewrite run_bind_modify. reflexivity. }
    rewrite (run_bind_lift _ (P1 ++ [] :: P2))
      by (rewrite HP, <- Hb; apply list_assign_middle).
    rewrite run_bind_modify.
    rewrite (run_bind_lift _ queues') by exact E3.
    rewrite run_bind_modify. reflexivity.
  - intros d i. specialize (Hocc2 d i). rewrite Hocc1 in Hocc2. exact Hocc2.
Qed.


(* ================================================================== *)
(** * The engine invariant *)

(** ** The slot invariant depends on ten fields only *)

Lemma BCore_frame (st st' : Batcher) :
  cfg st' = cfg st ->
  traj_per_training_iteration st' = traj_per_training_iteration st ->
  traj_per_sampling_iteration st' = traj_per_sampling_iteration st ->
  slices_for_training st' = slices_for_training st ->
  slices_for_sampling st' = slices_for_sampling st ->
  traj_buffer_queues st' = traj_buffer_queues st ->
  traj_tensors st' = traj_tensors st ->
  training_batches st' = training_batches st ->
  max_batches_to_accumulate st' = max_batches_to_accumulate st ->
  traj_tensors_to_release st' = traj_tensors_to_release st ->
  BCore st -> BCore st'.
Proof.
  intros E1 E2 E3 E4 E5 E6 E7 E8 E9 E10 [].
  constructor; unfold held in *;
    rewrite ?E1, ?E2, ?E3, ?E4, ?E5, ?E6, ?E7, ?E8, ?E9, ?E10; assumption.
Qed.

Lemma occ_concat_middle (d : Device) (i : Z)
    (P1 P2 : list (list (Device * slice))) (P : list (Device * slice)) :
  occ d i (List.concat (P1 ++ P :: P2))
  = (occ d i (List.concat P1) + occ d i P + occ d i (List.concat P2))%nat.
Proof. rewrite concat_middle, !occ_app. lia. Qed.

Lemma length_middle {A : Type} (l1 l2 : list A) (x y : A) :
  List.length (l1 ++ x :: l2) = List.length (l1 ++ y :: l2).
Proof. rewrite !length_app. reflexivity. Qed.

(** ** Releasing keeps the slot invariant *)

Lemma release_core (st : Batcher) (b : nat)
    (P1 P2 : list (list (Device * slice))) (P : list (Device * slice)) :
  BCore st ->
  traj_tensors_to_release st = P1 ++ P :: P2 -> List.length P1 = b ->
  exists S' queues',
    _release_traj_tensors b st
    = (Ok tt,
       set_emitted
         (emitted st ++
          [TrajectoryBuffersAvailable (policy_id st) (training_iteration st)])
         (set_traj_buffer_queues queues'
            (set_traj_tensors_to_release (P1 ++ [] :: P2)
               (set_slices_for_sampling S' st)))) /\
    BCore (set_emitted
             (emitted st ++
              [TrajectoryBuffersAvailable (policy_id st) (training_iteration st)])
             (set_traj_buffer_queues queues'
                (set_traj_tensors_to_release (P1 ++ [] :: P2)
                   (set_slices_for_sampling S' st)))) /\
    (batched_sampling (cfg st) = false ->
     S' = slices_for_sampling st /\
     forall d,
       dict_get queues' d
       = option_map (fun q => q ++ map QIndex (sort_Z (indices_for d P)))
                    (dict_get (traj_buffer_queues st) d)).
Proof.
  intros Hc HP Hb. pose proof Hc as
    [inv_keys_training0 inv_keys_sampling0 inv_devices0 inv_queues0 inv_batch_size0 inv_sampling_size0 inv_training0 inv_sampling0 inv_batches0 inv_batch_len0 inv_release_len0 inv_release_ok0 inv_exclusive0].
  assert (HPok : Forall (fun x => In (fst x) (traj_tensors st) /\ nonempty (snd x)) P).
  { rewrite HP, concat_middle in inv_release_ok0.
    apply Forall_app in inv_release_ok0. destruct inv_release_ok0 as [_ H].
    apply Forall_app in H. tauto. }
  assert (Hocc : forall d i,
             (occ d i (located (slices_for_training st))
              + occ d i (located (slices_for_sampling st))
              + occ d i (List.concat P1) + occ d i P
              + occ d i (List.concat P2) <= 1)%nat).
  { intros d i. specialize (inv_exclusive0 d i). unfold held in inv_exclusive0.
    rewrite HP, !occ_app, occ_concat_middle in inv_exclusive0. lia. }
  assert (Hrest : Forall (fun x => In (fst x) (traj_tensors st) /\ nonempty (snd x))
                         (List.concat (P1 ++ [] :: P2))).
  { rewrite HP, concat_middle in inv_release_ok0. rewrite concat_middle.
    apply Forall_app in inv_release_ok0. destruct inv_release_ok0 as [H1 H].
    apply Forall_app in H. destruct H as [_ H2].
    apply Forall_app. split; [assumption|]. simpl. assumption. }
  destruct (batched_sampling (cfg st)) eqn:Hmode.
  - destruct (release_batched_spec st b P1 P2 P Hmode)
      as (S' & queues' & E & Hk & HS' & Hkq & Hocc'); try assumption.
    + auto.
    + rewrite inv_keys_sampling0. assumption.
    + rewrite inv_keys_sampling0. assumption.
    + rewrite inv_keys_sampling0. assumption.
    + intros d i. specialize (Hocc d i). rewrite occ_app. lia.
    + exists S', queues'. split; [exact E|]. split; [|discriminate].
      constructor; simpl; try assumption.
      * congruence.
      * rewrite Hkq. assumption.
      * rewrite Hmode. assumption.
      * rewrite <- inv_release_len0, HP. apply length_middle.
      * intros d i. unfold held. simpl. specialize (Hocc d i).
        specialize (Hocc' d i).
        rewrite !occ_app, occ_concat_middle, occ_nil. lia.
  - destruct (release_unbatched_spec st b P1 P2 P Hmode HP Hb)
      as (queues' & E & Hkq & Hget).
    { intros x Hx. apply inv_queues0. apply in_map_iff in Hx.
      destruct Hx as (y & <- & Hy). rewrite Forall_forall in HPok.
      apply (HPok y Hy). }
    exists (slices_for_sampling st), queues'.
    rewrite set_slices_for_sampling_same.
    split; [exact E|]. split; [|auto].
    constructor; simpl; try assumption.
    * rewrite Hkq. assumption.
    * rewrite Hmode. assumption.
    * rewrite <- inv_release_len0, HP. apply length_middle.
    * intros d i. unfold held. simpl. specialize (Hocc d i).
      rewrite !occ_app, occ_concat_middle, occ_nil. lia.
Qed.

(** ** Filling a batch keeps the slot invariant *)

Section FillCore.
Variable shuffle : nat -> list Device -> list Device.
Hypothesis shuffle_perm : forall k l, Permutation (shuffle k l) l.

Lemma fill_core (st : Batcher) (b : nat)
    (P1 P2 : list (list (Device * slice))) :
  BCore st ->
  traj_tensors_to_release st = P1 ++ [] :: P2 -> List.length P1 = b ->
  traj_per_training_iteration st
    <= total_num_trajectories (slices_for_training st) ->
  exists T' xs B1 buf B2,
    training_batches st = B1 ++ buf :: B2 /\ List.length B1 = b /\
    fill_training_batch shuffle b st
    = (Ok tt,
       set_traj_tensors_to_release (P1 ++ xs :: P2)
         (set_training_batches (B1 ++ map Some (records_of xs) :: B2)
            (set_slices_for_training T'
               (set_shuffles (S (shuffles st)) st)))) /\
    BCore (set_traj_tensors_to_release (P1 ++ xs :: P2)
             (set_training_batches (B1 ++ map Some (records_of xs) :: B2)
                (set_slices_for_training T'
                   (set_shuffles (S (shuffles st)) st)))) /\
    sum_len (map snd xs) = traj_per_training_iteration st /\
    Z.of_nat (List.length (records_of xs)) = traj_per_training_iteration st /\
    sum_total (slices_for_training st)
      = sum_total T' + traj_per_training_iteration st.
Proof.
  intros Hc HP Hb Hguard. pose proof Hc as
  [inv_keys_training0 inv_keys_sampling0 inv_devices0 inv_queues0 inv_batch_size0 inv_sampling_size0 inv_training0 inv_sampling0 inv_batches0 inv_batch_len0 inv_release_len0 inv_release_ok0 inv_exclusive0].
  assert (Hlt : (b < List.length (training_batches st))%nat).
  { rewrite inv_batches0, <- inv_release_len0, HP, length_app. simpl. lia. }
  destruct (nth_error (training_batches st) b) as [buf|] eqn:Ebuf;
    [|apply nth_error_None in Ebuf; lia].
  apply nth_error_split in Ebuf. destruct Ebuf as (B1 & B2 & HB & HB1).
  assert (Hbuflen : Z.of_nat (List.length buf) = traj_per_training_iteration st).
  { rewrite HB in inv_batch_len0. apply Forall_app in inv_batch_len0.
    destruct inv_batch_len0 as [_ H]. now apply Forall_cons_iff in H. }
  destruct (fill_training_batch_spec shuffle shuffle_perm st b P1 P2 B1 B2 buf)
    as (T' & xs & E & Hk & HT' & Hocc & Hsum & Hlen & Hxs & Hrec);
    try assumption.
  exists T', xs, B1, buf, B2.
  split; [exact HB|]. split; [exact HB1|]. split; [exact E|].
  split; [|auto].
  constructor; simpl; try assumption.
  - congruence.
  - rewrite <- inv_batches0, HB. apply length_middle.
  - rewrite HB in inv_batch_len0. apply Forall_app in inv_batch_len0.
    destruct inv_batch_len0 as [H1 H2]. apply Forall_cons_iff in H2.
    apply Forall_app. split; [assumption|].
    constructor; [|tauto]. rewrite length_map. exact Hrec.
  - rewrite <- inv_release_len0, HP. apply length_middle.
  - rewrite HP, concat_middle in inv_release_ok0. rewrite concat_middle.
    apply Forall_app in inv_release_ok0. destruct inv_release_ok0 as [H1 H2].
    apply Forall_app. split; [assumption|]. apply Forall_app. split; assumption.
  - intros d i. unfold held. simpl. specialize (inv_exclusive0 d i).
    unfold held in inv_exclusive0. specialize (Hocc d i).
    rewrite HP in inv_exclusive0.
    rewrite !occ_app, occ_concat_middle in *. rewrite occ_nil in *. lia.
Qed.
End FillCore.

(** ** The buffer part of the invariant *)

Lemma nth_replace_other {A : Type} (l1 l2 : list A) (x v d : A) (n : nat) :
  n <> List.length l1 ->
  nth n (l1 ++ v :: l2) d = nth n (l1 ++ x :: l2) d.
Proof.
  revert n. induction l1 as [|a l1 IH]; intros [|n] Hn; simpl in *;
    try reflexivity; try lia.
  apply IH. lia.
Qed.

Lemma nth_middle_eq {A : Type} (l1 l2 : list A) (x d : A) :
  nth (List.length l1) (l1 ++ x :: l2) d = x.
Proof. induction l1; simpl; auto. Qed.


Lemma flow_phase_app (p : phase) (l1 l2 : list event) :
  flow_phase p (l1 ++ l2)
  = match flow_phase p l1 with
    | Some q => flow_phase q l2
    | None => None
    end.
Proof.
  revert p. induction l1 as [|e l1 IH]; intros p; simpl; [reflexivity|].
  destruct e, p; auto.
Qed.

Section Steps.
Variable shuffle : nat -> list Device -> list Device.
Hypothesis shuffle_perm : forall k l, Permutation (shuffle k l) l.

(** One pass of the assembling loop, under its guard. *)
Lemma enqueue_pass_spec (st : Batcher) (b : nat) (rest : list nat) :
  BInv st ->
  available_batches st = b :: rest ->
  traj_per_training_iteration st
    <= total_num_trajectories (slices_for_training st) ->
  exists st' xs,
    enqueue_pass shuffle b (set_available_batches rest st) = (Ok tt, st') /\
    BInv st' /\
    cfg st' = cfg st /\
    max_batches_to_accumulate st' = max_batches_to_accumulate st /\
    available_batches st' = rest /\
    sum_len (map snd xs) = traj_per_training_iteration st /\
    Z.of_nat (List.length (records_of xs)) = traj_per_training_iteration st /\
    nth_error (training_batches st') b = Some (map Some (records_of xs)) /\
    sum_total (slices_for_training st)
      = sum_total (slices_for_training st') + traj_per_training_iteration st /\
    emitted st'
    = emitted st ++
      TrainingBatchesAvailable b ::
      (if async_rl (cfg st) then
         TrajectoryBuffersAvailable (policy_id st) (training_iteration st) ::
         match rest with
         | [] => [StopExperienceCollection]
         | _ :: _ => []
         end
       else []) /\
    (async_rl (cfg st) = false ->
     nth_error (traj_tensors_to_release st') b = Some xs /\
     traj_buffer_queues st' = traj_buffer_queues st) /\
    (async_rl (cfg st) = true ->
     nth_error (traj_tensors_to_release st') b = Some [] /\
     (batched_sampling (cfg st) = false ->
      forall d,
        dict_get (traj_buffer_queues st') d
        = option_map (fun q => q ++ map QIndex (sort_Z (indices_for d xs)))
                     (dict_get (traj_buffer_queues st) d))) /\
    (forall d i, (occ d i xs <= 1)%nat).
Proof.
  intros Hinv Hav Hguard.
  destruct Hinv as [Hcore Hnd Hlt Hrel Hasync Hfl].
  assert (Hb_in : In b (available_batches st)) by (rewrite Hav; simpl; auto).
  pose proof (Hrel b Hb_in) as Hpb.
  apply nth_error_split in Hpb. destruct Hpb as (P1 & P2 & HP & HP1).
  rewrite Hav in Hnd, Hlt.
  apply NoDup_cons_iff in Hnd. destruct Hnd as [Hb_rest Hnd].
  apply Forall_cons_iff in Hlt. destruct Hlt as [Hb_lt Hlt].
  set (st0 := set_available_batches rest st).
  assert (Hcore0 : BCore st0) by (apply (BCore_frame st); auto).
  destruct (fill_core shuffle shuffle_perm st0 b P1 P2 Hcore0 HP HP1 Hguard)
    as (T' & xs & B1 & buf & B2 & HB & HB1 & Efill & Hcore1 & Hsum & Hrec & Htot).
  set (st1 := set_traj_tensors_to_release (P1 ++ xs :: P2)
                (set_training_batches (B1 ++ map Some (records_of xs) :: B2)
                   (set_slices_for_training T'
                      (set_shuffles (S (shuffles st0)) st0)))) in *.
  set (st2 := set_emitted (emitted st1 ++ [TrainingBatchesAvailable b]) st1).
  assert (Hcore2 : BCore st2) by (apply (BCore_frame st1); auto).
  assert (Hrest_rel : forall b', In b' rest ->
             nth_error (P1 ++ [] :: P2) b' = Some []).
  { intros b' Hb'. rewrite <- HP. apply Hrel. rewrite Hav. simpl. auto. }
  assert (Hneq : forall b', In b' rest -> b' <> List.length P1).
  { intros b' Hb' ->. rewrite HP1 in Hb'. contradiction. }
  assert (Hxs1 : forall d i, (occ d i xs <= 1)%nat).
  { intros d i. pose proof (inv_exclusive _ Hcore1 d i) as H.
    unfold held, st1 in H. simpl in H.
    rewrite !occ_app, occ_concat_middle in H. lia. }
  destruct (async_rl (cfg st)) eqn:Hmode.
  - (* asynchronous: release at once *)
    destruct (release_core st2 b P1 P2 xs Hcore2 eq_refl HP1)
      as (S' & queues' & Erel & Hcore3 & Hunb).
    set (st3 := set_emitted
                  (emitted st2 ++
                   [TrajectoryBuffersAvailable (policy_id st2)
                      (training_iteration st2)])
                  (set_traj_buffer_queues queues'
                     (set_traj_tensors_to_release (P1 ++ [] :: P2)
                        (set_slices_for_sampling S' st2)))) in *.
    set (st4 := match rest with
                | [] => set_emitted (emitted st3 ++ [StopExperienceCollection]) st3
                | _ :: _ => st3
                end).
    assert (Hcore4 : BCore st4).
    { unfold st4. destruct rest; [apply (BCore_frame st3); auto | assumption]. }
    exists st4, xs. split; [|split; [|split; [|split; [|split]]]].
    + unfold enqueue_pass. fold st0.
      rewrite (run_bind_ok _ tt _ _ st1) by exact Efill.
      rewrite run_bind_emit. fold st2. rewrite run_bind_get.
      replace (async_rl (cfg st2)) with true by (symmetry; exact Hmode).
      rewrite (run_bind_ok _ tt _ _ st3) by exact Erel.
      rewrite run_bind_get. unfold st4.
      replace (available_batches st3) with rest by reflexivity.
      destruct rest; reflexivity.
    + constructor.
      * exact Hcore4.
      * unfold st4. destruct rest; simpl; assumption.
      * unfold st4. destruct rest; simpl; assumption.
      * replace (available_batches st4) with rest
          by (unfold st4; destruct rest; reflexivity).
        replace (traj_tensors_to_release st4) with (P1 ++ [] :: P2)
          by (unfold st4; destruct rest; reflexivity).
        exact Hrest_rel.
      * intros _.
        replace (traj_tensors_to_release st4) with (P1 ++ [] :: P2)
          by (unfold st4; destruct rest; reflexivity).
        rewrite <- HP. auto.
      * replace (cfg st4) with (cfg st)
          by (unfold st4; destruct rest; reflexivity).
        rewrite Hmode. discriminate.
    + unfold st4. destruct rest; reflexivity.
    + unfold st4. destruct rest; reflexivity.
    + unfold st4. destruct rest; reflexivity.
    + split; [exact Hsum|]. split; [exact Hrec|].
      split.
      { replace (training_batches st4)
          with (B1 ++ map Some (records_of xs) :: B2)
          by (unfold st4; destruct rest; reflexivity).
        rewrite <- HB1. apply nth_error_middle. }
      split.
      { replace (slices_for_training st4) with T'
          by (unfold st4; destruct rest; reflexivity).
        exact Htot. }
      split.
      { unfold st4. destruct rest; simpl; rewrite <- ?app_assoc; reflexivity. }
      split; [discriminate|]. split; [|exact Hxs1]. intros _. split.
      { replace (traj_tensors_to_release st4) with (P1 ++ [] :: P2)
          by (unfold st4; destruct rest; reflexivity).
        rewrite <- HP1. apply nth_error_middle. }
      { intros Hunbatched.
        replace (traj_buffer_queues st4) with queues'
          by (unfold st4; destruct rest; reflexivity).
        apply Hunb. exact Hunbatched. }
  - (* synchronous: the release list is kept *)
    exists st2, xs. split; [|split; [|split; [|split; [|split]]]].
    + unfold enqueue_pass. fold st0.
      rewrite (run_bind_ok _ tt _ _ st1) by exact Efill.
      rewrite run_bind_emit. fold st2. rewrite run_bind_get.
      replace (async_rl (cfg st2)) with false by (symmetry; exact Hmode).
      reflexivity.
    + constructor.
      * exact Hcore2.
      * exact Hnd.
      * exact Hlt.
      * intros b' Hb'. simpl in Hb' |- *.
        rewrite (nth_error_replace_other P1 P2 [] xs b') by auto.
        auto.
      * simpl. rewrite Hmode. discriminate.
      * intros _ b' [Hb'lt Hb'nin]. simpl in Hb'lt, Hb'nin |- *.
        destruct (Nat.eq_dec b' b) as [->|Hne].
        -- rewrite <- HB1 at 1. rewrite nth_error_middle.
           rewrite <- HP1. rewrite nth_middle_eq. reflexivity.
        -- rewrite (nth_error_replace_other B1 B2 buf _ b') by lia.
           rewrite (nth_replace_other P1 P2 [] xs [] b') by lia.
           rewrite <- HB, <- HP. apply Hfl; [reflexivity|].
           split; [assumption|]. rewrite Hav. simpl.
           intros [E|E]; [congruence|contradiction].
    + reflexivity.
    + reflexivity.
    + reflexivity.
    + split; [exact Hsum|]. split; [exact Hrec|].
      split; [simpl; rewrite <- HB1; apply nth_error_middle|].
      split; [exact Htot|].
      split; [reflexivity|].
      split; [|split; [discriminate|exact Hxs1]].
      intros _. split; [|reflexivity].
      simpl. rewrite <- HP1. apply nth_error_middle.
Qed.

(** The learner hands a batch buffer back. *)
Lemma return_batch_spec (st : Batcher) (b : nat) (it : Z) :
  BInv st -> in_flight st b ->
  exists st',
    return_batch b it st = (Ok tt, st') /\
    BInv st' /\
    cfg st' = cfg st /\
    max_batches_to_accumulate st' = max_batches_to_accumulate st /\
    available_batches st' = available_batches st ++ [b] /\
    emitted st'
    = emitted st ++
      (if async_rl (cfg st) then
         match available_batches st with
         | [] => [ResumeExperienceCollection]
         | _ :: _ => []
         end
       else [TrajectoryBuffersAvailable (policy_id st) it]) /\
    (async_rl (cfg st) = false ->
     nth_error (traj_tensors_to_release st') b = Some [] /\
     (batched_sampling (cfg st) = false ->
      forall d,
        dict_get (traj_buffer_queues st') d
        = option_map
            (fun q => q ++ map QIndex
                        (sort_Z (indices_for d
                                   (nth b (traj_tensors_to_release st) []))))
            (dict_get (traj_buffer_queues st) d))) /\
    (async_rl (cfg st) = true ->
     traj_buffer_queues st' = traj_buffer_queues st /\
     traj_tensors_to_release st' = traj_tensors_to_release st).
Proof.
  intros Hinv [Hb_lt Hb_nin].
  destruct Hinv as [Hcore Hnd Hlt Hrel Hasync Hfl].
  assert (Hlen : List.length (traj_tensors_to_release st)
                 = max_batches_to_accumulate st) by apply Hcore.
  destruct (nth_error (traj_tensors_to_release st) b) as [P|] eqn:EP;
    [|apply nth_error_None in EP; lia].
  pose proof (nth_error_nth _ _ [] EP) as HnthP.
  apply nth_error_split in EP. destruct EP as (P1 & P2 & HP & HP1).
  set (st0 := set_training_iteration it st).
  assert (Hcore0 : BCore st0) by (apply (BCore_frame st); auto).
  assert (Hnd' : NoDup (available_batches st ++ [b])).
  { apply NoDup_app; [assumption|repeat constructor; intros []|].
    intros a Ha [<-|[]]. contradiction. }
  assert (Hlt' : Forall (fun b0 => (b0 < max_batches_to_accumulate st)%nat)
                   (available_batches st ++ [b])).
  { apply Forall_app. split; [assumption|]. repeat constructor. assumption. }
  destruct (async_rl (cfg st)) eqn:Hmode.
  - (* asynchronous: the slots were released when the batch got ready *)
    set (st1 := match available_batches st with
                | [] => set_emitted (emitted st0 ++ [ResumeExperienceCollection]) st0
                | _ :: _ => st0
                end).
    set (st2 := set_available_batches (available_batches st1 ++ [b]) st1).
    assert (Hsame : available_batches st1 = available_batches st
                    /\ traj_tensors_to_release st1 = traj_tensors_to_release st
                    /\ cfg st1 = cfg st
                    /\ max_batches_to_accumulate st1 = max_batches_to_accumulate st
                    /\ traj_buffer_queues st1 = traj_buffer_queues st).
    { unfold st1. destruct (available_batches st) eqn:Eav; simpl;
        rewrite ?Eav; repeat split; reflexivity. }
    destruct Hsame as (Hs1 & Hs2 & Hs3 & Hs4 & Hs5).
    assert (Hcore1 : BCore st1).
    { unfold st1. destruct (available_batches st) eqn:Eav;
        [apply (BCore_frame st0); auto | assumption]. }
    exists st2. split; [|split; [|split; [|split; [|split; [|split; [|split]]]]]].
    + unfold return_batch. rewrite run_bind_modify. fold st0.
      rewrite run_bind_get.
      replace (async_rl (cfg st0)) with true by (symmetry; exact Hmode).
      simpl negb. cbv iota. rewrite run_bind_ret. rewrite run_bind_get.
      replace (available_batches st0) with (available_batches st) by reflexivity.
      replace (async_rl (cfg st0)) with true by (symmetry; exact Hmode).
      unfold st2, st1.
      destruct (available_batches st) eqn:Eav;
        [rewrite run_bind_emit | rewrite run_bind_ret];
        unfold modify; simpl; rewrite ?Eav; reflexivity.
    + constructor.
      * apply (BCore_frame st1); auto.
      * simpl. rewrite Hs1. exact Hnd'.
      * simpl. rewrite Hs1, Hs4. exact Hlt'.
      * intros b' Hb'. simpl in Hb' |- *. rewrite Hs2.
        specialize (Hasync eq_refl). rewrite Hs1 in Hb'.
        apply in_app_or in Hb'. destruct Hb' as [Hb'|[<-|[]]]; [auto|].
        rewrite HP, <- HP1, nth_error_middle. f_equal.
        rewrite HP in Hasync. apply Forall_app in Hasync.
        destruct Hasync as [_ H]. now apply Forall_cons_iff in H.
      * intros _. simpl. rewrite Hs2. auto.
      * simpl. rewrite Hs3, Hmode. discriminate.
    + simpl. exact Hs3.
    + simpl. exact Hs4.
    + simpl. rewrite Hs1. reflexivity.
    + unfold st2, st1. destruct (available_batches st) eqn:Eav; simpl;
        [reflexivity | rewrite app_nil_r; reflexivity].
    + discriminate.
    + intros _. simpl. auto.
  - (* synchronous: the slots are released now *)
    destruct (release_core st0 b P1 P2 P Hcore0 HP HP1)
      as (S' & queues' & Erel & Hcore1 & Hunb).
    set (st1 := set_emitted
                  (emitted st0 ++
                   [TrajectoryBuffersAvailable (policy_id st0)
                      (training_iteration st0)])
                  (set_traj_buffer_queues queues'
                     (set_traj_tensors_to_release (P1 ++ [] :: P2)
                        (set_slices_for_sampling S' st0)))) in *.
    set (st2 := set_available_batches (available_batches st1 ++ [b]) st1).
    exists st2. split; [|split; [|split; [|split; [|split; [|split; [|split]]]]]].
    + unfold return_batch. rewrite run_bind_modify. fold st0.
      rewrite run_bind_get.
      replace (async_rl (cfg st0)) with false by (symmetry; exact Hmode).
      simpl negb. cbv iota.
      rewrite (run_bind_ok _ tt _ _ st1) by exact Erel.
      rewrite run_bind_get.
      replace (async_rl (cfg st1)) with false by (symmetry; exact Hmode).
      replace (match available_batches st1 with
               | [] => ret tt
               | _ :: _ => ret tt
               end) with (@ret Batcher unit tt)
        by (destruct (available_batches st1); reflexivity).
      rewrite run_bind_ret. reflexivity.
    + constructor.
      * apply (BCore_frame st1); auto.
      * exact Hnd'.
      * exact Hlt'.
      * intros b' Hb'. simpl in Hb' |- *.
        apply in_app_or in Hb'. destruct Hb' as [Hb'|[<-|[]]].
        -- rewrite (nth_error_replace_other P1 P2 P [] b').
           ++ rewrite <- HP. auto.
           ++ intros ->. rewrite HP1 in Hb'. contradiction.
        -- rewrite <- HP1. apply nth_error_middle.
      * simpl. rewrite Hmode. discriminate.
      * intros _ b' [Hb'lt Hb'nin]. simpl in Hb'lt, Hb'nin |- *.
        assert (Hne : b' <> b).
        { intros ->. apply Hb'nin. apply in_or_app. simpl. auto. }
        rewrite (nth_replace_other P1 P2 P [] [] b') by lia.
        rewrite <- HP. apply Hfl; [reflexivity|].
        split; [assumption|]. intros Hin. apply Hb'nin.
        apply in_or_app. auto.
    + reflexivity.
    + reflexivity.
    + reflexivity.
    + reflexivity.
    + intros _. split.
      * simpl. rewrite <- HP1. apply nth_error_middle.
      * intros Hunbatched d. simpl. rewrite HnthP.
        apply Hunb. exact Hunbatched.
    + discriminate.
Qed.

Lemma BInv_frame (st st' : Batcher) :
  BCore st' ->
  cfg st' = cfg st ->
  max_batches_to_accumulate st' = max_batches_to_accumulate st ->
  available_batches st' = available_batches st ->
  traj_tensors_to_release st' = traj_tensors_to_release st ->
  training_batches st' = training_batches st ->
  BInv st -> BInv st'.
Proof.
  intros Hcore E1 E2 E3 E4 E5 [_ Hnd Hlt Hrel Hasync Hfl].
  constructor; unfold in_flight in *;
    rewrite ?E1, ?E2, ?E3, ?E4, ?E5; assumption.
Qed.

(** Producers report new trajectories. *)
Lemma merge_new_trajectories_spec (device : Device)
    (tds : list TrajectoryDict) :
  forall st st',
    BInv st -> producer_ok st tds device ->
    merge_new_trajectories device tds st = (Ok tt, st') ->
    BInv st' /\
    cfg st' = cfg st /\
    max_batches_to_accumulate st' = max_batches_to_accumulate st /\
    available_batches st' = available_batches st /\
    emitted st' = emitted st /\
    traj_tensors_to_release st' = traj_tensors_to_release st /\
    training_batches st' = training_batches st /\
    traj_buffer_queues st' = traj_buffer_queues st.
Proof.
  induction tds as [|td tds IH]; intros st st' Hinv Hprod Hrun.
  - simpl in Hrun. injection Hrun as <-.
    split; [exact Hinv|]. repeat split; reflexivity.
  - destruct Hprod as (Hpol & Hne & Hocc).
    apply Forall_cons_iff in Hpol. destruct Hpol as [Hpol Hpols].
    simpl in Hne. apply Forall_cons_iff in Hne. destruct Hne as [Hts Hnes].
    simpl in Hts.
    set (ts := as_slice (traj_buffer_idx td)) in *.
    cbn [merge_new_trajectories] in Hrun.
    rewrite run_bind_get in Hrun.
    rewrite run_bind_assert in Hrun by (apply Z.eqb_eq; exact Hpol).
    fold ts in Hrun. cbv zeta in Hrun.
    destruct (dict_get (slices_for_training st) device) as [m|] eqn:Em.
    2:{ rewrite (run_bind_lift_raise _ KeyError) in Hrun
          by (unfold dict_lookup; rewrite Em; reflexivity).
        discriminate. }
    rewrite (run_bind_lift _ m) in Hrun
      by (unfold dict_lookup; rewrite Em; reflexivity).
    pose proof (inv_core _ Hinv) as Hcore.
    pose proof Hcore as
      [hkT hkS hdev hq hB hn hT hS hbat hblen hrlen hrok hexcl].
    destruct (dict_get_split _ _ _ Em) as (Ta & Tb & HT & Hfresh).
    assert (Hminv : SInv m).
    { rewrite HT, dict_values_app in hT. apply Forall_app in hT.
      destruct hT as [_ H]. simpl in H. now apply Forall_cons_iff in H. }
    destruct (SInv_elim m Hminv) as (L & -> & Hwf & _).
    assert (Hocc0 : forall d i,
               (occ d i (held st) + occ d i [(device, ts)]
                + occ d i (reported device tds) <= 1)%nat).
    { intros d i. specialize (Hocc d i).
      unfold reported in Hocc. cbn [map] in Hocc.
      fold (reported device tds) in Hocc. fold ts in Hocc.
      rewrite occ_app, occ_cons in Hocc. rewrite occ_cons, occ_nil. lia. }
    destruct (merge_slices_spec L ts Hwf Hts)
      as (L1 & E1 & Hwf1 & _ & _ & Hcnt1).
    { intros r Hr. apply disjoint_of_no_common_index; auto.
      - apply (wf_ranges_nonempty _ _ Hwf); auto.
      - intros i Hi Hir. specialize (Hocc0 device i).
        unfold held in Hocc0.
        rewrite HT, !occ_app, occ_located_split, ranges_of_ranges, occ_cons
          in Hocc0.
        simpl in Hocc0. rewrite String.eqb_refl in Hocc0.
        assert (1 <= cnt i L)%nat by (apply cnt_covered; exists r; auto).
        unfold cnt1 in Hocc0.
        destruct (in_sliceb_spec i ts); [lia|contradiction]. }
    rewrite (run_bind_lift _ (of_ranges L1)) in Hrun by exact E1.
    rewrite run_bind_modify in Hrun.
    destruct (existsb (String.eqb "cpu") (traj_tensors st)) eqn:Ecpu.
    2:{ unfold bind at 1 in Hrun. simpl in Hrun. discriminate. }
    rewrite run_bind_ret in Hrun.
    set (st1 := set_slices_for_training
                  (dict_set (slices_for_training st) device (of_ranges L1)) st)
      in *.
    assert (HT1 : dict_set (slices_for_training st) device (of_ranges L1)
                  = Ta ++ (device, of_ranges L1) :: Tb).
    { rewrite HT. apply dict_set_split. assumption. }
    assert (Hocc1 : forall d i,
               occ d i (held st1)
               = (occ d i (held st) + occ d i [(device, ts)])%nat).
    { intros d i. unfold held, st1. simpl. rewrite HT1, HT.
      rewrite !occ_app, !occ_located_split, !ranges_of_ranges, occ_cons, occ_nil.
      simpl. specialize (Hcnt1 i). destruct (String.eqb device d); lia. }
    assert (Hcore1 : BCore st1).
    { constructor; try (unfold st1; simpl; assumption).
      - unfold st1. simpl. rewrite HT1, <- hkT, HT, !dict_keys_app. reflexivity.
      - unfold st1. simpl. rewrite HT1, dict_values_app.
        rewrite HT, dict_values_app in hT.
        apply Forall_app in hT. destruct hT as [H1 H2].
        simpl in H2. apply Forall_cons_iff in H2.
        apply Forall_app. split; [assumption|]. simpl.
        constructor; [now apply SInv_of_ranges|tauto].
      - intros d i. rewrite Hocc1. specialize (Hocc0 d i). lia. }
    assert (Hinv1 : BInv st1) by (apply (BInv_frame st); auto).
    destruct (IH st1 st' Hinv1) as (H1 & H2 & H3 & H4 & H5 & H6 & H7 & H8).
    + split; [exact Hpols|]. split; [exact Hnes|].
      intros d i. rewrite occ_app, Hocc1. specialize (Hocc0 d i). lia.
    + exact Hrun.
    + split; [exact H1|]. repeat split; assumption.
Qed.

(** Setup. *)
Lemma located_init (devs : list Device) :
  located (map (fun device => (device, SliceMerger_init)) devs) = [].
Proof. induction devs; simpl; auto. Qed.

Lemma concat_repeat_nil {A : Type} (n : nat) :
  List.concat (repeat (@nil A) n) = [].
Proof. induction n; simpl; auto. Qed.

Lemma nth_error_repeat_lt {A : Type} (x : A) (n k : nat) :
  (k < n)%nat -> nth_error (repeat x n) k = Some x.
Proof.
  revert k. induction n as [|n IH]; intros [|k] Hk; simpl; try lia; auto.
  apply IH. lia.
Qed.

Lemma SInv_init : SInv SliceMerger_init.
Proof. apply (SInv_of_ranges []). apply wf_ranges_nil. Qed.

Lemma init_spec (pid : PolicyID) (bm : BufferMgr) (c : Cfg) (st : Batcher) :
  config_ok bm c ->
  init (Batcher_init pid bm c) = (Ok tt, st) ->
  BInv st /\
  cfg st = c /\
  max_batches_to_accumulate st = bm_max_batches_to_accumulate bm /\
  available_batches st = seq 0 (bm_max_batches_to_accumulate bm) /\
  emitted st = [Initialized].
Proof.
  intros (Hnd & Hq & HB & Hn) Hrun.
  unfold init in Hrun. rewrite run_bind_get in Hrun.
  destruct (get_rnn_info (cfg (Batcher_init pid bm c))) as [spaces|e] eqn:Ernn.
  2:{ rewrite (run_bind_lift_raise _ e) in Hrun by reflexivity. discriminate. }
  rewrite (run_bind_lift _ spaces) in Hrun by reflexivity.
  rewrite run_bind_modify in Hrun. unfold emit, modify in Hrun.
  injection Hrun as <-. simpl.
  split; [|repeat split; reflexivity].
  constructor; [constructor|..]; simpl.
  - unfold dict_keys. rewrite map_map. apply map_id.
  - unfold dict_keys. rewrite map_map. apply map_id.
  - exact Hnd.
  - unfold dict_keys. rewrite map_map. simpl. rewrite map_id. exact Hq.
  - exact HB.
  - exact Hn.
  - unfold dict_values. rewrite map_map. simpl.
    apply Forall_forall. intros m Hm. apply in_map_iff in Hm.
    destruct Hm as (d & <- & _). apply SInv_init.
  - unfold dict_values. rewrite map_map. simpl.
    apply Forall_forall. intros m Hm. apply in_map_iff in Hm.
    destruct Hm as (d & <- & _). apply SInv_init.
  - apply repeat_length.
  - apply Forall_forall. intros buf Hbuf. apply repeat_spec in Hbuf.
    subst buf. unfold alloc_trajectory_tensors. rewrite repeat_length. lia.
  - apply repeat_length.
  - rewrite concat_repeat_nil. constructor.
  - intros d i. unfold held. simpl.
    rewrite !located_init, concat_repeat_nil. simpl. rewrite occ_nil. lia.
  - apply seq_NoDup.
  - apply Forall_forall. intros b Hb. apply in_seq in Hb. lia.
  - intros b Hb. apply in_seq in Hb. apply nth_error_repeat_lt. lia.
  - intros _. apply Forall_forall. intros l Hl. now apply repeat_spec in Hl.
  - intros _ b [Hlt Hnin]. simpl in Hlt, Hnin. exfalso. apply Hnin.
    apply in_seq. lia.
Qed.

(** ** Every state of a run satisfies the invariant *)

Theorem reachable_BInv (st : Batcher) : reachable shuffle st -> BInv st.
Proof.
  induction 1 as [pid bm c st Hcfg Hrun
                 |st tds device st' _ IH Hprod Hrun
                 |st b rest st' _ IH Hav Hguard Hrun
                 |st b it st' _ IH Hfl Hrun].
  - apply (init_spec pid bm c st Hcfg Hrun).
  - apply (merge_new_trajectories_spec device tds st st' IH Hprod Hrun).
  - destruct (enqueue_pass_spec st b rest IH Hav Hguard)
      as (st'' & xs & E & Hinv & _).
    rewrite E in Hrun. injection Hrun as <-. exact Hinv.
  - destruct (return_batch_spec st b it IH Hfl) as (st'' & E & Hinv & _).
    rewrite E in Hrun. injection Hrun as <-. exact Hinv.
Qed.

(** In asynchronous mode the stop and resume signals alternate, and the
    phase they leave is the one the buffer pool calls for. *)
Lemma reachable_flow (st : Batcher) :
  reachable shuffle st ->
  async_rl (cfg st) = true ->
  flow_phase Collecting (emitted st) = Some (expected_phase st).
Proof.
  induction 1 as [pid bm c st Hcfg Hrun
                 |st tds device st' Hr IH Hprod Hrun
                 |st b rest st' Hr IH Hav Hguard Hrun
                 |st b it st' Hr IH Hfl Hrun]; intros Hmode.
  - destruct (init_spec pid bm c st Hcfg Hrun) as (_ & _ & HK & Hav & Hem).
    rewrite Hem. unfold expected_phase. rewrite Hav, HK.
    destruct (bm_max_batches_to_accumulate bm); reflexivity.
  - destruct (merge_new_trajectories_spec device tds st st'
                (reachable_BInv st Hr) Hprod Hrun)
      as (_ & Hc & HK & Hav & Hem & _).
    rewrite Hem. unfold expected_phase. rewrite Hav, HK.
    apply IH. congruence.
  - pose proof (reachable_BInv st Hr) as Hinv.
    destruct (enqueue_pass_spec st b rest Hinv Hav Hguard)
      as (st'' & xs & E & _ & Hc & HK & Hav' & _ & _ & _ & _ & Hem & _).
    rewrite E in Hrun. injection Hrun as <-.
    rewrite Hc in Hmode. specialize (IH Hmode).
    rewrite Hem, flow_phase_app, IH, Hmode.
    unfold expected_phase. rewrite Hav, Hav', HK.
    assert (Hlt : (b < max_batches_to_accumulate st)%nat).
    { pose proof (inv_available_lt _ Hinv) as H. rewrite Hav in H.
      now apply Forall_cons_iff in H. }
    destruct (max_batches_to_accumulate st); [lia|].
    destruct rest; reflexivity.
  - pose proof (reachable_BInv st Hr) as Hinv.
    destruct (return_batch_spec st b it Hinv Hfl)
      as (st'' & E & _ & Hc & HK & Hav' & Hem & _).
    rewrite E in Hrun. injection Hrun as <-.
    rewrite Hc in Hmode. specialize (IH Hmode).
    rewrite Hem, flow_phase_app, IH, Hmode.
    unfold expected_phase. rewrite Hav', HK.
    destruct Hfl as [Hlt _].
    destruct (max_batches_to_accumulate st); [lia|].
    destruct (available_batches st); reflexivity.
Qed.

(** ** The assembling loop, and the handlers *)

Lemma enqueue_loop_spec (fuel : nat) :
  forall st,
    reachable shuffle st ->
    (List.length (available_batches st) < fuel)%nat ->
    exists st',
      enqueue_loop shuffle fuel st = (Ok tt, st') /\
      reachable shuffle st' /\
      (available_batches st' = [] \/
       total_num_trajectories (slices_for_training st')
         < traj_per_training_iteration st').
Proof.
  induction fuel as [|fuel IH]; intros st Hr Hfuel; [lia|].
  cbn [enqueue_loop]. rewrite run_bind_get.
  destruct (available_batches st) as [|b rest] eqn:Hav.
  - exists st. unfold ret. auto.
  - destruct (Z.ltb_spec (total_num_trajectories (slices_for_training st))
                         (traj_per_training_iteration st)) as [Hlt|Hge].
    + exists st. unfold ret. auto.
    + pose proof (reachable_BInv st Hr) as Hinv.
      destruct (enqueue_pass_spec st b rest Hinv Hav Hge)
        as (st1 & xs & E & _ & _ & _ & Hav1 & _).
      rewrite run_bind_modify.
      rewrite (run_bind_ok _ tt _ _ st1) by exact E.
      apply IH.
      * eapply reach_pass; eauto.
      * rewrite Hav1. simpl in Hfuel. lia.
Qed.

Lemma maybe_enqueue_spec (st : Batcher) :
  reachable shuffle st ->
  exists st',
    _maybe_enqueue_new_training_batches shuffle st = (Ok tt, st') /\
    reachable shuffle st'.
Proof.
  intros Hr. unfold _maybe_enqueue_new_training_batches.
  rewrite run_bind_get.
  destruct (enqueue_loop_spec (S (List.length (available_batches st))) st Hr)
    as (st' & E & Hr' & _); [lia|eauto].
Qed.

(** The learner's acknowledgement never fails, and leads to a state of
    the run. *)
Lemma on_training_batch_released_spec (st : Batcher) (b : nat) (it : Z) :
  reachable shuffle st -> in_flight st b ->
  exists st',
    on_training_batch_released shuffle b it st = (Ok tt, st') /\
    reachable shuffle st'.
Proof.
  intros Hr Hfl. pose proof (reachable_BInv st Hr) as Hinv.
  destruct (return_batch_spec st b it Hinv Hfl) as (st1 & E & _).
  destruct (maybe_enqueue_spec st1) as (st' & E' & Hr').
  { eapply reach_return; eauto. }
  exists st'. split; [|exact Hr'].
  unfold on_training_batch_released.
  rewrite (run_bind_ok _ tt _ _ st1) by exact E. exact E'.
Qed.

(** A report that does not fail leads to a state of the run; the
    assembling that follows it never fails. *)
Lemma on_new_trajectories_spec (st : Batcher) (tds : list TrajectoryDict)
    (device : Device) (st1 : Batcher) :
  reachable shuffle st -> producer_ok st tds device ->
  merge_new_trajectories device tds st = (Ok tt, st1) ->
  exists st',
    on_new_trajectories shuffle tds device st = (Ok tt, st') /\
    reachable shuffle st'.
Proof.
  intros Hr Hprod E.
  destruct (maybe_enqueue_spec st1) as (st' & E' & Hr').
  { eapply reach_report; eauto. }
  exists st'. split; [|exact Hr'].
  unfold on_new_trajectories.
  rewrite (run_bind_ok _ tt _ _ st1) by exact E. exact E'.
Qed.
End Steps.


(* ================================================================== *)
(** * Concrete runs *)

Lemma overlapb_holds (d : Device) (i : Z) (x y : Device * slice) :
  holds_slot d i x = true -> holds_slot d i y = true -> overlapb x y = true.
Proof.
  unfold holds_slot, overlapb, in_sliceb.
  rewrite !andb_true_iff, !String.eqb_eq, !Z.leb_le, !Z.ltb_lt.
  intros [-> [H1 H2]] [-> [H3 H4]]. repeat split; lia.
Qed.

Lemma exclusiveb_occ (l : list (Device * slice)) :
  exclusiveb l = true -> forall d i, (occ d i l <= 1)%nat.
Proof.
  induction l as [|x l IH]; intros Hex d i; [rewrite occ_nil; lia|].
  simpl in Hex. apply andb_true_iff in Hex. destruct Hex as [Hx Hl].
  specialize (IH Hl d i). unfold occ in *. simpl.
  destruct (holds_slot d i x) eqn:Ex; [|assumption].
  simpl. assert (E : filter (holds_slot d i) l = []); [|rewrite E; simpl; lia].
  rewrite forallb_forall in Hx.
  destruct (filter (holds_slot d i) l) as [|y f] eqn:Ef; [reflexivity|exfalso].
  assert (Hy : In y (filter (holds_slot d i) l)) by (rewrite Ef; simpl; auto).
  apply filter_In in Hy. destruct Hy as [Hy1 Hy2].
  specialize (Hx y Hy1). rewrite (overlapb_holds d i x y Ex Hy2) in Hx.
  discriminate.
Qed.

Lemma no_shuffle_perm (k : nat) (l : list Device) : Permutation (no_shuffle k l) l.
Proof. reflexivity. Qed.

Lemma example_config_ok (B n : Z) (K : nat) (async batched : bool) :
  0 <= B -> 1 <= n ->
  config_ok (example_bm B n K) (example_cfg async batched).
Proof.
  intros HB Hn. split; [|split; [|split]]; simpl.
  - repeat constructor. simpl. tauto.
  - apply incl_refl.
  - exact HB.
  - intros _. exact Hn.
Qed.

(** A report of one range on "cpu" that the engine does not hold. *)
Lemma example_producer_ok (st : Batcher) (s : slice) :
  policy_id st = 0 -> (start s <? stop s) = true ->
  exclusiveb (held st ++ [("cpu"%string, s)]) = true ->
  producer_ok st [report s] "cpu"%string.
Proof.
  intros Hp Hs Hex. split; [|split].
  - repeat constructor. simpl. congruence.
  - repeat constructor. simpl. apply Z.ltb_lt. exact Hs.
  - apply exclusiveb_occ. exact Hex.
Qed.

Ltac in_flight_now :=
  unfold in_flight; split; vm_compute; [lia | intuition discriminate].

Ltac run_report st s :=
  apply (reach_report no_shuffle st [report s] "cpu"%string);
  [ | apply example_producer_ok; vm_compute; reflexivity
    | vm_compute; reflexivity ].

Ltac run_pass st b rest :=
  apply (reach_pass no_shuffle st b rest);
  [ | vm_compute; reflexivity | vm_compute; discriminate
    | vm_compute; reflexivity ].

Lemma sB0_reachable : reachable no_shuffle sB0.
Proof.
  apply (reach_setup no_shuffle 0 (example_bm 4 2 2) (example_cfg false false)).
  - apply example_config_ok; lia.
  - vm_compute. reflexivity.
Qed.

Lemma sB1_reachable : reachable no_shuffle sB1.
Proof. run_report sB0 (mk_slice 0 2). exact sB0_reachable. Qed.

Lemma sB2_reachable : reachable no_shuffle sB2.
Proof. run_report sB1 (mk_slice 2 5). exact sB1_reachable. Qed.

Lemma sB3_reachable : reachable no_shuffle sB3.
Proof. run_pass sB2 0%nat [1%nat]. exact sB2_reachable. Qed.

Lemma sB4_reachable : reachable no_shuffle sB4.
Proof. run_report sB3 (mk_slice 5 8). exact sB3_reachable. Qed.

Lemma sB5_reachable : reachable no_shuffle sB5.
Proof. run_pass sB4 1%nat (@nil nat). exact sB4_reachable. Qed.

Lemma sA0_reachable : reachable no_shuffle sA0.
Proof.
  apply (reach_setup no_shuffle 0 (example_bm 2 2 2) (example_cfg true false)).
  - apply example_config_ok; lia.
  - vm_compute. reflexivity.
Qed.

Lemma sA1_reachable : reachable no_shuffle sA1.
Proof. run_report sA0 (mk_slice 0 4). exact sA0_reachable. Qed.

Lemma sA2_reachable : reachable no_shuffle sA2.
Proof. run_pass sA1 0%nat [1%nat]. exact sA1_reachable. Qed.

Lemma sA3_reachable : reachable no_shuffle sA3.
Proof. run_pass sA2 1%nat (@nil nat). exact sA2_reachable. Qed.

Lemma sA4_reachable : reachable no_shuffle sA4.
Proof.
  apply (reach_return no_shuffle sA3 0%nat 1).
  - exact sA3_reachable.
  - in_flight_now.
  - vm_compute. reflexivity.
Qed.

Lemma sC1_reachable : reachable no_shuffle sC1.
Proof. run_report sC0 (mk_slice 0 2). exact sA0_reachable. Qed.

Lemma sC2_reachable : reachable no_shuffle sC2.
Proof. run_pass sC1 0%nat [1%nat]. exact sC1_reachable. Qed.

Lemma sC3_reachable : reachable no_shuffle sC3.
Proof. run_report sC2 (mk_slice 0 2). exact sC2_reachable. Qed.

Lemma sC4_reachable : reachable no_shuffle sC4.
Proof. run_pass sC3 1%nat (@nil nat). exact sC3_reachable. Qed.




(* ================================================================== *)
(** * Batch assembly: the stated properties *)

(** C7: when no batch buffer is free, or the records available over all
    devices are fewer than a batch, [_maybe_enqueue_new_training_batches]
    returns normally and leaves the whole state as it was: every merger
    untouched, no signal emitted, nothing released. *)
Theorem deferral_changes_nothing (shuffle : nat -> list Device -> list Device)
    (st : Batcher) :
  available_batches st = [] \/
  total_num_trajectories (slices_for_training st)
    < traj_per_training_iteration st ->
  _maybe_enqueue_new_training_batches shuffle st = (Ok tt, st).
Proof.
  intros H. unfold _maybe_enqueue_new_training_batches.
  rewrite run_bind_get. cbn [enqueue_loop]. rewrite run_bind_get.
  destruct (available_batches st) as [|b rest]; [reflexivity|].
  destruct H as [H|H]; [discriminate|].
  apply Z.ltb_lt in H. rewrite H. reflexivity.
Qed.

(** Scenario B, first half: with B = 4 and only [0,2) reported, nothing is
    assembled. *)
Lemma deferral_scenario_B :
  total_num_trajectories (slices_for_training sB1) = 2 /\
  traj_per_training_iteration sB1 = 4 /\
  _maybe_enqueue_new_training_batches no_shuffle sB1 = (Ok tt, sB1).
Proof.
  split; [reflexivity|]. split; [reflexivity|].
  apply (deferral_changes_nothing no_shuffle sB1).
  right. vm_compute. reflexivity.
Defined.

Lemma In_records_of (d : Device) (i : Z) (P : list (Device * slice)) :
  In (d, i) (records_of P) <-> (1 <= occ d i P)%nat.
Proof.
  rewrite occ_In. unfold records_of, read_records. rewrite in_flat_map. split.
  - intros ([d' s] & Hx & Hi). simpl in Hi. apply in_map_iff in Hi.
    destruct Hi as (j & [= -> ->] & Hj). exists s. split; [assumption|].
    now apply In_slice_indices.
  - intros (s & Hs & Hi). exists (d, s). split; [assumption|]. simpl.
    apply in_map. now apply In_slice_indices.
Qed.

Lemma batch_records_written (st : Batcher) (b : nat) (l : list record) :
  nth_error (training_batches st) b = Some (map Some l) ->
  batch_records st b = l.
Proof.
  intros H. unfold batch_records. rewrite (nth_error_nth _ _ _ H). clear H.
  induction l as [|r l IH]; simpl; [reflexivity|]. now rewrite IH.
Qed.

Lemma occ_nth_error_le (d : Device) (i : Z)
    (l : list (list (Device * slice))) (n : nat) (P : list (Device * slice)) :
  nth_error l n = Some P -> (occ d i P <= occ d i (List.concat l))%nat.
Proof.
  intros H. apply nth_error_split in H. destruct H as (l1 & l2 & -> & _).
  rewrite occ_concat_middle. lia.
Qed.

Lemma occ_two_le (d : Device) (i : Z) (l : list (list (Device * slice)))
    (n m : nat) (P Q : list (Device * slice)) :
  n <> m -> nth_error l n = Some P -> nth_error l m = Some Q ->
  (occ d i P + occ d i Q <= occ d i (List.concat l))%nat.
Proof.
  intros Hne HP HQ. apply nth_error_split in HP.
  destruct HP as (l1 & l2 & -> & Hn). rewrite occ_concat_middle.
  destruct (Nat.ltb_spec m (List.length l1)) as [Hlt|Hge].
  - rewrite nth_error_app1 in HQ by assumption.
    pose proof (occ_nth_error_le d i l1 m Q HQ). lia.
  - rewrite nth_error_app2 in HQ by assumption.
    destruct (m - List.length l1)%nat as [|k] eqn:Ek; [lia|]. simpl in HQ.
    pose proof (occ_nth_error_le d i l2 k Q HQ). lia.
Qed.

Section Claims.
Variable shuffle : nat -> list Device -> list Device.
Hypothesis shuffle_perm : forall k l, Permutation (shuffle k l) l.


(** C4, as the code has it: in synchronous mode, in every state of a
    run, two distinct batch buffers in flight hold no record in common. *)
Theorem in_flight_batches_disjoint (st : Batcher) (b1 b2 : nat) :
  reachable shuffle st ->
  async_rl (cfg st) = false ->
  b1 <> b2 -> in_flight st b1 -> in_flight st b2 ->
  Forall (fun r => ~ In r (batch_records st b2)) (batch_records st b1).
Proof.
  intros Hr Hmode Hne H1 H2.
  pose proof (reachable_BInv shuffle shuffle_perm st Hr) as Hinv.
  pose proof (inv_in_flight _ Hinv Hmode b1 H1) as E1.
  pose proof (inv_in_flight _ Hinv Hmode b2 H2) as E2.
  rewrite (batch_records_written _ _ _ E1), (batch_records_written _ _ _ E2).
  assert (Hlen : List.length (traj_tensors_to_release st)
                 = max_batches_to_accumulate st) by apply Hinv.
  destruct (nth_error (traj_tensors_to_release st) b1) as [P|] eqn:EP;
    [|apply nth_error_None in EP; destruct H1; lia].
  destruct (nth_error (traj_tensors_to_release st) b2) as [Q|] eqn:EQ;
    [|apply nth_error_None in EQ; destruct H2; lia].
  rewrite (nth_error_nth _ _ _ EP), (nth_error_nth _ _ _ EQ).
  apply Forall_forall. intros [d i] HinP HinQ.
  apply In_records_of in HinP, HinQ.
  pose proof (occ_two_le d i _ _ _ _ _ Hne EP EQ) as Hsum.
  pose proof (inv_exclusive _ (inv_core _ Hinv) d i) as Hex.
  unfold held in Hex. rewrite !occ_app in Hex. lia.
Qed.

(** C8: in asynchronous mode, in every state of a run, the stop and
    resume signals emitted so far alternate, starting with a stop, and
    the phase they leave is paused exactly when the pool has no free
    buffer.  A pass of the assembling loop emits the stop signal once,
    after the batch is announced and its slots released, exactly when it
    took the last free buffer; the return of a buffer emits the resume
    signal once exactly when no buffer was free. *)
Theorem flow_control_edge_triggered (st : Batcher) :
  reachable shuffle st ->
  async_rl (cfg st) = true ->
  flow_phase Collecting (emitted st) = Some (expected_phase st) /\
  (forall b rest st',
      available_batches st = b :: rest ->
      traj_per_training_iteration st
        <= total_num_trajectories (slices_for_training st) ->
      enqueue_pass shuffle b (set_available_batches rest st) = (Ok tt, st') ->
      emitted st'
      = emitted st ++
        [TrainingBatchesAvailable b;
         TrajectoryBuffersAvailable (policy_id st) (training_iteration st)] ++
        match rest with
        | [] => [StopExperienceCollection]
        | _ :: _ => []
        end) /\
  (forall b it st',
      in_flight st b ->
      return_batch b it st = (Ok tt, st') ->
      emitted st'
      = emitted st ++
        match available_batches st with
        | [] => [ResumeExperienceCollection]
        | _ :: _ => []
        end).
Proof.
  intros Hr Hmode.
  pose proof (reachable_BInv shuffle shuffle_perm st Hr) as Hinv.
  split; [|split].
  - apply (reachable_flow shuffle shuffle_perm st Hr Hmode).
  - intros b rest st' Hav Hguard Hrun.
    destruct (enqueue_pass_spec shuffle shuffle_perm st b rest Hinv Hav Hguard)
      as (st'' & xs & E & _ & _ & _ & _ & _ & _ & _ & _ & Hem & _).
    rewrite E in Hrun. injection Hrun as <-.
    rewrite Hem, Hmode. reflexivity.
  - intros b it st' Hfl Hrun.
    destruct (return_batch_spec st b it Hinv Hfl)
      as (st'' & E & _ & _ & _ & _ & Hem & _).
    rewrite E in Hrun. injection Hrun as <-.
    rewrite Hem, Hmode. reflexivity.
Qed.


End Claims.


(** Scenario B continued: buffers 0 and 1 are both in flight, with the
    records of [0,4) and of [4,8). *)
Lemma in_flight_batches_disjoint_example :
  batch_records sB5 0 = [("cpu"%string, 0); ("cpu"%string, 1);
                         ("cpu"%string, 2); ("cpu"%string, 3)] /\
  batch_records sB5 1 = [("cpu"%string, 4); ("cpu"%string, 5);
                         ("cpu"%string, 6); ("cpu"%string, 7)] /\
  Forall (fun r => ~ In r (batch_records sB5 1)) (batch_records sB5 0).
Proof.
  split; [reflexivity|]. split; [reflexivity|].
  apply (in_flight_batches_disjoint no_shuffle no_shuffle_perm sB5 0%nat 1%nat).
  - exact sB5_reachable.
  - reflexivity.
  - discriminate.
  - in_flight_now.
  - in_flight_now.
Defined.

(** In asynchronous mode the slots of a batch are released when the batch
    is announced: the producers may fill [0,2) again while buffer 0 is
    still with the learner, and buffer 1 then holds the same slots. *)
Lemma async_batches_share_slots :
  async_rl (cfg sC0) = true /\
  reachable no_shuffle sC0 /\
  on_new_trajectories no_shuffle [report (mk_slice 0 2)] "cpu"%string sC0
  = (Ok tt, sC2) /\
  producer_ok sC2 [report (mk_slice 0 2)] "cpu"%string /\
  on_new_trajectories no_shuffle [report (mk_slice 0 2)] "cpu"%string sC2
  = (Ok tt, sC4) /\
  reachable no_shuffle sC4 /\
  in_flight sC4 0 /\ in_flight sC4 1 /\
  In ("cpu"%string, 0) (batch_records sC4 0) /\
  In ("cpu"%string, 0) (batch_records sC4 1).
Proof.
  split; [reflexivity|]. split; [exact sA0_reachable|].
  split; [vm_compute; reflexivity|].
  split; [apply example_producer_ok; vm_compute; reflexivity|].
  split; [vm_compute; reflexivity|].
  split; [exact sC4_reachable|].
  split; [in_flight_now|].
  split; [in_flight_now|].
  split; vm_compute; auto.
Qed.

(** A pool of two buffers: both get ready one after the other and the stop
    signal is emitted once; the return of a buffer emits the resume signal
    once. *)
Lemma flow_control_two_buffers :
  emitted sA3
  = [Initialized;
     TrainingBatchesAvailable 0; TrajectoryBuffersAvailable 0 0;
     TrainingBatchesAvailable 1; TrajectoryBuffersAvailable 0 0;
     StopExperienceCollection] /\
  count_event StopExperienceCollection (emitted sA3) = 1%nat /\
  flow_phase Collecting (emitted sA3) = Some Paused /\
  emitted sA4 = emitted sA3 ++ [ResumeExperienceCollection].
Proof.
  split; [reflexivity|]. split; [reflexivity|]. split.
  - exact (proj1 (flow_control_edge_triggered no_shuffle no_shuffle_perm sA3
                    sA3_reachable eq_refl)).
  - apply (proj2 (proj2 (flow_control_edge_triggered no_shuffle no_shuffle_perm
                           sA3 sA3_reachable eq_refl)) 0%nat 1 sA4).
    + in_flight_now.
    + reflexivity.
Defined.




(* ================================================================== *)
(** * The saving batcher and the modes it does not implement *)

Lemma bind_ok_inv {S A B : Type} (m : M S A) (f : A -> M S B) (s s' : S) (b : B) :
  bind m f s = (Ok b, s') ->
  exists a s1, m s = (Ok a, s1) /\ f a s1 = (Ok b, s').
Proof.
  unfold bind. destruct (m s) as [[a|e] s1]; [eauto|discriminate].
Qed.

Lemma run_bind_raise_now {S A B : Type} (e : exn) (f : A -> M S B) (s : S) :
  bind (raise e) f s = (Raise e, s).
Proof. reflexivity. Qed.

Ltac invert_binds H :=
  repeat (apply bind_ok_inv in H;
          let a := fresh "a" in
          let s := fresh "s" in
          let E := fresh "E" in
          destruct H as (a & s & E & H)).

Section SavingClaims.
Variable ops : DatasetOps.

Lemma saving_init_ok (pid : PolicyID) (bm : BufferMgr) (c : Cfg)
    (spaces : dict string RNNSpace) :
  get_rnn_info c = Ok spaces ->
  exists st,
    saving_init ops (SavingBatcher_init ops pid bm c) = (Ok tt, st) /\
    emitted (sb_base st) = [Initialized] /\
    cfg (sb_base st) = c.
Proof.
  intros Hrnn. eexists. split.
  - unfold saving_init. rewrite run_bind_get.
    rewrite (run_bind_lift _ spaces) by exact Hrnn.
    rewrite !run_bind_modify. reflexivity.
  - split; reflexivity.
Qed.

Lemma saving_release_batched (st : SavingBatcher ops) :
  batched_sampling (cfg (sb_base st)) = true ->
  saving_release_traj_tensors ops st = (Raise NotImplementedError, st).
Proof.
  intros Hmode. unfold saving_release_traj_tensors.
  rewrite run_bind_get, Hmode. reflexivity.
Qed.

Lemma saving_enqueue_async_ok (st st' : SavingBatcher ops) :
  async_rl (cfg (sb_base st)) = true ->
  saving_maybe_enqueue_new_training_batches ops st = (Ok tt, st') ->
  available_batches (sb_base st) = [] /\ st' = st.
Proof.
  intros Hmode Hrun. unfold saving_maybe_enqueue_new_training_batches in Hrun.
  rewrite run_bind_get in Hrun. cbn [saving_enqueue_loop] in Hrun.
  rewrite run_bind_get in Hrun.
  destruct (available_batches (sb_base st)) as [|b rest].
  - injection Hrun as <-. auto.
  - exfalso. rewrite Hmode in Hrun.
    do 7 (apply bind_ok_inv in Hrun;
          destruct Hrun as (? & ? & _ & Hrun)).
    rewrite run_bind_raise_now in Hrun. discriminate.
Qed.

Lemma saving_enqueue_async_announces (st : SavingBatcher ops) (b : nat)
    (rest : list nat) (buf batch : list (option record)) (ds : Dataset ops)
    (it it' : DataIter ops) :
  async_rl (cfg (sb_base st)) = true ->
  available_batches (sb_base st) = b :: rest ->
  nth_error (traj_tensors_to_release (sb_base st)) b = Some [] ->
  nth_error (training_batches (sb_base st)) b = Some buf ->
  sb_dataset st = Some ds -> _data_iter st = Some it ->
  loader_next ops ds it = Some (batch, it') ->
  exists st',
    saving_maybe_enqueue_new_training_batches ops st
    = (Raise NotImplementedError, st') /\
    emitted (sb_base st') = emitted (sb_base st) ++ [TrainingBatchesAvailable b].
Proof.
  intros Hmode Hav Hrel Hbuf Hds Hit Hnext.
  apply nth_error_split in Hbuf. destruct Hbuf as (B1 & B2 & HB & HB1).
  eexists. split.
  - unfold saving_maybe_enqueue_new_training_batches.
    rewrite run_bind_get. cbn [saving_enqueue_loop]. rewrite run_bind_get.
    rewrite Hav, Hmode. rewrite run_bind_modify.
    rewrite (run_bind_lift _ [])
      by (unfold list_lookup; rewrite Hrel; reflexivity).
    rewrite run_bind_assert by reflexivity.
    erewrite run_bind_ok.
    2:{ unfold next_batch. rewrite run_bind_get. simpl.
        rewrite Hit, Hds, Hnext. rewrite run_bind_modify. reflexivity. }
    rewrite (run_bind_lift _ (B1 ++ batch :: B2))
      by (rewrite HB, <- HB1; apply list_assign_middle).
    rewrite run_bind_modify. unfold sb_emit. rewrite run_bind_modify.
    rewrite run_bind_raise_now. reflexivity.
  - reflexivity.
Qed.

Lemma saving_released_async_raises (st st' : SavingBatcher ops) (b : nat)
    (it : Z) :
  async_rl (cfg (sb_base st)) = true ->
  saving_on_training_batch_released ops b it st <> (Ok tt, st').
Proof.
  intros Hmode Hrun. unfold saving_on_training_batch_released in Hrun.
  rewrite !run_bind_modify, run_bind_get in Hrun. cbv zeta in Hrun.
  simpl cfg in Hrun. rewrite Hmode in Hrun.
  do 2 (apply bind_ok_inv in Hrun;
        destruct Hrun as (? & ? & _ & Hrun)).
  discriminate.
Qed.

(** C10, as the code has it.  The saving batcher's setup reads neither
    [async_rl] nor [batched_sampling]: whenever [get_rnn_info] accepts
    the configuration, [init] completes and announces [initialized].  The
    unsupported modes fail during operation, with [NotImplementedError]:
    under batched sampling every call of [_release_traj_tensors] raises
    it; in asynchronous mode the assembling loop returns normally only
    when no batch buffer is free, raises it right after announcing a
    batch, and [on_training_batch_released] never returns normally. *)
Theorem saving_modes_fail_in_operation :
  (forall pid bm c spaces,
      get_rnn_info c = Ok spaces ->
      exists st,
        saving_init ops (SavingBatcher_init ops pid bm c) = (Ok tt, st) /\
        emitted (sb_base st) = [Initialized] /\
        cfg (sb_base st) = c) /\
  (forall st,
      batched_sampling (cfg (sb_base st)) = true ->
      saving_release_traj_tensors ops st = (Raise NotImplementedError, st)) /\
  (forall st st',
      async_rl (cfg (sb_base st)) = true ->
      saving_maybe_enqueue_new_training_batches ops st = (Ok tt, st') ->
      available_batches (sb_base st) = [] /\ st' = st) /\
  (forall st b rest buf batch ds it it',
      async_rl (cfg (sb_base st)) = true ->
      available_batches (sb_base st) = b :: rest ->
      nth_error (traj_tensors_to_release (sb_base st)) b = Some [] ->
      nth_error (training_batches (sb_base st)) b = Some buf ->
      sb_dataset st = Some ds -> _data_iter st = Some it ->
      loader_next ops ds it = Some (batch, it') ->
      exists st',
        saving_maybe_enqueue_new_training_batches ops st
        = (Raise NotImplementedError, st') /\
        emitted (sb_base st')
        = emitted (sb_base st) ++ [TrainingBatchesAvailable b]) /\
  (forall st st' b it,
      async_rl (cfg (sb_base st)) = true ->
      saving_on_training_batch_released ops b it st <> (Ok tt, st')).
Proof.
  split; [exact saving_init_ok|].
  split; [exact saving_release_batched|].
  split; [exact saving_enqueue_async_ok|].
  split; [exact saving_enqueue_async_announces|].
  exact saving_released_async_raises.
Qed.
End SavingClaims.

(** With batched sampling the first release raises: here the learner's
    first acknowledgement asks for more data. *)
Lemma saving_release_batched_example :
  batched_sampling (cfg (sb_base sT1)) = true /\
  saving_release_traj_tensors (list_dataset 1) sT1
  = (Raise NotImplementedError, sT1).
Proof.
  split; [vm_compute; reflexivity|].
  apply (proj1 (proj2 (saving_modes_fail_in_operation (list_dataset 1))) sT1).
  vm_compute; reflexivity.
Defined.

(** The unsupported modes are not refused at setup.  In asynchronous mode
    [init] completes and announces [initialized]; the first report then
    announces training batch 0 and raises.  With batched sampling [init]
    completes, the first report announces two training batches, and the
    learner's first acknowledgement raises. *)
Lemma saving_starts_then_fails :
  async_rl (example_cfg true false) = true /\
  saving_init (list_dataset 1)
    (SavingBatcher_init (list_dataset 1) 0 (example_bm 2 2 2)
       (example_cfg true false))
  = (Ok tt, sS0) /\
  emitted (sb_base sS0) = [Initialized] /\
  saving_on_new_trajectories (list_dataset 1) no_shuffle
    [report (mk_slice 0 2)] "cpu"%string sS0
  = (Raise NotImplementedError, sS1) /\
  emitted (sb_base sS1) = [Initialized; TrainingBatchesAvailable 0] /\
  batched_sampling (example_cfg false true) = true /\
  saving_init (list_dataset 1)
    (SavingBatcher_init (list_dataset 1) 0 (example_bm 2 2 2)
       (example_cfg false true))
  = (Ok tt, sT0) /\
  saving_on_new_trajectories (list_dataset 1) no_shuffle
    [report (mk_slice 0 2)] "cpu"%string sT0
  = (Ok tt, sT1) /\
  emitted (sb_base sT1)
  = [Initialized; TrainingBatchesAvailable 0; TrainingBatchesAvailable 1] /\
  saving_on_training_batch_released (list_dataset 1) 0 1 sT1
  = (Raise NotImplementedError, sT2).
Proof.
  repeat match goal with |- _ /\ _ => split end; vm_compute; reflexivity.
Qed.


(* ================================================================== *)
(** * The range merger: further properties *)

(** ** Insertion is not validated *)

Lemma length_dict_set_le {K V : Type} `{Key K} (d : dict K V) (k : K) (v : V) :
  (List.length (dict_set d k v) <= S (List.length d))%nat.
Proof.
  induction d as [|[k' v'] d IH]; simpl; [lia|].
  destruct (key_eqb k' k); simpl; lia.
Qed.

Lemma dict_set_same {K V : Type} `{Key K} (d : dict K V) (k : K) (v : V) :
  dict_get d k = Some v -> dict_set d k v = d.
Proof.
  induction d as [|[k' v'] d IH]; simpl; [discriminate|].
  destruct (key_eqb_spec k' k) as [->|_].
  - now intros [= ->].
  - intros E. now rewrite IH.
Qed.

Lemma wf_ranges_single (s : slice) : nonempty s -> wf_ranges [s].
Proof. intros Hs. split; simpl; auto. Qed.

Lemma merge_slices_rec_total (fuel : nat) :
  forall (L : list slice) (ts : slice),
    wf_ranges L -> (List.length L < fuel)%nat ->
    exists m',
      merge_slices_rec fuel (of_ranges L) ts = Ok m' /\
      total_num m' = sum_len L + slice_len ts /\
      (List.length (ranges m') <= S (List.length L))%nat.
Proof.
  induction fuel as [|fuel IH]; intros L ts Hwf Hfuel; [lia|].
  simpl. rewrite dict_get_index_by.
  destruct (find (fun s => stop s =? start ts) L) as [p|] eqn:Eprev.
  - apply find_some in Eprev. destruct Eprev as [Hin Hk].
    apply Z.eqb_eq in Hk.
    destruct (in_split _ _ Hin) as (L1 & L2 & ->).
    rewrite del_slice_of_ranges by assumption.
    destruct (wf_ranges_split _ _ _ Hwf) as (Hwf' & _ & _).
    rewrite length_app in Hfuel. simpl in Hfuel.
    destruct (IH (L1 ++ L2) (mk_slice (start p) (stop ts)) Hwf')
      as (m' & E & Htot & Hlen); [rewrite length_app; lia|].
    exists m'. split; [exact E|]. split.
    + rewrite Htot, !sum_len_app. simpl. unfold slice_len; simpl. lia.
    + rewrite length_app in *. simpl. lia.
  - rewrite dict_get_index_by.
    destruct (find (fun s => start s =? stop ts) L) as [p|] eqn:Enext.
    + apply find_some in Enext. destruct Enext as [Hin Hk].
      apply Z.eqb_eq in Hk.
      destruct (in_split _ _ Hin) as (L1 & L2 & ->).
      rewrite del_slice_of_ranges by assumption.
      destruct (wf_ranges_split _ _ _ Hwf) as (Hwf' & _ & _).
      rewrite length_app in Hfuel. simpl in Hfuel.
      destruct (IH (L1 ++ L2) (mk_slice (start ts) (stop p)) Hwf')
        as (m' & E & Htot & Hlen); [rewrite length_app; lia|].
      exists m'. split; [exact E|]. split.
      * rewrite Htot, !sum_len_app. simpl. unfold slice_len; simpl. lia.
      * rewrite length_app in *. simpl. lia.
    + eexists. split; [reflexivity|]. split; [reflexivity|].
      unfold ranges, dict_values. simpl. rewrite length_map.
      etransitivity; [apply length_dict_set_le|].
      rewrite length_index_by. lia.
Qed.

(** X1: [merge_slices] checks nothing about the slice it is given: on a
    well-formed merger it returns normally for every slice, empty,
    reversed or overlapping a stored range, and it always adds the
    length of the slice to [total_num]. *)
Theorem merge_slices_accepts_any_slice (m : SliceMerger) (s : slice) :
  SInv m ->
  exists m',
    merge_slices m s = Ok m' /\
    total_num m' = total_num m + slice_len s /\
    (List.length (ranges m') <= S (List.length (ranges m)))%nat.
Proof.
  intros Hinv. destruct (SInv_elim m Hinv) as (L & -> & Hwf & _).
  rewrite ranges_of_ranges. unfold merge_slices.
  apply merge_slices_rec_total; [assumption|].
  simpl. rewrite length_index_by. lia.
Qed.

(** [1,3) overlaps the stored [0,5): no error, and five slots count as
    seven. *)
Lemma merge_slices_accepts_overlap :
  merge_slices (of_ranges [mk_slice 0 5]) (mk_slice 1 3)
  = Ok (mk_merger [(0, mk_slice 0 5); (1, mk_slice 1 3)]
                  [(5, mk_slice 0 5); (3, mk_slice 1 3)] 7) /\
  exists m',
    merge_slices (of_ranges [mk_slice 0 5]) (mk_slice 1 3) = Ok m' /\
    total_num m' = total_num (of_ranges [mk_slice 0 5]) + slice_len (mk_slice 1 3) /\
    (List.length (ranges m')
     <= S (List.length (ranges (of_ranges [mk_slice 0 5]))))%nat.
Proof.
  split; [reflexivity|].
  apply (merge_slices_accepts_any_slice (of_ranges [mk_slice 0 5]) (mk_slice 1 3)).
  apply SInv_of_ranges, wf_ranges_single. unfold nonempty; simpl; lia.
Defined.

Lemma find_none_wf_stop (L : list slice) (s : slice) :
  wf_ranges L -> In s L -> find (fun t => stop t =? start s) L = None.
Proof.
  intros Hwf Hs.
  destruct (find (fun t => stop t =? start s) L) as [t|] eqn:E; [|reflexivity].
  exfalso. apply find_some in E. destruct E as [Ht Hk]. apply Z.eqb_eq in Hk.
  pose proof (wf_ranges_nonempty _ _ Hwf Hs) as Hns.
  pose proof (wf_ranges_nonempty _ _ Hwf Ht) as Hnt.
  destruct (wf_ranges_In L t s Hwf Ht Hs) as [->|Hsep];
    unfold separated, nonempty in *; lia.
Qed.

Lemma find_none_wf_start (L : list slice) (s : slice) :
  wf_ranges L -> In s L -> find (fun t => start t =? stop s) L = None.
Proof.
  intros Hwf Hs.
  destruct (find (fun t => start t =? stop s) L) as [t|] eqn:E; [|reflexivity].
  exfalso. apply find_some in E. destruct E as [Ht Hk]. apply Z.eqb_eq in Hk.
  pose proof (wf_ranges_nonempty _ _ Hwf Hs) as Hns.
  pose proof (wf_ranges_nonempty _ _ Hwf Ht) as Hnt.
  destruct (wf_ranges_In L t s Hwf Ht Hs) as [->|Hsep];
    unfold separated, nonempty in *; lia.
Qed.

Lemma find_by_start_wf (L : list slice) (s : slice) :
  wf_ranges L -> In s L -> find (fun t => start t =? start s) L = Some s.
Proof.
  intros Hwf Hs.
  destruct (find (fun t => start t =? start s) L) as [t|] eqn:E.
  - apply find_some in E. destruct E as [Ht Hk]. apply Z.eqb_eq in Hk.
    pose proof (wf_ranges_nonempty _ _ Hwf Hs) as Hns.
    pose proof (wf_ranges_nonempty _ _ Hwf Ht) as Hnt.
    destruct (wf_ranges_In L t s Hwf Ht Hs) as [->|Hsep]; [reflexivity|].
    unfold separated, nonempty in *; lia.
  - exfalso. apply (find_none _ _ E) in Hs. rewrite Z.eqb_refl in Hs.
    discriminate.
Qed.

Lemma find_by_stop_wf (L : list slice) (s : slice) :
  wf_ranges L -> In s L -> find (fun t => stop t =? stop s) L = Some s.
Proof.
  intros Hwf Hs.
  destruct (find (fun t => stop t =? stop s) L) as [t|] eqn:E.
  - apply find_some in E. destruct E as [Ht Hk]. apply Z.eqb_eq in Hk.
    pose proof (wf_ranges_nonempty _ _ Hwf Hs) as Hns.
    pose proof (wf_ranges_nonempty _ _ Hwf Ht) as Hnt.
    destruct (wf_ranges_In L t s Hwf Ht Hs) as [->|Hsep]; [reflexivity|].
    unfold separated, nonempty in *; lia.
  - exfalso. apply (find_none _ _ E) in Hs. rewrite Z.eqb_refl in Hs.
    discriminate.
Qed.

(** X2: A range that is stored already can be inserted again: both maps stay
    as they were, one entry for the range, but its slots are counted a
    second time, and [total_num] no longer is the recount. *)
Theorem merge_slices_twice_counts_twice (m : SliceMerger) (s : slice) :
  SInv m -> In s (ranges m) ->
  exists m',
    merge_slices m s = Ok m' /\
    slice_starts m' = slice_starts m /\
    slice_stops m' = slice_stops m /\
    total_num m' = sum_len (ranges m') + slice_len s /\
    sum_len (ranges m') < total_num m'.
Proof.
  intros Hinv Hs. destruct (SInv_elim m Hinv) as (L & -> & Hwf & _).
  rewrite ranges_of_ranges in Hs.
  pose proof (wf_ranges_nonempty _ _ Hwf Hs) as Hns.
  eexists. split.
  - unfold merge_slices. simpl.
    rewrite dict_get_index_by, (find_none_wf_stop L s Hwf Hs).
    rewrite dict_get_index_by, (find_none_wf_start L s Hwf Hs).
    reflexivity.
  - unfold _add_slice, ranges. simpl.
    rewrite !dict_set_same
      by (rewrite dict_get_index_by;
          first [apply find_by_start_wf | apply find_by_stop_wf]; assumption).
    rewrite dict_values_index_by.
    split; [reflexivity|]. split; [reflexivity|]. split; [reflexivity|].
    unfold nonempty, slice_len in *. lia.
Qed.

(** [0,3) reported twice: one range, six slots counted. *)
Lemma merge_slices_twice_example :
  merge_slices (of_ranges [mk_slice 0 3]) (mk_slice 0 3)
  = Ok (mk_merger [(0, mk_slice 0 3)] [(3, mk_slice 0 3)] 6) /\
  exists m',
    merge_slices (of_ranges [mk_slice 0 3]) (mk_slice 0 3) = Ok m' /\
    slice_starts m' = slice_starts (of_ranges [mk_slice 0 3]) /\
    slice_stops m' = slice_stops (of_ranges [mk_slice 0 3]) /\
    total_num m' = sum_len (ranges m') + slice_len (mk_slice 0 3) /\
    sum_len (ranges m') < total_num m'.
Proof.
  split; [reflexivity|].
  apply (merge_slices_twice_counts_twice (of_ranges [mk_slice 0 3]) (mk_slice 0 3)).
  - apply SInv_of_ranges, wf_ranges_single. unfold nonempty; simpl; lia.
  - simpl. auto.
Defined.

(** ** The stored ranges are determined by the slots they cover *)

Lemma wf_ranges_tail (s : slice) (L : list slice) :
  wf_ranges (s :: L) -> wf_ranges L.
Proof.
  intros [Hne Hpw]. split.
  - apply (proj2 (proj1 (Forall_cons_iff _ _ _) Hne)).
  - apply Hpw.
Qed.

Lemma sorted_wf_after_head (s : slice) (L : list slice) :
  StronglySorted le_start (s :: L) -> wf_ranges (s :: L) ->
  forall t, In t L -> stop s < start t.
Proof.
  intros Hs Hwf t Ht.
  apply StronglySorted_inv in Hs. destruct Hs as [_ Hall].
  rewrite Forall_forall in Hall. specialize (Hall t Ht).
  pose proof (wf_ranges_nonempty _ _ Hwf (or_intror Ht)) as Hnt.
  destruct Hwf as [_ [Hsep _]]. rewrite Forall_forall in Hsep.
  specialize (Hsep t Ht).
  unfold le_start, separated, nonempty in *; lia.
Qed.

Lemma sorted_wf_head_least (s : slice) (L : list slice) (i : Z) :
  StronglySorted le_start (s :: L) -> covered i (s :: L) -> start s <= i.
Proof.
  intros Hs (t & Ht & Hi).
  apply StronglySorted_inv in Hs. destruct Hs as [_ Hall].
  rewrite Forall_forall in Hall. unfold in_slice in Hi.
  destruct Ht as [<-|Ht]; [lia|].
  specialize (Hall t Ht). unfold le_start in Hall. lia.
Qed.

Lemma sorted_wf_head_stop (s s' : slice) (L L' : list slice) :
  StronglySorted le_start (s :: L) -> wf_ranges (s :: L) ->
  wf_ranges (s' :: L') ->
  start s = start s' ->
  (forall i, covered i (s' :: L') -> covered i (s :: L)) ->
  stop s' <= stop s.
Proof.
  intros Hs Hwf Hwf' Hstart Hcov.
  destruct (Z_le_gt_dec (stop s') (stop s)) as [|Hgt]; [assumption|exfalso].
  pose proof (wf_ranges_nonempty _ _ Hwf (or_introl eq_refl)) as Hns.
  assert (Hc : covered (stop s) (s :: L)).
  { apply Hcov. exists s'. split; [left; reflexivity|].
    unfold in_slice, nonempty in *. lia. }
  destruct Hc as (t & [<-|Ht] & Hi); unfold in_slice in Hi; [lia|].
  pose proof (sorted_wf_after_head s L Hs Hwf t Ht). lia.
Qed.

Lemma wf_sorted_unique (L : list slice) :
  forall L',
    wf_ranges L -> wf_ranges L' ->
    StronglySorted le_start L -> StronglySorted le_start L' ->
    (forall i, covered i L <-> covered i L') ->
    L = L'.
Proof.
  induction L as [|s L IH]; intros [|s' L'] Hwf Hwf' Hs Hs' Hcov.
  - reflexivity.
  - exfalso. pose proof (wf_ranges_nonempty _ _ Hwf' (or_introl eq_refl)) as Hn.
    apply (covered_nil (start s')). apply Hcov. exists s'.
    split; [left; reflexivity|]. unfold in_slice, nonempty in *. lia.
  - exfalso. pose proof (wf_ranges_nonempty _ _ Hwf (or_introl eq_refl)) as Hn.
    apply (covered_nil (start s)). apply Hcov. exists s.
    split; [left; reflexivity|]. unfold in_slice, nonempty in *. lia.
  - pose proof (wf_ranges_nonempty _ _ Hwf (or_introl eq_refl)) as Hn.
    pose proof (wf_ranges_nonempty _ _ Hwf' (or_introl eq_refl)) as Hn'.
    assert (Hstart : start s = start s').
    { assert (H1 : start s' <= start s).
      { apply (sorted_wf_head_least s' L' (start s) Hs'). apply Hcov.
        exists s. split; [left; reflexivity|].
        unfold in_slice, nonempty in *. lia. }
      assert (H2 : start s <= start s').
      { apply (sorted_wf_head_least s L (start s') Hs). apply Hcov.
        exists s'. split; [left; reflexivity|].
        unfold in_slice, nonempty in *. lia. }
      lia. }
    assert (Hstop : stop s = stop s').
    { pose proof (sorted_wf_head_stop s s' L L' Hs Hwf Hwf' Hstart
                    (fun i => proj2 (Hcov i))).
      pose proof (sorted_wf_head_stop s' s L' L Hs' Hwf' Hwf (eq_sym Hstart)
                    (fun i => proj1 (Hcov i))).
      lia. }
    assert (E : s = s').
    { rewrite <- (slice_eta s), <- (slice_eta s'). now rewrite Hstart, Hstop. }
    subst s'. f_equal.
    apply IH.
    + now apply wf_ranges_tail in Hwf.
    + now apply wf_ranges_tail in Hwf'.
    + now apply StronglySorted_inv in Hs.
    + now apply StronglySorted_inv in Hs'.
    + intros i. split; intros (t & Ht & Hi).
      * assert (Hc : covered i (s :: L')).
        { apply Hcov. exists t. split; [right; assumption|assumption]. }
        destruct Hc as (u & [<-|Hu] & Hiu); [|exists u; auto].
        exfalso. pose proof (sorted_wf_after_head s L Hs Hwf t Ht).
        unfold in_slice in *. lia.
      * assert (Hc : covered i (s :: L)).
        { apply Hcov. exists t. split; [right; assumption|assumption]. }
        destruct Hc as (u & [<-|Hu] & Hiu); [|exists u; auto].
        exfalso. pose proof (sorted_wf_after_head s L' Hs' Hwf' t Ht).
        unfold in_slice in *. lia.
Qed.

Lemma sort_by_start_unique (L L' : list slice) :
  wf_ranges L -> wf_ranges L' ->
  (forall i, covered i L <-> covered i L') ->
  sort_by_start L = sort_by_start L'.
Proof.
  intros Hwf Hwf' Hcov. apply wf_sorted_unique.
  - eapply wf_ranges_perm; [symmetry; apply sort_by_start_perm|assumption].
  - eapply wf_ranges_perm; [symmetry; apply sort_by_start_perm|assumption].
  - apply sort_by_start_sorted.
  - apply sort_by_start_sorted.
  - intros i. split; intros Hc.
    + eapply covered_perm; [symmetry; apply sort_by_start_perm|].
      apply Hcov. eapply covered_perm; [apply sort_by_start_perm|exact Hc].
    + eapply covered_perm; [symmetry; apply sort_by_start_perm|].
      apply Hcov. eapply covered_perm; [apply sort_by_start_perm|exact Hc].
Qed.

(** X3: The order in which non-overlapping ranges arrive does not matter: two
    insertion orders of the same ranges leave the same ranges, up to the
    iteration order of the maps, and the same [total_num]. *)
Theorem merge_all_order_irrelevant (rs rs' : list slice) :
  Forall nonempty rs -> pairwise disjoint rs -> Permutation rs rs' ->
  exists m m',
    merge_all SliceMerger_init rs = Ok m /\
    merge_all SliceMerger_init rs' = Ok m' /\
    sort_by_start (ranges m) = sort_by_start (ranges m') /\
    total_num m = total_num m'.
Proof.
  intros Hne Hpw Hperm.
  destruct (merge_all_spec rs [] wf_ranges_nil Hne Hpw)
    as (L & E & Hwf & Hcov & Hsum).
  { intros r i _ _ Hc. eapply covered_nil; eauto. }
  destruct (merge_all_spec rs' [] wf_ranges_nil)
    as (L' & E' & Hwf' & Hcov' & Hsum').
  { eapply Permutation_Forall; eauto. }
  { eapply pairwise_perm; eauto. apply disjoint_sym. }
  { intros r i _ _ Hc. eapply covered_nil; eauto. }
  exists (of_ranges L), (of_ranges L').
  split; [exact E|]. split; [exact E'|]. rewrite !ranges_of_ranges. split.
  - apply sort_by_start_unique; try assumption.
    intros i. rewrite Hcov, Hcov'. split; intros [Hc|Hc];
      try (exfalso; eapply covered_nil; eassumption); right.
    + eapply covered_perm; eauto.
    + eapply covered_perm; [symmetry|]; eauto.
  - simpl. rewrite Hsum, Hsum'. f_equal. now apply sum_len_perm.
Qed.

(** [0,2), [5,7), [2,5) in two orders: the single range [0,7) both times. *)
Lemma merge_all_order_example :
  merge_all SliceMerger_init [mk_slice 0 2; mk_slice 5 7; mk_slice 2 5]
  = Ok (of_ranges [mk_slice 0 7]) /\
  merge_all SliceMerger_init [mk_slice 2 5; mk_slice 0 2; mk_slice 5 7]
  = Ok (of_ranges [mk_slice 0 7]) /\
  exists m m',
    merge_all SliceMerger_init [mk_slice 0 2; mk_slice 5 7; mk_slice 2 5] = Ok m /\
    merge_all SliceMerger_init [mk_slice 2 5; mk_slice 0 2; mk_slice 5 7] = Ok m' /\
    sort_by_start (ranges m) = sort_by_start (ranges m') /\
    total_num m = total_num m'.
Proof.
  split; [reflexivity|]. split; [reflexivity|].
  apply (merge_all_order_irrelevant
           [mk_slice 0 2; mk_slice 5 7; mk_slice 2 5]
           [mk_slice 2 5; mk_slice 0 2; mk_slice 5 7]).
  - repeat apply Forall_cons; try apply Forall_nil; unfold nonempty; simpl; lia.
  - simpl. unfold disjoint; simpl.
    repeat split; repeat apply Forall_cons; try apply Forall_nil; cbn; lia.
  - apply Permutation_sym, (Permutation_cons_app [_; _] []). apply Permutation_refl.
Defined.

(** X4: Non-overlapping ranges that together make up the interval [a,b),
    inserted in any order, leave the single range [a,b). *)
Theorem merge_all_tiles_interval (rs : list slice) (a b : Z) :
  Forall nonempty rs -> pairwise disjoint rs -> a < b ->
  (forall i, (exists r, In r rs /\ start r <= i < stop r) <-> a <= i < b) ->
  merge_all SliceMerger_init rs = Ok (of_ranges [mk_slice a b]).
Proof.
  intros Hne Hpw Hab Htile.
  destruct (merge_all_spec rs [] wf_ranges_nil Hne Hpw)
    as (L & E & Hwf & Hcov & _).
  { intros r i _ _ Hc. eapply covered_nil; eauto. }
  change (merge_all SliceMerger_init rs) with (merge_all (of_ranges []) rs).
  rewrite E. do 2 f_equal.
  assert (Hsort : sort_by_start L = sort_by_start [mk_slice a b]).
  { apply sort_by_start_unique; [assumption|now apply wf_ranges_single|].
    intros i. rewrite Hcov. split.
    - intros [Hc|Hc]; [exfalso; eapply covered_nil; eauto|].
      apply Htile in Hc. exists (mk_slice a b). split; [left; reflexivity|].
      exact Hc.
    - intros (t & [<-|[]] & Hi). right. apply Htile. exact Hi. }
  simpl in Hsort.
  pose proof (sort_by_start_perm L) as Hp. rewrite Hsort in Hp.
  now apply Permutation_length_1_inv.
Qed.

(** Six single slots reported out of order make up [10,16). *)
Lemma merge_all_tiles_example :
  merge_all SliceMerger_init
    (map (fun i => mk_slice i (i + 1)) [12; 10; 15; 11; 14; 13])
  = Ok (of_ranges [mk_slice 10 16]).
Proof.
  apply (merge_all_tiles_interval
           (map (fun i => mk_slice i (i + 1)) [12; 10; 15; 11; 14; 13]) 10 16).
  - simpl. repeat apply Forall_cons; try apply Forall_nil;
      unfold nonempty; simpl; lia.
  - simpl. unfold disjoint; simpl.
    repeat split; repeat apply Forall_cons; try apply Forall_nil; cbn; lia.
  - lia.
  - intros i. simpl. split.
    + intros (r & Hr & Hi). intuition (subst; simpl in *; lia).
    + intros Hi.
      assert (H : i = 10 \/ i = 11 \/ i = 12 \/ i = 13 \/ i = 14 \/ i = 15) by lia.
      exists (mk_slice i (i + 1)). simpl. split; [|lia].
      intuition (subst; auto 10).
Defined.

(** ** Extraction and insertion are inverse to one another *)

Lemma merge_back_of_ranges (L1 L2 : list slice) (p0 : slice) (n : Z) :
  wf_ranges (L1 ++ p0 :: L2) -> 1 <= n ->
  exists L',
    merge_slices (of_ranges ((L1 ++ L2) ++ remainder_of p0 n)) (prefix_of p0 n)
    = Ok (of_ranges L') /\
    wf_ranges L' /\
    (forall i, covered i L' <-> covered i (L1 ++ p0 :: L2)) /\
    sum_len L' = sum_len (L1 ++ p0 :: L2).
Proof.
  intros Hwf Hn.
  destruct (wf_ranges_split _ _ _ Hwf) as (Hwf' & Hp0 & Hsep).
  assert (Hwfr : wf_ranges ((L1 ++ L2) ++ remainder_of p0 n))
    by (apply wf_ranges_remainder; [assumption|lia]).
  destruct (merge_slices_spec ((L1 ++ L2) ++ remainder_of p0 n) (prefix_of p0 n) Hwfr)
    as (L' & E & Hwf'' & Hcov & Hsum & _).
  - unfold prefix_of, nonempty, slice_len in *.
    destruct (stop p0 - start p0 >? n); simpl; lia.
  - intros r Hr. apply in_app_or in Hr. destruct Hr as [Hr|Hr].
    + specialize (Hsep r Hr).
      pose proof (wf_ranges_nonempty _ _ Hwf' Hr) as Hnr.
      unfold prefix_of, separated, disjoint, nonempty, slice_len in *.
      destruct (Z.gtb_spec (stop p0 - start p0) n); simpl; lia.
    + unfold prefix_of, remainder_of, disjoint, slice_len in *.
      destruct (Z.gtb_spec (stop p0 - start p0) n); simpl in *; [|contradiction].
      destruct Hr as [<-|[]]. simpl. lia.
  - exists L'. split; [exact E|]. split; [exact Hwf''|]. split.
    + intros i. rewrite Hcov, !covered_app, covered_cons.
      unfold prefix_of, remainder_of, slice_len, nonempty in *.
      destruct (Z.gtb_spec (stop p0 - start p0) n).
      * rewrite covered_cons. unfold in_slice; simpl.
        pose proof (covered_nil i). tauto || (intuition lia).
      * pose proof (covered_nil i). tauto.
    + rewrite Hsum, !sum_len_app. simpl.
      pose proof (sum_len_remainder p0 n). lia.
Qed.

(** X5: Extraction followed by insertion is a round trip: giving back to
    [merge_slices] the slice that [get_at_most] or [get_exactly] has just
    returned restores the ranges, up to the iteration order of the maps,
    and [total_num]. *)
Theorem merge_back_restores (m m1 : SliceMerger) (n : Z) (p : slice) :
  SInv m -> 1 <= n ->
  get_at_most m n = Ok (Some p, m1) \/ get_exactly m n = Ok (Some p, m1) ->
  exists m2,
    merge_slices m1 p = Ok m2 /\
    SInv m2 /\
    sort_by_start (ranges m2) = sort_by_start (ranges m) /\
    total_num m2 = total_num m.
Proof.
  intros Hinv Hn Hget. destruct (SInv_elim m Hinv) as (L & -> & Hwf & _).
  rewrite ranges_of_ranges.
  assert (Hsplit : exists L1 p0 L2,
             L = L1 ++ p0 :: L2 /\ p = prefix_of p0 n /\
             m1 = of_ranges ((L1 ++ L2) ++ remainder_of p0 n)).
  { destruct Hget as [Hget|Hget].
    - rewrite get_at_most_of_ranges in Hget by (assumption || lia).
      destruct L as [|p0 rest]; [discriminate|].
      injection Hget as <- <-. exists [], p0, rest. auto.
    - destruct (get_exactly_of_ranges L n Hwf ltac:(lia))
        as [[_ E]|(L1 & p0 & L2 & -> & _ & _ & E)];
        rewrite E in Hget; [discriminate|].
      injection Hget as <- <-. exists L1, p0, L2. auto. }
  destruct Hsplit as (L1 & p0 & L2 & -> & -> & ->).
  destruct (merge_back_of_ranges L1 L2 p0 n Hwf Hn)
    as (L' & E & Hwf' & Hcov & Hsum).
  exists (of_ranges L'). split; [exact E|].
  split; [now apply SInv_of_ranges|]. rewrite ranges_of_ranges. split.
  - now apply sort_by_start_unique.
  - exact Hsum.
Qed.

(** Two slots are taken from [4,9), leaving [0,2) and [6,9); inserting
    [4,6) again gives [0,2) and [4,9) back. *)
Lemma merge_back_example :
  get_at_most (of_ranges [mk_slice 4 9; mk_slice 0 2]) 2
  = Ok (Some (mk_slice 4 6), of_ranges [mk_slice 0 2; mk_slice 6 9]) /\
  merge_slices (of_ranges [mk_slice 0 2; mk_slice 6 9]) (mk_slice 4 6)
  = Ok (of_ranges [mk_slice 0 2; mk_slice 4 9]) /\
  exists m2,
    merge_slices (of_ranges [mk_slice 0 2; mk_slice 6 9]) (mk_slice 4 6) = Ok m2 /\
    SInv m2 /\
    sort_by_start (ranges m2)
    = sort_by_start (ranges (of_ranges [mk_slice 4 9; mk_slice 0 2])) /\
    total_num m2 = total_num (of_ranges [mk_slice 4 9; mk_slice 0 2]).
Proof.
  split; [reflexivity|]. split; [reflexivity|].
  apply (merge_back_restores (of_ranges [mk_slice 4 9; mk_slice 0 2])
           (of_ranges [mk_slice 0 2; mk_slice 6 9]) 2 (mk_slice 4 6)).
  - apply SInv_of_ranges. split.
    + repeat apply Forall_cons; try apply Forall_nil; unfold nonempty; simpl; lia.
    + simpl. unfold separated; simpl.
      repeat split; repeat apply Forall_cons; try apply Forall_nil; cbn; lia.
  - lia.
  - left. reflexivity.
Defined.

(** ** Cutting sampling batches *)

Lemma take_sampling_batches_sum (n : Z) (fuel : nat) :
  forall (L : list slice) (chunks : list slice) (m' : SliceMerger),
    wf_ranges L -> 0 <= n ->
    take_sampling_batches fuel n (of_ranges L) = Ok (chunks, m') ->
    total_num m' + sum_len chunks = sum_len L.
Proof.
  induction fuel as [|fuel IH]; intros L chunks m' Hwf Hn Hrun;
    [discriminate|].
  simpl in Hrun.
  destruct (get_exactly_of_ranges L n Hwf Hn)
    as [[_ E]|(L1 & p & L2 & -> & _ & Hp & E)]; rewrite E in Hrun.
  - injection Hrun as <- <-. simpl. lia.
  - destruct (take_sampling_batches fuel n
                (of_ranges ((L1 ++ L2) ++ remainder_of p n)))
      as [[cs m'']|e] eqn:Erec; [|discriminate].
    injection Hrun as <- <-.
    apply IH in Erec; [|apply wf_ranges_remainder; assumption|assumption].
    rewrite !sum_len_app in Erec. rewrite !sum_len_app. simpl.
    pose proof (sum_len_remainder p n). lia.
Qed.

(** X6: The loop [while (sampling_batch := slices.get_exactly(n)) is not None]
    of [_release_traj_tensors], for a sampling batch size [n >= 1] on a
    well-formed merger: it ends, every slice it returns holds exactly [n]
    slots, every range it leaves is shorter than [n], and the slots
    returned and left are those that were stored, each once. *)
Theorem take_sampling_batches_exact (m : SliceMerger) (n : Z) :
  SInv m -> 1 <= n ->
  exists batches m',
    take_sampling_batches (S (Z.to_nat (total_num m))) n m = Ok (batches, m') /\
    SInv m' /\
    Forall (fun c => slice_len c = n) batches /\
    Forall (fun s => slice_len s < n) (ranges m') /\
    (forall i, cnt i (ranges m) = (cnt i (ranges m') + cnt i batches)%nat) /\
    total_num m = total_num m' + n * Z.of_nat (List.length batches).
Proof.
  intros Hinv Hn. destruct (SInv_elim m Hinv) as (L & -> & Hwf & _).
  destruct (take_sampling_batches_spec n (S (Z.to_nat (sum_len L))) Hn L Hwf)
    as (chunks & L' & E & Hwf' & Hcnt & Hlen & Hshort).
  { pose proof (sum_len_nonneg L (proj1 Hwf)). lia. }
  exists chunks, (of_ranges L'). split; [exact E|].
  split; [now apply SInv_of_ranges|]. rewrite !ranges_of_ranges.
  split; [exact Hlen|]. split; [exact Hshort|]. split; [exact Hcnt|].
  simpl.
  assert (Hchunks : sum_len chunks = n * Z.of_nat (List.length chunks)).
  { clear -Hlen. induction Hlen as [|c cs Hc _ IH]; simpl; [lia|].
    rewrite IH, Hc. lia. }
  rewrite <- Hchunks.
  pose proof (take_sampling_batches_sum n _ L chunks (of_ranges L') Hwf
                ltac:(lia) E) as Hsum.
  simpl in Hsum. lia.
Qed.

(** Sampling batches of 2 slots out of [0,5), [7,8) and [10,14): four
    batches; [7,8) and [4,5) are left. *)
Lemma take_sampling_batches_example :
  take_sampling_batches 11 2
    (of_ranges [mk_slice 0 5; mk_slice 7 8; mk_slice 10 14])
  = Ok ([mk_slice 0 2; mk_slice 10 12; mk_slice 2 4; mk_slice 12 14],
        of_ranges [mk_slice 7 8; mk_slice 4 5]) /\
  exists batches m',
    take_sampling_batches
      (S (Z.to_nat (total_num (of_ranges [mk_slice 0 5; mk_slice 7 8;
                                          mk_slice 10 14])))) 2
      (of_ranges [mk_slice 0 5; mk_slice 7 8; mk_slice 10 14])
    = Ok (batches, m') /\
    SInv m' /\
    Forall (fun c => slice_len c = 2) batches /\
    Forall (fun s => slice_len s < 2) (ranges m') /\
    (forall i, cnt i (ranges (of_ranges [mk_slice 0 5; mk_slice 7 8;
                                         mk_slice 10 14]))
               = (cnt i (ranges m') + cnt i batches)%nat) /\
    total_num (of_ranges [mk_slice 0 5; mk_slice 7 8; mk_slice 10 14])
    = total_num m' + 2 * Z.of_nat (List.length batches).
Proof.
  split; [reflexivity|].
  apply (take_sampling_batches_exact
           (of_ranges [mk_slice 0 5; mk_slice 7 8; mk_slice 10 14]) 2).
  - apply SInv_of_ranges. split.
    + repeat apply Forall_cons; try apply Forall_nil; unfold nonempty; simpl; lia.
    + simpl. unfold separated; simpl.
      repeat split; repeat apply Forall_cons; try apply Forall_nil; cbn; lia.
  - lia.
Defined.


(* ================================================================== *)
(** * The batcher: further properties *)

(** ** Setup *)

(** X7: [Batcher.init] passes on what [get_rnn_info] raises, before any batch
    buffer is allocated and with no signal emitted: [NotImplementedError]
    for an LSTM core, whatever the other entries, and [UnboundLocalError]
    for any other core with separate actor and critic weights.  Otherwise
    it allocates [max_batches_to_accumulate] buffers of
    [traj_per_training_iteration] unwritten records each and emits
    [initialized], once. *)
Theorem init_outcomes (pid : PolicyID) (bm : BufferMgr) (c : Cfg) :
  (rnn_type c = "lstm"%string ->
   init (Batcher_init pid bm c)
   = (Raise NotImplementedError, Batcher_init pid bm c)) /\
  (rnn_type c <> "lstm"%string -> actor_critic_share_weights c = false ->
   init (Batcher_init pid bm c)
   = (Raise UnboundLocalError, Batcher_init pid bm c)) /\
  (rnn_type c <> "lstm"%string -> actor_critic_share_weights c = true ->
   init (Batcher_init pid bm c)
   = (Ok tt,
      set_emitted [Initialized]
        (set_training_batches
           (repeat (repeat None (Z.to_nat (trajectories_per_training_iteration bm)))
                   (bm_max_batches_to_accumulate bm))
           (Batcher_init pid bm c)))).
Proof.
  unfold init. split; [|split].
  - intros Hl. rewrite run_bind_get.
    apply run_bind_lift_raise. unfold get_rnn_info. simpl cfg.
    rewrite Hl. reflexivity.
  - intros Hl Hs. rewrite run_bind_get.
    apply run_bind_lift_raise. unfold get_rnn_info. simpl cfg.
    apply String.eqb_neq in Hl. rewrite Hl, Hs. reflexivity.
  - intros Hl Hs. rewrite run_bind_get.
    apply String.eqb_neq in Hl.
    erewrite run_bind_lift
      by (unfold get_rnn_info; simpl cfg; rewrite Hl, Hs; reflexivity).
    rewrite run_bind_modify. reflexivity.
Qed.

(** An LSTM core stops the setup, shared weights or not. *)
Lemma init_outcomes_lstm :
  init (Batcher_init 0 (example_bm 4 2 2) (example_cfg_rnn "lstm" false))
  = (Raise NotImplementedError,
     Batcher_init 0 (example_bm 4 2 2) (example_cfg_rnn "lstm" false)) /\
  init (Batcher_init 0 (example_bm 4 2 2) (example_cfg_rnn "gru" false))
  = (Raise UnboundLocalError,
     Batcher_init 0 (example_bm 4 2 2) (example_cfg_rnn "gru" false)) /\
  emitted (snd (init (Batcher_init 0 (example_bm 4 2 2)
                        (example_cfg_rnn "gru" true))))
  = [Initialized].
Proof.
  split; [|split].
  - apply (proj1 (init_outcomes 0 (example_bm 4 2 2)
                    (example_cfg_rnn "lstm" false))).
    reflexivity.
  - apply (proj1 (proj2 (init_outcomes 0 (example_bm 4 2 2)
                           (example_cfg_rnn "gru" false)))).
    + discriminate.
    + reflexivity.
  - rewrite (proj2 (proj2 (init_outcomes 0 (example_bm 4 2 2)
                             (example_cfg_rnn "gru" true)))).
    + reflexivity.
    + discriminate.
    + reflexivity.
Defined.

(** ** Returning a batch buffer *)

(** X8: In synchronous mode [on_training_batch_released] indexes the release
    lists with the batch index it is given: an index past the pool raises
    [IndexError], after the training iteration has been recorded and
    before anything else is done. *)
Theorem on_training_batch_released_out_of_range
    (shuffle : nat -> list Device -> list Device) (st : Batcher) (b : nat)
    (it : Z) :
  async_rl (cfg st) = false ->
  (List.length (traj_tensors_to_release st) <= b)%nat ->
  on_training_batch_released shuffle b it st
  = (Raise IndexError, set_training_iteration it st).
Proof.
  intros Hmode Hb. unfold on_training_batch_released.
  apply run_bind_raise. unfold return_batch.
  rewrite run_bind_modify, run_bind_get. simpl cfg. rewrite Hmode. simpl negb.
  apply run_bind_raise. unfold _release_traj_tensors.
  rewrite run_bind_get. apply run_bind_lift_raise.
  unfold list_lookup. simpl traj_tensors_to_release.
  apply nth_error_None in Hb. rewrite Hb. reflexivity.
Qed.

(** Scenario B with its two buffers: buffer 2 does not exist. *)
Lemma on_training_batch_released_out_of_range_example :
  on_training_batch_released no_shuffle 2 7 sB3
  = (Raise IndexError, set_training_iteration 7 sB3).
Proof.
  apply (on_training_batch_released_out_of_range no_shuffle sB3 2 7).
  - vm_compute. reflexivity.
  - vm_compute. lia.
Defined.

Section Invariants.
Variable shuffle : nat -> list Device -> list Device.
Hypothesis shuffle_perm : forall k l, Permutation (shuffle k l) l.

(** X9: In every state of a run, in both modes, the engine holds no slot
    twice: a slot is in at most one range of the training mergers, the
    sampling mergers and the release lists taken together, and every
    merger is well formed, its counter being the recount of its ranges. *)
Theorem slots_held_once (st : Batcher) :
  reachable shuffle st ->
  (forall d i, (occ d i (held st) <= 1)%nat) /\
  Forall SInv (dict_values (slices_for_training st)) /\
  Forall SInv (dict_values (slices_for_sampling st)) /\
  Forall (fun m => total_num m = sum_len (ranges m))
         (dict_values (slices_for_training st)) /\
  Forall (fun x => In (fst x) (traj_tensors st) /\ start (snd x) < stop (snd x))
         (List.concat (traj_tensors_to_release st)).
Proof.
  intros Hr. pose proof (reachable_BInv shuffle shuffle_perm st Hr) as Hinv.
  pose proof (inv_core _ Hinv) as Hcore.
  split; [apply Hcore|]. split; [apply Hcore|]. split; [apply Hcore|].
  split; [|apply Hcore].
  eapply Forall_impl; [|apply (inv_training _ Hcore)].
  intros m Hm. destruct (SInv_elim m Hm) as (L & -> & _ & _).
  now rewrite ranges_of_ranges.
Qed.

(** X10: In every state of a run the pool of batch buffers is consistent: the
    free list names each buffer at most once and only buffers of the pool;
    there are [max_batches_to_accumulate] buffers and as many release
    lists, every buffer has [traj_per_training_iteration] cells; a free
    buffer has nothing to release; in asynchronous mode no release list is
    ever left filled; in synchronous mode a buffer that is with the
    learner still holds exactly the records of its release list. *)
Theorem buffer_pool_consistent (st : Batcher) :
  reachable shuffle st ->
  NoDup (available_batches st) /\
  Forall (fun b => (b < max_batches_to_accumulate st)%nat) (available_batches st) /\
  List.length (training_batches st) = max_batches_to_accumulate st /\
  List.length (traj_tensors_to_release st) = max_batches_to_accumulate st /\
  Forall (fun buf => Z.of_nat (List.length buf) = traj_per_training_iteration st)
         (training_batches st) /\
  (forall b, In b (available_batches st) ->
             nth_error (traj_tensors_to_release st) b = Some []) /\
  (async_rl (cfg st) = true ->
   Forall (fun l => l = []) (traj_tensors_to_release st)) /\
  (async_rl (cfg st) = false ->
   forall b, in_flight st b ->
     nth_error (training_batches st) b
     = Some (map Some (records_of (nth b (traj_tensors_to_release st) [])))).
Proof.
  intros Hr. pose proof (reachable_BInv shuffle shuffle_perm st Hr) as Hinv.
  pose proof (inv_core _ Hinv) as Hcore.
  split; [apply Hinv|]. split; [apply Hinv|]. split; [apply Hcore|].
  split; [apply Hcore|]. split; [apply Hcore|]. split; [apply Hinv|].
  split; apply Hinv.
Qed.
End Invariants.

(** Scenario B after the first batch: [4,5) waits in the training merger,
    [0,4) is recorded for release. *)
Lemma slots_held_once_scenario_B :
  held sB3 = [("cpu"%string, mk_slice 4 5); ("cpu"%string, mk_slice 0 4)] /\
  ((forall d i, (occ d i (held sB3) <= 1)%nat) /\
   Forall SInv (dict_values (slices_for_training sB3)) /\
   Forall SInv (dict_values (slices_for_sampling sB3)) /\
   Forall (fun m => total_num m = sum_len (ranges m))
          (dict_values (slices_for_training sB3)) /\
   Forall (fun x => In (fst x) (traj_tensors sB3) /\ start (snd x) < stop (snd x))
          (List.concat (traj_tensors_to_release sB3))).
Proof.
  split; [vm_compute; reflexivity|].
  apply (slots_held_once no_shuffle no_shuffle_perm sB3 sB3_reachable).
Defined.

(** Scenario B after the first batch: buffer 1 is free, buffer 0 is with
    the learner. *)
Lemma buffer_pool_consistent_scenario_B :
  available_batches sB3 = [1%nat] /\
  (NoDup (available_batches sB3) /\
   Forall (fun b => (b < max_batches_to_accumulate sB3)%nat)
          (available_batches sB3) /\
   List.length (training_batches sB3) = max_batches_to_accumulate sB3 /\
   List.length (traj_tensors_to_release sB3) = max_batches_to_accumulate sB3 /\
   Forall (fun buf => Z.of_nat (List.length buf) = traj_per_training_iteration sB3)
          (training_batches sB3) /\
   (forall b, In b (available_batches sB3) ->
              nth_error (traj_tensors_to_release sB3) b = Some []) /\
   (async_rl (cfg sB3) = true ->
    Forall (fun l => l = []) (traj_tensors_to_release sB3)) /\
   (async_rl (cfg sB3) = false ->
    forall b, in_flight sB3 b ->
      nth_error (training_batches sB3) b
      = Some (map Some (records_of (nth b (traj_tensors_to_release sB3) []))))).
Proof.
  split; [vm_compute; reflexivity|].
  apply (buffer_pool_consistent no_shuffle no_shuffle_perm sB3 sB3_reachable).
Defined.

(** ** Reports of new trajectories *)

Lemma merge_new_trajectories_step (device : Device) (td : TrajectoryDict)
    (rest : list TrajectoryDict) (st : Batcher) (m m' : SliceMerger) :
  td_policy_id td = policy_id st ->
  dict_get (slices_for_training st) device = Some m ->
  merge_slices m (as_slice (traj_buffer_idx td)) = Ok m' ->
  merge_new_trajectories device (td :: rest) st
  = if existsb (String.eqb "cpu") (traj_tensors st)
    then merge_new_trajectories device rest
           (set_slices_for_training
              (dict_set (slices_for_training st) device m') st)
    else (Raise KeyError,
          set_slices_for_training
            (dict_set (slices_for_training st) device m') st).
Proof.
  intros Hpol Hm Hmerge. cbn [merge_new_trajectories].
  rewrite run_bind_get.
  rewrite run_bind_assert by (apply Z.eqb_eq; exact Hpol).
  cbv zeta.
  rewrite (run_bind_lift _ m) by (unfold dict_lookup; rewrite Hm; reflexivity).
  rewrite (run_bind_lift _ m') by exact Hmerge.
  rewrite run_bind_modify.
  destruct (existsb (String.eqb "cpu") (traj_tensors st));
    [rewrite run_bind_ret|]; reflexivity.
Qed.

Lemma merge_new_trajectories_ok_inv (device : Device) (td : TrajectoryDict)
    (rest : list TrajectoryDict) (st st' : Batcher) :
  merge_new_trajectories device (td :: rest) st = (Ok tt, st') ->
  exists m m',
    td_policy_id td = policy_id st /\
    dict_get (slices_for_training st) device = Some m /\
    merge_slices m (as_slice (traj_buffer_idx td)) = Ok m' /\
    existsb (String.eqb "cpu") (traj_tensors st) = true /\
    merge_new_trajectories device rest
      (set_slices_for_training
         (dict_set (slices_for_training st) device m') st)
    = (Ok tt, st').
Proof.
  intros Hrun.
  destruct (Z.eqb_spec (td_policy_id td) (policy_id st)) as [Hpol|Hpol].
  2:{ cbn [merge_new_trajectories] in Hrun. rewrite run_bind_get in Hrun.
      apply Z.eqb_neq in Hpol. rewrite Hpol in Hrun. discriminate. }
  destruct (dict_get (slices_for_training st) device) as [m|] eqn:Hm.
  2:{ cbn [merge_new_trajectories] in Hrun. rewrite run_bind_get in Hrun.
      rewrite run_bind_assert in Hrun by (apply Z.eqb_eq; exact Hpol).
      cbv zeta in Hrun.
      rewrite (run_bind_lift_raise _ KeyError) in Hrun
        by (unfold dict_lookup; rewrite Hm; reflexivity).
      discriminate. }
  destruct (merge_slices m (as_slice (traj_buffer_idx td))) as [m'|e] eqn:Hmerge.
  2:{ cbn [merge_new_trajectories] in Hrun. rewrite run_bind_get in Hrun.
      rewrite run_bind_assert in Hrun by (apply Z.eqb_eq; exact Hpol).
      cbv zeta in Hrun.
      rewrite (run_bind_lift _ m) in Hrun
        by (unfold dict_lookup; rewrite Hm; reflexivity).
      rewrite (run_bind_lift_raise _ e) in Hrun by exact Hmerge.
      discriminate. }
  rewrite (merge_new_trajectories_step device td rest st m m' Hpol Hm Hmerge)
    in Hrun.
  destruct (existsb (String.eqb "cpu") (traj_tensors st)); [|discriminate].
  exists m, m'. auto.
Qed.

Lemma merge_new_trajectories_stops_at (device : Device)
    (pre : list TrajectoryDict) :
  forall (st st1 : Batcher) (td : TrajectoryDict) (post : list TrajectoryDict),
    merge_new_trajectories device pre st = (Ok tt, st1) ->
    td_policy_id td <> policy_id st ->
    merge_new_trajectories device (pre ++ td :: post) st
    = (Raise AssertionError, st1) /\
    emitted st1 = emitted st /\
    available_batches st1 = available_batches st /\
    training_batches st1 = training_batches st /\
    traj_buffer_queues st1 = traj_buffer_queues st.
Proof.
  induction pre as [|td0 pre IH]; intros st st1 td post Hrun Hpol.
  - simpl in Hrun. injection Hrun as <-. split; [|auto].
    simpl app. cbn [merge_new_trajectories]. rewrite run_bind_get.
    apply Z.eqb_neq in Hpol. rewrite Hpol. reflexivity.
  - destruct (merge_new_trajectories_ok_inv _ _ _ _ _ Hrun)
      as (m & m' & Hp0 & Hm & Hmerge & Hcpu & Hrest).
    simpl app.
    rewrite (merge_new_trajectories_step device td0 _ st m m' Hp0 Hm Hmerge).
    rewrite Hcpu.
    destruct (IH _ st1 td post Hrest Hpol) as (E & H1 & H2 & H3 & H4).
    split; [exact E|]. auto.
Qed.

(** X11: A report under another policy stops [on_new_trajectories] with an
    [AssertionError]: the reports before it have been merged, those after
    it are not looked at, and no batch is assembled, whatever has
    accumulated. *)
Theorem on_new_trajectories_rejects_other_policy
    (shuffle : nat -> list Device -> list Device) (device : Device)
    (pre post : list TrajectoryDict) (td : TrajectoryDict)
    (st st1 : Batcher) :
  merge_new_trajectories device pre st = (Ok tt, st1) ->
  td_policy_id td <> policy_id st ->
  on_new_trajectories shuffle (pre ++ td :: post) device st
  = (Raise AssertionError, st1) /\
  emitted st1 = emitted st /\
  available_batches st1 = available_batches st /\
  training_batches st1 = training_batches st /\
  traj_buffer_queues st1 = traj_buffer_queues st.
Proof.
  intros Hrun Hpol.
  destruct (merge_new_trajectories_stops_at device pre st st1 td post Hrun Hpol)
    as (E & H). split; [|exact H].
  unfold on_new_trajectories. now apply run_bind_raise.
Qed.

(** Scenario B: [2,5) arrives with a slice of policy 1 behind it; [2,5) is
    merged, making [0,5), and although a batch of 4 could now be
    assembled, none is. *)
Lemma on_new_trajectories_rejects_example :
  total_num_trajectories (slices_for_training sB2) = 5 /\
  traj_per_training_iteration sB2 = 4 /\
  (on_new_trajectories no_shuffle
     ([report (mk_slice 2 5)] ++ report_as 1 (mk_slice 5 6) :: [])
     "cpu"%string sB1
   = (Raise AssertionError, sB2) /\
   emitted sB2 = emitted sB1 /\
   available_batches sB2 = available_batches sB1 /\
   training_batches sB2 = training_batches sB1 /\
   traj_buffer_queues sB2 = traj_buffer_queues sB1).
Proof.
  split; [vm_compute; reflexivity|]. split; [vm_compute; reflexivity|].
  apply (on_new_trajectories_rejects_other_policy no_shuffle "cpu"%string
           [report (mk_slice 2 5)] [] (report_as 1 (mk_slice 5 6)) sB1 sB2).
  - vm_compute. reflexivity.
  - vm_compute. discriminate.
Defined.

(** X12: The two ways in which a report raises [KeyError].  A device the
    batcher has no merger for is met at the first trajectory, and nothing
    has changed.  And since every trajectory is also written into
    [traj_tensors['cpu']], a batcher without CPU tensors raises at the
    first trajectory of any device, after its slice has been merged. *)
Theorem on_new_trajectories_key_errors
    (shuffle : nat -> list Device -> list Device) (device : Device)
    (td : TrajectoryDict) (rest : list TrajectoryDict) (st : Batcher) :
  td_policy_id td = policy_id st ->
  (dict_get (slices_for_training st) device = None ->
   on_new_trajectories shuffle (td :: rest) device st = (Raise KeyError, st)) /\
  (forall m m',
      dict_get (slices_for_training st) device = Some m ->
      merge_slices m (as_slice (traj_buffer_idx td)) = Ok m' ->
      ~ In "cpu"%string (traj_tensors st) ->
      on_new_trajectories shuffle (td :: rest) device st
      = (Raise KeyError,
         set_slices_for_training
           (dict_set (slices_for_training st) device m') st)).
Proof.
  intros Hpol. split.
  - intros Hm. unfold on_new_trajectories. apply run_bind_raise.
    cbn [merge_new_trajectories]. rewrite run_bind_get.
    rewrite run_bind_assert by (apply Z.eqb_eq; exact Hpol).
    cbv zeta. apply run_bind_lift_raise.
    unfold dict_lookup. rewrite Hm. reflexivity.
  - intros m m' Hm Hmerge Hcpu. unfold on_new_trajectories.
    apply run_bind_raise.
    rewrite (merge_new_trajectories_step device td rest st m m' Hpol Hm Hmerge).
    destruct (existsb (String.eqb "cpu") (traj_tensors st)) eqn:E;
      [|reflexivity].
    exfalso. apply Hcpu. apply existsb_exists in E.
    destruct E as (x & Hx & Ex). apply String.eqb_eq in Ex. now subst x.
Qed.

(** A batcher over GPU tensors only: the slice [0,2) reported for the GPU
    is merged, then the write to the CPU tensors raises. *)
Lemma on_new_trajectories_key_errors_gpu :
  (dict_get (slices_for_training
               (exec init (Batcher_init 0 (example_bm_gpu 2 2)
                             (example_cfg false false)))) "cpu"%string = None ->
   on_new_trajectories no_shuffle [report (mk_slice 0 2)] "cpu"%string
     (exec init (Batcher_init 0 (example_bm_gpu 2 2) (example_cfg false false)))
   = (Raise KeyError,
      exec init (Batcher_init 0 (example_bm_gpu 2 2) (example_cfg false false)))) /\
  on_new_trajectories no_shuffle [report (mk_slice 0 2)] "cuda:0"%string
    (exec init (Batcher_init 0 (example_bm_gpu 2 2) (example_cfg false false)))
  = (Raise KeyError,
     set_slices_for_training
       (dict_set
          (slices_for_training
             (exec init (Batcher_init 0 (example_bm_gpu 2 2)
                           (example_cfg false false))))
          "cuda:0"%string (of_ranges [mk_slice 0 2]))
       (exec init (Batcher_init 0 (example_bm_gpu 2 2)
                     (example_cfg false false)))).
Proof.
  split.
  - apply (proj1 (on_new_trajectories_key_errors no_shuffle "cpu"%string
                    (report (mk_slice 0 2)) []
                    (exec init (Batcher_init 0 (example_bm_gpu 2 2)
                                  (example_cfg false false)))
                    eq_refl)).
  - apply (proj2 (on_new_trajectories_key_errors no_shuffle "cuda:0"%string
                    (report (mk_slice 0 2)) []
                    (exec init (Batcher_init 0 (example_bm_gpu 2 2)
                                  (example_cfg false false)))
                    eq_refl) SliceMerger_init (of_ranges [mk_slice 0 2])).
    + vm_compute. reflexivity.
    + vm_compute. reflexivity.
    + vm_compute. intros [H|[]]. discriminate.
Defined.

(** ** The handlers of a run *)


Section Handlers.
Variable shuffle : nat -> list Device -> list Device.
Hypothesis shuffle_perm : forall k l, Permutation (shuffle k l) l.


End Handlers.



Section Acknowledgements.
Variable shuffle : nat -> list Device -> list Device.
Hypothesis shuffle_perm : forall k l, Permutation (shuffle k l) l.

(** X15: The batch index of an acknowledgement is not checked against the
    free list.  For a buffer that is free already, the release part of
    [on_training_batch_released] still returns normally, in both modes,
    and appends the index to the free list a second time. *)
Theorem return_batch_not_validated (st : Batcher) (b : nat) (it : Z) :
  reachable shuffle st ->
  In b (available_batches st) ->
  exists st',
    return_batch b it st = (Ok tt, st') /\
    available_batches st' = available_batches st ++ [b] /\
    ~ NoDup (available_batches st').
Proof.
  intros Hr Hb.
  pose proof (reachable_BInv shuffle shuffle_perm st Hr) as Hinv.
  pose proof (inv_core _ Hinv) as Hcore.
  assert (Hdup : ~ NoDup (available_batches st ++ [b])).
  { intros Hnd. apply in_split in Hb. destruct Hb as (l1 & l2 & E).
    rewrite E, <- app_assoc in Hnd. apply NoDup_remove_2 in Hnd.
    apply Hnd. apply in_or_app. right. apply in_or_app. right. simpl. auto. }
  set (st0 := set_training_iteration it st).
  assert (Hcore0 : BCore st0) by (apply (BCore_frame st); auto).
  destruct (available_batches st) as [|a l] eqn:Eav; [contradiction|].
  destruct (async_rl (cfg st)) eqn:Hmode.
  - exists (set_available_batches ((a :: l) ++ [b]) st0).
    split; [|split; [reflexivity|exact Hdup]].
    unfold return_batch. rewrite run_bind_modify. fold st0.
    rewrite run_bind_get.
    replace (async_rl (cfg st0)) with true by (symmetry; exact Hmode).
    simpl negb. cbv iota. rewrite run_bind_ret, run_bind_get.
    replace (available_batches st0) with (a :: l) by (symmetry; exact Eav).
    rewrite run_bind_ret. unfold modify. simpl. rewrite Eav. reflexivity.
  - pose proof (inv_available_released _ Hinv b) as Hrel.
    rewrite Eav in Hrel. specialize (Hrel Hb).
    apply nth_error_split in Hrel. destruct Hrel as (P1 & P2 & HP & HP1).
    destruct (release_core st0 b P1 P2 [] Hcore0 HP HP1)
      as (S' & queues' & Erel & _ & _).
    eexists. split; [|split].
    + unfold return_batch. rewrite run_bind_modify. fold st0.
      rewrite run_bind_get.
      replace (async_rl (cfg st0)) with false by (symmetry; exact Hmode).
      simpl negb. cbv iota.
      rewrite (run_bind_ok _ tt _ _ _ Erel).
      rewrite run_bind_get. simpl available_batches. rewrite Eav.
      rewrite run_bind_ret. unfold modify. reflexivity.
    + simpl. rewrite Eav. reflexivity.
    + simpl. rewrite Eav. exact Hdup.
Qed.
End Acknowledgements.

(** Scenario B after the first batch: buffer 1 is free, and is
    acknowledged all the same. *)
Lemma return_batch_not_validated_scenario_B :
  available_batches sB3 = [1%nat] /\
  available_batches (exec (return_batch 1 1) sB3) = [1%nat; 1%nat] /\
  exists st',
    return_batch 1 1 sB3 = (Ok tt, st') /\
    available_batches st' = available_batches sB3 ++ [1%nat] /\
    ~ NoDup (available_batches st').
Proof.
  split; [vm_compute; reflexivity|]. split; [vm_compute; reflexivity|].
  apply (return_batch_not_validated no_shuffle no_shuffle_perm sB3 1%nat 1).
  - exact sB3_reachable.
  - vm_compute. auto.
Defined.

(** ** Releasing slots under batched sampling *)

Lemma occ_located_fresh (d : Device) (i : Z) (T : dict Device SliceMerger) :
  ~ In d (dict_keys T) -> occ d i (located T) = 0%nat.
Proof.
  induction T as [|[d' m] T IH]; intros Hfresh; [apply occ_nil|].
  rewrite located_cons, occ_app, occ_map_pair. simpl in Hfresh.
  destruct (String.eqb_spec d' d) as [->|_]; [tauto|].
  rewrite IH; tauto.
Qed.

Lemma occ_located_get (d : Device) (i : Z) (T : dict Device SliceMerger)
    (m : SliceMerger) :
  NoDup (dict_keys T) -> dict_get T d = Some m ->
  occ d i (located T) = cnt i (ranges m).
Proof.
  intros Hnd Hm. destruct (dict_get_split _ _ _ Hm) as (Ta & Tb & -> & Hfresh).
  rewrite occ_located_split, String.eqb_refl.
  rewrite dict_keys_app in Hnd. simpl in Hnd.
  apply NoDup_remove_2 in Hnd.
  rewrite (occ_located_fresh d i Ta) by assumption.
  rewrite (occ_located_fresh d i Tb)
    by (intros H; apply Hnd; apply in_or_app; auto).
  lia.
Qed.

Lemma extract_sampling_batches_full (n : Z) :
  1 <= n ->
  forall (items Sdone : dict Device SliceMerger)
         (nsb : dict Device (list qitem)),
    NoDup (dict_keys (Sdone ++ items)) ->
    Forall SInv (dict_values items) ->
    NoDup (dict_keys nsb) ->
    exists items' nsb',
      extract_sampling_batches n items (Sdone ++ items) nsb
      = Ok (Sdone ++ items', nsb') /\
      dict_keys items' = dict_keys items /\
      NoDup (dict_keys nsb') /\
      incl (dict_keys nsb') (dict_keys nsb ++ dict_keys items) /\
      (forall d, ~ In d (dict_keys items) -> dict_get nsb' d = dict_get nsb d) /\
      (forall d m,
          dict_get items d = Some m ->
          exists chunks m',
            dict_get nsb' d = Some (map QSlice chunks) /\
            dict_get items' d = Some m' /\
            SInv m' /\
            Forall (fun c => slice_len c = n) chunks /\
            Forall (fun s => slice_len s < n) (ranges m') /\
            (forall i, cnt i (ranges m) = (cnt i (ranges m') + cnt i chunks)%nat)).
Proof.
  intros Hn. induction items as [|[d m] items IH]; intros Sdone nsb Hnd HS Hnsb.
  - exists [], nsb. simpl. split; [reflexivity|]. split; [reflexivity|].
    split; [assumption|]. split; [rewrite app_nil_r; apply incl_refl|].
    split; [reflexivity|]. intros d m [=].
  - simpl in HS. apply Forall_cons_iff in HS. destruct HS as [Hminv HS].
    destruct (SInv_elim m Hminv) as (L & -> & Hwf & _).
    destruct (take_sampling_batches_spec n
                (S (Z.to_nat (total_num (of_ranges L)))) Hn L Hwf)
      as (chunks & L' & E & Hwf' & Hcnt & Hlen & Hshort).
    { simpl. pose proof (sum_len_nonneg L (proj1 Hwf)). lia. }
    cbn [extract_sampling_batches]. rewrite E.
    assert (Hfresh : ~ In d (dict_keys Sdone)).
    { rewrite dict_keys_app in Hnd. simpl in Hnd.
      apply NoDup_remove_2 in Hnd. intros Hin. apply Hnd.
      apply in_or_app. auto. }
    assert (Hd_items : ~ In d (dict_keys items)).
    { rewrite dict_keys_app in Hnd. simpl in Hnd.
      apply NoDup_remove_2 in Hnd. intros Hin. apply Hnd.
      apply in_or_app. auto. }
    rewrite dict_set_split by assumption.
    destruct (IH (Sdone ++ [(d, of_ranges L')])
                 (dict_set nsb d (map QSlice chunks)))
      as (items' & nsb' & E' & Hk & Hnd' & Hincl & Hother & Hmine).
    { rewrite <- app_assoc. simpl. rewrite !dict_keys_app in *. exact Hnd. }
    { assumption. }
    { now apply dict_keys_set_NoDup. }
    rewrite <- !app_assoc in E'. simpl in E'. rewrite E'.
    exists ((d, of_ranges L') :: items'), nsb'.
    split; [reflexivity|].
    split; [simpl; congruence|]. split; [assumption|]. split; [|split].
    + intros x Hx. apply Hincl in Hx. apply in_app_or in Hx.
      apply in_or_app. simpl. destruct Hx as [Hx|Hx]; [|auto].
      apply dict_keys_set_incl in Hx. destruct Hx as [<-|Hx]; auto.
    + intros d' Hd'. simpl in Hd'.
      rewrite Hother by tauto. rewrite dict_get_set.
      destruct (key_eqb_spec d d') as [->|_]; [tauto|reflexivity].
    + intros d' m0 Hget. cbn [dict_get] in Hget.
      destruct (key_eqb_spec d d') as [<-|Hne].
      * injection Hget as <-.
        exists chunks, (of_ranges L').
        rewrite Hother by assumption. rewrite dict_get_set, key_eqb_refl.
        split; [reflexivity|]. cbn [dict_get]. rewrite key_eqb_refl.
        split; [reflexivity|]. split; [now apply SInv_of_ranges|].
        rewrite !ranges_of_ranges. auto.
      * destruct (Hmine d' m0 Hget) as (cs & m' & H1 & H2 & H3).
        exists cs, m'. split; [exact H1|]. split; [|exact H3].
        cbn [dict_get]. destruct (key_eqb_spec d d'); [contradiction|exact H2].
Qed.

(** X16: [_release_traj_tensors] under batched sampling, in a state that
    satisfies the slot invariant.  The slices of the release list are
    merged into the sampling mergers, and what is put on the queue of a
    device are slices of exactly [traj_per_sampling_iteration] slots; the
    ranges left in its sampling merger are all shorter than that.  Every
    slot that was in the sampling merger or in the release list is
    afterwards in the sampling merger or in one slice handed back, and in
    one of them only; the release list is emptied. *)
Theorem batched_release_whole_batches (st : Batcher) (b : nat)
    (P : list (Device * slice)) :
  BCore st ->
  batched_sampling (cfg st) = true ->
  nth_error (traj_tensors_to_release st) b = Some P ->
  exists st',
    _release_traj_tensors b st = (Ok tt, st') /\
    nth_error (traj_tensors_to_release st') b = Some [] /\
    emitted st'
    = emitted st ++
      [TrajectoryBuffersAvailable (policy_id st) (training_iteration st)] /\
    slices_for_training st' = slices_for_training st /\
    forall d,
      In d (traj_tensors st) ->
      exists batches m',
        dict_get (traj_buffer_queues st') d
        = option_map (fun q => q ++ map QSlice batches)
                     (dict_get (traj_buffer_queues st) d) /\
        Forall (fun c => slice_len c = traj_per_sampling_iteration st) batches /\
        dict_get (slices_for_sampling st') d = Some m' /\
        Forall (fun s => slice_len s < traj_per_sampling_iteration st)
               (ranges m') /\
        (forall i,
            (occ d i (located (slices_for_sampling st)) + occ d i P
             = cnt i (ranges m') + cnt i batches)%nat).
Proof.
  intros Hcore Hmode HPnth.
  pose proof Hcore as
    [hkT hkS hdev hq hB hn hT hS hbat hblen hrlen hrok hexcl].
  apply nth_error_split in HPnth. destruct HPnth as (P1 & P2 & HP & Hb).
  assert (HPok : Forall (fun x => In (fst x) (dict_keys (slices_for_sampling st))
                                  /\ nonempty (snd x)) P).
  { rewrite hkS. rewrite HP, concat_middle in hrok.
    apply Forall_app in hrok. destruct hrok as [_ H].
    apply Forall_app in H. tauto. }
  assert (Hocc : forall d i,
             (occ d i (located (slices_for_sampling st) ++ P) <= 1)%nat).
  { intros d i. specialize (hexcl d i). unfold held in hexcl.
    rewrite HP, !occ_app, occ_concat_middle in hexcl. rewrite occ_app. lia. }
  assert (Hnd : NoDup (dict_keys (slices_for_sampling st)))
    by (rewrite hkS; assumption).
  specialize (hn Hmode).
  destruct (merge_released_spec P (slices_for_sampling st) Hnd hS HPok Hocc)
    as (S1 & E1 & Hk1 & HS1 & Hocc1).
  destruct (extract_sampling_batches_full (traj_per_sampling_iteration st) hn
              S1 [] [])
    as (S' & nsb & E2 & Hk2 & Hndn & Hincl & _ & Hmine).
  { simpl. rewrite Hk1. exact Hnd. }
  { exact HS1. }
  { constructor. }
  simpl in E2, Hincl.
  destruct (put_all_spec nsb (traj_buffer_queues st))
    as (queues' & E3 & Hk3 & Hget).
  { intros x Hx. apply hq. rewrite <- hkS, <- Hk1. auto. }
  eexists. split; [|split; [|split; [|split]]].
  - unfold _release_traj_tensors.
    rewrite run_bind_get.
    rewrite (run_bind_lift _ P) by (rewrite HP, <- Hb; apply list_lookup_middle).
    rewrite Hmode.
    erewrite run_bind_ok.
    2:{ rewrite (run_bind_lift _ S1) by exact E1.
        rewrite run_bind_modify.
        rewrite (run_bind_lift _ (S', nsb)) by exact E2.
        rewrite run_bind_modify. reflexivity. }
    rewrite (run_bind_lift _ (P1 ++ [] :: P2))
      by (rewrite HP, <- Hb; apply list_assign_middle).
    rewrite run_bind_modify.
    rewrite (run_bind_lift _ queues') by exact E3.
    rewrite run_bind_modify. reflexivity.
  - simpl. rewrite <- Hb. apply nth_error_middle.
  - reflexivity.
  - reflexivity.
  - intros d Hd. simpl.
    destruct (dict_get_In S1 d) as [m1 Hm1];
      [rewrite Hk1, hkS; exact Hd|].
    destruct (Hmine d m1 Hm1) as (chunks & m' & Hn1 & Hn2 & _ & Hlen & Hshort & Hcnt).
    exists chunks, m'. split; [|split; [exact Hlen|split; [exact Hn2|split]]].
    + rewrite (Hget Hndn d), Hn1. reflexivity.
    + exact Hshort.
    + intros i. rewrite <- Hocc1, <- Hcnt.
      apply occ_located_get; [rewrite Hk1; exact Hnd|exact Hm1].
Qed.

Lemma sE0_reachable : reachable no_shuffle sE0.
Proof.
  apply (reach_setup no_shuffle 0 (example_bm 4 2 2) (example_cfg false true)).
  - apply example_config_ok; lia.
  - vm_compute. reflexivity.
Qed.

Lemma sE1_reachable : reachable no_shuffle sE1.
Proof. run_report sE0 (mk_slice 0 5). exact sE0_reachable. Qed.

Lemma sE2_reachable : reachable no_shuffle sE2.
Proof. run_pass sE1 0%nat [1%nat]. exact sE1_reachable. Qed.

(** Sampling batches of 2 slots: the batch made of [0,4) goes back as
    [0,2) and [2,4). *)
Lemma batched_release_example :
  traj_buffer_queues (snd (_release_traj_tensors 0 sE2))
  = [("cpu"%string, [QSlice (mk_slice 0 2); QSlice (mk_slice 2 4)])] /\
  exists st',
    _release_traj_tensors 0 sE2 = (Ok tt, st') /\
    nth_error (traj_tensors_to_release st') 0 = Some [] /\
    emitted st'
    = emitted sE2 ++
      [TrajectoryBuffersAvailable (policy_id sE2) (training_iteration sE2)] /\
    slices_for_training st' = slices_for_training sE2 /\
    forall d,
      In d (traj_tensors sE2) ->
      exists batches m',
        dict_get (traj_buffer_queues st') d
        = option_map (fun q => q ++ map QSlice batches)
                     (dict_get (traj_buffer_queues sE2) d) /\
        Forall (fun c => slice_len c = traj_per_sampling_iteration sE2) batches /\
        dict_get (slices_for_sampling st') d = Some m' /\
        Forall (fun s => slice_len s < traj_per_sampling_iteration sE2)
               (ranges m') /\
        (forall i,
            (occ d i (located (slices_for_sampling sE2))
             + occ d i [("cpu"%string, mk_slice 0 4)]
             = cnt i (ranges m') + cnt i batches)%nat).
Proof.
  split; [vm_compute; reflexivity|].
  apply (batched_release_whole_batches sE2 0%nat [("cpu"%string, mk_slice 0 4)]).
  - apply (inv_core _ (reachable_BInv no_shuffle no_shuffle_perm sE2 sE2_reachable)).
  - vm_compute. reflexivity.
  - vm_compute. reflexivity.
Defined.

(** ** What a training batch is made of *)



Section Batches.
Variable shuffle : nat -> list Device -> list Device.
Hypothesis shuffle_perm : forall k l, Permutation (shuffle k l) l.

End Batches.



(* ================================================================== *)
(** * The saving batcher: further properties *)

Section SavingSteps.
Variable ops : DatasetOps.

(** ** Handing slots back *)

Lemma saving_release_run (st : SavingBatcher ops) :
  batched_sampling (cfg (sb_base st)) = false ->
  incl (map fst (traj_slices_to_release st))
       (dict_keys (traj_buffer_queues (sb_base st))) ->
  exists queues',
    saving_release_traj_tensors ops st
    = (Ok tt,
       set_base ops
         (fun b0 =>
            set_emitted
              (emitted b0 ++
               [TrajectoryBuffersAvailable (policy_id (sb_base st))
                  (training_iteration (sb_base st))]) b0)
         (set_base ops (set_traj_buffer_queues queues')
            (set_traj_slices_to_release ops [] st))) /\
    forall d,
      dict_get queues' d
      = option_map
          (fun q => q ++ map QIndex
                      (sort_Z (indices_for d (traj_slices_to_release st))))
          (dict_get (traj_buffer_queues (sb_base st)) d).
Proof.
  intros Hmode Hq.
  set (P := traj_slices_to_release st) in *.
  set (grouped := collect_indices P []).
  set (nsb := map (fun '(device, l) => (device, map QIndex l)) (sort_all grouped)).
  destruct (collect_indices_keys P []) as [Hnd Hincl]; [constructor|].
  fold grouped in Hnd, Hincl. simpl in Hincl.
  assert (Hkeys : dict_keys nsb = dict_keys grouped).
  { unfold nsb, sort_all.
    rewrite (dict_keys_map_values (map QIndex)).
    apply (dict_keys_map_values sort_Z). }
  destruct (put_all_spec nsb (traj_buffer_queues (sb_base st)))
    as (queues' & E & Hk & Hget).
  { rewrite Hkeys. intros x Hx. apply Hq. auto. }
  exists queues'. split.
  - unfold saving_release_traj_tensors.
    rewrite run_bind_get, Hmode, run_bind_ret, run_bind_modify.
    rewrite (run_bind_lift _ queues') by exact E.
    rewrite run_bind_modify. unfold sb_emit, modify. reflexivity.
  - intros d. rewrite Hget by (rewrite Hkeys; exact Hnd).
    unfold nsb, sort_all.
    rewrite (dict_get_map_values (map QIndex)), (dict_get_map_values sort_Z).
    unfold grouped. rewrite collect_indices_get. simpl.
    destruct (mentions d P) eqn:Em; simpl; [reflexivity|].
    rewrite indices_for_not_mentioned by assumption. simpl.
    destruct (dict_get (traj_buffer_queues (sb_base st)) d); simpl;
      [rewrite app_nil_r|]; reflexivity.
Qed.

(** X17: [SavingBatcher._release_traj_tensors] without batched sampling, when
    every device of the list of slices to release has a queue: it returns
    normally, empties the list, appends to the queue of each device the
    slot indices of that device's slices, sorted, leaves the other queues
    alone, and emits [trajectory_buffers_available]. *)
Theorem saving_release_hands_back_sorted (st : SavingBatcher ops) :
  batched_sampling (cfg (sb_base st)) = false ->
  incl (map fst (traj_slices_to_release st))
       (dict_keys (traj_buffer_queues (sb_base st))) ->
  exists st',
    saving_release_traj_tensors ops st = (Ok tt, st') /\
    traj_slices_to_release st' = [] /\
    (forall d,
        dict_get (traj_buffer_queues (sb_base st')) d
        = option_map
            (fun q => q ++ map QIndex
                        (sort_Z (indices_for d (traj_slices_to_release st))))
            (dict_get (traj_buffer_queues (sb_base st)) d)) /\
    (forall d,
        StronglySorted Z.le (sort_Z (indices_for d (traj_slices_to_release st))) /\
        forall i,
          In i (sort_Z (indices_for d (traj_slices_to_release st))) <->
          exists s, In (d, s) (traj_slices_to_release st)
                    /\ start s <= i < stop s) /\
    emitted (sb_base st')
    = emitted (sb_base st) ++
      [TrajectoryBuffersAvailable (policy_id (sb_base st))
         (training_iteration (sb_base st))] /\
    slices_for_training (sb_base st') = slices_for_training (sb_base st) /\
    available_batches (sb_base st') = available_batches (sb_base st) /\
    sb_dataset st' = sb_dataset st.
Proof.
  intros Hmode Hq.
  destruct (saving_release_run st Hmode Hq) as (queues' & E & Hget).
  eexists. split; [exact E|]. split; [reflexivity|]. split; [exact Hget|].
  split; [|auto].
  intros d. split; [apply sort_Z_sorted|].
  intros i. rewrite <- (In_indices_for d i (traj_slices_to_release st)). split.
  - apply Permutation_in. apply sort_Z_perm.
  - apply Permutation_in. symmetry. apply sort_Z_perm.
Qed.

(** ** Moving reported slots into the dataset *)

Lemma collect_while_simulates (B : Z) (d : Device) (fuel : nat) :
  forall (slices : SliceMerger) (buf : list (option record))
         (R : list (Device * slice)) (c rem : Z) (cs : CopyState)
         (ds : Dataset ops) (R0 : list (Device * slice)),
    copy_while fuel B d (mk_copy slices (Ok buf) R c rem) = Ok cs ->
    exists X buf',
      cs_release cs = R ++ X /\
      cs_batch cs = Ok buf' /\
      collect_while ops fuel B d (mk_collect ops slices (Some ds) R0 c rem)
      = Ok (mk_collect ops (cs_slices cs) (Some (add_all ops X ds)) (R0 ++ X)
              (trajectories_copied cs) (remaining cs)).
Proof.
  induction fuel as [|fuel IH]; intros slices buf R c rem cs ds R0 Hrun;
    [discriminate|].
  cbn [copy_while] in Hrun. cbn [collect_while]. simpl in Hrun |- *.
  destruct (rem >? 0).
  - destruct (get_at_most slices rem) as [[[ts|] slices']|e]; [| |discriminate].
    + destruct (copy_range buf c (read_records d ts)) as [buf1|e];
        [|discriminate].
      destruct (IH _ _ _ _ _ _ (dataset_add ops ds (read_records d ts))
                   (R0 ++ [(d, ts)]) Hrun)
        as (X & buf' & HR & Hb & E).
      exists ((d, ts) :: X), buf'.
      split; [rewrite HR, <- app_assoc; reflexivity|].
      split; [exact Hb|].
      rewrite E, <- app_assoc. reflexivity.
    + injection Hrun as <-. exists [], buf. simpl.
      rewrite !app_nil_r. auto.
  - injection Hrun as <-. exists [], buf. simpl.
    rewrite !app_nil_r. auto.
Qed.

Lemma collect_from_devices_simulates (B : Z) (tensors : list Device)
    (devices : list Device) :
  forall (T : dict Device SliceMerger) (buf : list (option record))
         (R : list (Device * slice)) (c rem : Z) (f : BatchFill)
         (ds : Dataset ops) (R0 : list (Device * slice)),
    copy_from_devices B tensors devices (mk_fill T (Ok buf) R c rem) = Ok f ->
    exists X,
      bf_release f = R ++ X /\
      collect_from_devices ops B tensors devices
        (mk_collect_all ops T (Some ds) R0 c rem)
      = Ok (mk_collect_all ops (bf_slices f) (Some (add_all ops X ds)) (R0 ++ X)
              (bf_copied f) (bf_remaining f)).
Proof.
  induction devices as [|d devices IH]; intros T buf R c rem f ds R0 Hrun.
  - simpl in Hrun. injection Hrun as <-. exists []. simpl.
    rewrite !app_nil_r. auto.
  - cbn [copy_from_devices bf_slices bf_batch bf_release bf_copied bf_remaining]
      in Hrun.
    cbn [collect_from_devices ca_slices ca_dataset ca_release ca_copied
         ca_remaining].
    destruct (existsb (String.eqb d) tensors); [|discriminate].
    destruct (dict_lookup T d) as [slices|e]; [|discriminate].
    destruct (copy_while (S (List.length (slice_starts slices))) B d
                (mk_copy slices (Ok buf) R c rem)) as [cs|e] eqn:Ecw;
      [|discriminate].
    destruct (collect_while_simulates B d _ _ _ _ _ _ _ ds R0 Ecw)
      as (X1 & buf1 & HR1 & Hb1 & E1).
    rewrite E1. rewrite HR1, Hb1 in Hrun.
    cbn [cl_slices cl_dataset cl_release cl_copied cl_remaining].
    destruct (IH _ _ _ _ _ _ (add_all ops X1 ds) (R0 ++ X1) Hrun)
      as (X2 & HR2 & E2).
    exists (X1 ++ X2). split; [rewrite HR2, app_assoc; reflexivity|].
    simpl in E2 |- *. rewrite E2. unfold add_all.
    rewrite fold_left_app, <- app_assoc. reflexivity.
Qed.

Variable shuffle : nat -> list Device -> list Device.
Hypothesis shuffle_perm : forall k l, Permutation (shuffle k l) l.

Lemma saving_collect_run (st : SavingBatcher ops)
    (ds : Dataset ops) :
  dict_keys (slices_for_training (sb_base st)) = traj_tensors (sb_base st) ->
  NoDup (traj_tensors (sb_base st)) ->
  Forall SInv (dict_values (slices_for_training (sb_base st))) ->
  0 <= traj_per_training_iteration (sb_base st) ->
  sb_dataset st = Some ds ->
  exists st' xs,
    _maybe_enqueue_new_trajectory_data ops shuffle st = (Ok tt, st') /\
    traj_slices_to_release st' = traj_slices_to_release st ++ xs /\
    sb_dataset st' = Some (add_all ops xs ds) /\
    sum_len (map snd xs)
    = Z.min (traj_per_training_iteration (sb_base st))
            (total_num_trajectories (slices_for_training (sb_base st))) /\
    total_num_trajectories (slices_for_training (sb_base st'))
    = total_num_trajectories (slices_for_training (sb_base st))
      - sum_len (map snd xs) /\
    (forall d i,
        occ d i (located (slices_for_training (sb_base st)))
        = (occ d i (located (slices_for_training (sb_base st')))
           + occ d i xs)%nat) /\
    Forall (fun x => In (fst x) (traj_tensors (sb_base st))
                     /\ start (snd x) < stop (snd x)) xs /\
    Forall SInv (dict_values (slices_for_training (sb_base st'))) /\
    dict_keys (slices_for_training (sb_base st'))
    = dict_keys (slices_for_training (sb_base st)) /\
    emitted (sb_base st') = emitted (sb_base st) /\
    traj_buffer_queues (sb_base st') = traj_buffer_queues (sb_base st) /\
    available_batches (sb_base st') = available_batches (sb_base st).
Proof.
  intros Hkeys Hnd HT HB Hds.
  set (B := traj_per_training_iteration (sb_base st)) in *.
  set (T := slices_for_training (sb_base st)) in *.
  set (todo := shuffle (shuffles (sb_base st)) (dict_keys T)).
  assert (Hperm : Permutation todo (dict_keys T)) by apply shuffle_perm.
  destruct (copy_from_devices_spec B (traj_tensors (sb_base st)) todo T
              (repeat None (Z.to_nat B)) [] 0)
    as (T' & xs & buf' & c' & E & Hc' & Hle & Hk' & HT' & Hocc & Hsum
        & Hxs & _ & _ & Hdone & _).
  { eapply Permutation_NoDup; [symmetry; exact Hperm|]. rewrite Hkeys. exact Hnd. }
  { intros x Hx. eapply Permutation_in; eauto. }
  { intros x Hx. rewrite <- Hkeys. eapply Permutation_in; eauto. }
  { assumption. }
  { lia. }
  { rewrite repeat_length. lia. }
  { reflexivity. }
  simpl in E, Hc'.
  destruct (collect_from_devices_simulates B (traj_tensors (sb_base st)) todo
              T _ [] 0 (B - 0) _ ds (traj_slices_to_release st) E)
    as (X & HX & Ecol).
  simpl in HX, Ecol. subst X.
  assert (HT'nn : 0 <= sum_total T').
  { clear -HT'. induction T' as [|[d m] T' IH]; simpl; [lia|].
    simpl in HT'. apply Forall_cons_iff in HT'. destruct HT' as [Hm HT'].
    specialize (IH HT'). destruct (SInv_elim m Hm) as (L & -> & Hwf & _).
    simpl. pose proof (sum_len_nonneg L (proj1 Hwf)). lia. }
  assert (Hmin : sum_len (map snd xs) = Z.min B (sum_total T)).
  { destruct Hdone as [Hfull|Hempty]; [lia|].
    assert (Hz : sum_total T' = 0).
    { apply sum_total_zero.
      - rewrite Hk', Hkeys. exact Hnd.
      - intros d Hd. apply Hempty. rewrite Hk' in Hd.
        eapply Permutation_in; [symmetry; exact Hperm|exact Hd]. }
    lia. }
  eexists. exists xs.
  split; [|split; [|split; [|split; [|split; [|split; [|split;
    [|split; [|split; [|split; [|split]]]]]]]]]].
  - unfold _maybe_enqueue_new_trajectory_data.
    rewrite run_bind_get. cbv zeta. rewrite run_bind_modify.
    fold B. fold T. fold todo. rewrite Hds.
    rewrite (run_bind_lift _ _ _ _ Ecol).
    rewrite !run_bind_modify. unfold modify. reflexivity.
  - reflexivity.
  - reflexivity.
  - rewrite total_num_trajectories_sum. exact Hmin.
  - simpl. rewrite !total_num_trajectories_sum. fold T. lia.
  - simpl. exact Hocc.
  - eapply Forall_impl; [|exact Hxs]. simpl. intros x [Hx Hne].
    split; [|exact Hne]. rewrite <- Hkeys. eapply Permutation_in; eauto.
  - simpl. exact HT'.
  - simpl. exact Hk'.
  - reflexivity.
  - reflexivity.
  - reflexivity.
Qed.

(** X18: [_maybe_enqueue_new_trajectory_data] moves slots from the training
    mergers into the dataset, at most [traj_per_training_iteration] of
    them per call: when the mergers are well formed and keyed by the
    devices, it returns normally; the slices it takes hold
    min(traj_per_training_iteration, slots waiting) slots, each is added
    to the dataset and appended to the list of slices to release; a slot
    that waited is afterwards either still waiting or in one of these
    slices, never both. *)
Theorem saving_collects_at_most_a_batch (st : SavingBatcher ops)
    (ds : Dataset ops) :
  dict_keys (slices_for_training (sb_base st)) = traj_tensors (sb_base st) ->
  NoDup (traj_tensors (sb_base st)) ->
  Forall SInv (dict_values (slices_for_training (sb_base st))) ->
  0 <= traj_per_training_iteration (sb_base st) ->
  sb_dataset st = Some ds ->
  exists st' xs,
    _maybe_enqueue_new_trajectory_data ops shuffle st = (Ok tt, st') /\
    traj_slices_to_release st' = traj_slices_to_release st ++ xs /\
    sb_dataset st' = Some (add_all ops xs ds) /\
    sum_len (map snd xs)
    = Z.min (traj_per_training_iteration (sb_base st))
            (total_num_trajectories (slices_for_training (sb_base st))) /\
    total_num_trajectories (slices_for_training (sb_base st'))
    = total_num_trajectories (slices_for_training (sb_base st))
      - sum_len (map snd xs) /\
    (forall d i,
        occ d i (located (slices_for_training (sb_base st)))
        = (occ d i (located (slices_for_training (sb_base st')))
           + occ d i xs)%nat) /\
    Forall SInv (dict_values (slices_for_training (sb_base st'))) /\
    emitted (sb_base st') = emitted (sb_base st) /\
    traj_buffer_queues (sb_base st') = traj_buffer_queues (sb_base st).
Proof.
  intros Hkeys Hnd HT HB Hds.
  destruct (saving_collect_run st ds Hkeys Hnd HT HB Hds)
    as (st' & xs & E & H1 & H2 & H3 & H4 & H5 & _ & H7 & _ & H9 & H10 & _).
  exists st', xs. auto 10.
Qed.

(** ** Announcing training batches *)

Lemma next_batch_yields (st : SavingBatcher ops) (ds : Dataset ops) :
  sb_dataset st = Some ds ->
  _data_iter st <> None ->
  loader_next ops ds (loader_iter ops ds) <> None ->
  exists batch it',
    next_batch ops st = (Ok batch, set_data_iter ops (Some it') st).
Proof.
  intros Hds Hit Hfresh. unfold next_batch. rewrite run_bind_get.
  rewrite Hds. destruct (_data_iter st) as [it|] eqn:Eit; [|contradiction].
  destruct (loader_next ops ds it) as [[batch it']|] eqn:En.
  - exists batch, it'. rewrite run_bind_modify. reflexivity.
  - rewrite run_bind_modify.
    destruct (loader_next ops ds (loader_iter ops ds)) as [[batch it']|];
      [|contradiction].
    exists batch, it'. rewrite run_bind_modify. reflexivity.
Qed.

Lemma list_set_length {A : Type} (l : list A) (n : nat) (v : A) (l' : list A) :
  list_set l n v = Some l' -> List.length l' = List.length l.
Proof.
  revert n l'. induction l as [|x l IH]; intros [|n] l' H; simpl in H;
    try discriminate.
  - injection H as <-. reflexivity.
  - destruct (list_set l n v) as [r|] eqn:E; [|discriminate].
    injection H as <-. simpl. f_equal. eapply IH; eauto.
Qed.

Lemma list_set_lt {A : Type} (l : list A) (n : nat) (v : A) :
  (n < List.length l)%nat -> exists l', list_set l n v = Some l'.
Proof.
  revert n. induction l as [|x l IH]; intros [|n] H; simpl in *; try lia.
  - eauto.
  - destruct (IH n ltac:(lia)) as [l' ->]. eauto.
Qed.

Lemma saving_enqueue_loop_sync (ds : Dataset ops) (fuel : nat) :
  forall (st : SavingBatcher ops),
    async_rl (cfg (sb_base st)) = false ->
    (List.length (available_batches (sb_base st)) < fuel)%nat ->
    Forall (fun b => (b < List.length (training_batches (sb_base st)))%nat /\
                     nth_error (traj_tensors_to_release (sb_base st)) b = Some [])
           (available_batches (sb_base st)) ->
    sb_dataset st = Some ds ->
    _data_iter st <> None ->
    loader_next ops ds (loader_iter ops ds) <> None ->
    exists st',
      saving_enqueue_loop ops fuel st = (Ok tt, st') /\
      available_batches (sb_base st') = [] /\
      emitted (sb_base st')
      = emitted (sb_base st)
        ++ map TrainingBatchesAvailable (available_batches (sb_base st)) /\
      List.length (training_batches (sb_base st'))
      = List.length (training_batches (sb_base st)) /\
      traj_slices_to_release st' = traj_slices_to_release st /\
      traj_buffer_queues (sb_base st') = traj_buffer_queues (sb_base st) /\
      slices_for_training (sb_base st') = slices_for_training (sb_base st) /\
      traj_tensors_to_release (sb_base st') = traj_tensors_to_release (sb_base st) /\
      training_iteration (sb_base st') = training_iteration (sb_base st) /\
      _prev_data_collect_iteration st' = _prev_data_collect_iteration st /\
      sb_dataset st' = Some ds /\
      _data_iter st' <> None.
Proof.
  induction fuel as [|fuel IH]; intros st Hmode Hfuel Hav Hds Hit Hfresh; [lia|].
  cbn [saving_enqueue_loop]. rewrite run_bind_get.
  destruct (available_batches (sb_base st)) as [|b rest] eqn:Eav.
  - exists st. split; [reflexivity|]. rewrite Eav, app_nil_r.
    repeat (split; [reflexivity|]). split; assumption.
  - apply Forall_cons_iff in Hav. destruct Hav as [[Hb Hrel] Hrest].
    rewrite run_bind_modify.
    rewrite (run_bind_lift _ [])
      by (unfold list_lookup; rewrite Hrel; reflexivity).
    rewrite run_bind_assert by reflexivity.
    set (st1 := set_base ops (set_available_batches rest) st).
    destruct (next_batch_yields st1 ds Hds Hit Hfresh) as (batch & it' & En).
    rewrite (run_bind_ok _ batch _ _ _ En).
    destruct (list_set_lt (training_batches (sb_base st)) b batch Hb)
      as (batches & Eb).
    rewrite (run_bind_lift _ batches) by (unfold list_assign; rewrite Eb; reflexivity).
    rewrite run_bind_modify. unfold sb_emit. rewrite run_bind_modify.
    rewrite Hmode, run_bind_ret.
    set (st2 := set_base ops _ _).
    destruct (IH st2) as (st' & E & H1 & H2 & H3 & H4 & H5 & H6 & H7 & H8 & H9
                          & H10 & H11).
    + exact Hmode.
    + simpl in Hfuel |- *. lia.
    + simpl. rewrite (list_set_length _ _ _ _ Eb). exact Hrest.
    + exact Hds.
    + simpl. discriminate.
    + exact Hfresh.
    + exists st'. split; [exact E|]. split; [exact H1|].
      split; [rewrite H2; simpl; rewrite <- app_assoc; reflexivity|].
      split; [rewrite H3; simpl; apply (list_set_length _ _ _ _ Eb)|].
      repeat (split; [assumption|]). assumption.
Qed.

(** X19: [SavingBatcher._maybe_enqueue_new_training_batches] in synchronous
    mode does not wait for anything: with a data iterator in place and a
    loader that yields a batch when started afresh, it returns normally
    and has announced a training batch for every buffer that was free, in
    the order of the free list, which is then empty.  No slot is handed
    back and no merger is touched. *)
Theorem saving_announces_every_free_buffer (st : SavingBatcher ops)
    (ds : Dataset ops) :
  async_rl (cfg (sb_base st)) = false ->
  Forall (fun b => (b < List.length (training_batches (sb_base st)))%nat /\
                   nth_error (traj_tensors_to_release (sb_base st)) b = Some [])
         (available_batches (sb_base st)) ->
  sb_dataset st = Some ds ->
  _data_iter st <> None ->
  loader_next ops ds (loader_iter ops ds) <> None ->
  exists st',
    saving_maybe_enqueue_new_training_batches ops st = (Ok tt, st') /\
    available_batches (sb_base st') = [] /\
    emitted (sb_base st')
    = emitted (sb_base st)
      ++ map TrainingBatchesAvailable (available_batches (sb_base st)) /\
    traj_slices_to_release st' = traj_slices_to_release st /\
    traj_buffer_queues (sb_base st') = traj_buffer_queues (sb_base st) /\
    slices_for_training (sb_base st') = slices_for_training (sb_base st) /\
    sb_dataset st' = Some ds.
Proof.
  intros Hmode Hav Hds Hit Hfresh.
  destruct (saving_enqueue_loop_sync ds
              (S (List.length (available_batches (sb_base st)))) st
              Hmode ltac:(lia) Hav Hds Hit Hfresh)
    as (st' & E & H1 & H2 & _ & H4 & H5 & H6 & _ & _ & _ & H10 & _).
  exists st'. split; [|auto 10].
  unfold saving_maybe_enqueue_new_training_batches. rewrite run_bind_get.
  exact E.
Qed.

(** X20: The loader of an empty dataset yields nothing even when started
    afresh: with a free buffer, the first [next] of
    [_maybe_enqueue_new_training_batches] ends the old pass, the second
    one, on the new iterator, raises [StopIteration], which is not
    caught.  The buffer has left the free list and nothing was announced. *)
Theorem saving_empty_loader_stops (st : SavingBatcher ops) (ds : Dataset ops)
    (it : DataIter ops) (b : nat) (rest : list nat) :
  available_batches (sb_base st) = b :: rest ->
  nth_error (traj_tensors_to_release (sb_base st)) b = Some [] ->
  sb_dataset st = Some ds ->
  _data_iter st = Some it ->
  loader_next ops ds it = None ->
  loader_next ops ds (loader_iter ops ds) = None ->
  saving_maybe_enqueue_new_training_batches ops st
  = (Raise StopIteration,
     set_data_iter ops (Some (loader_iter ops ds))
       (set_base ops (set_available_batches rest) st)).
Proof.
  intros Hav Hrel Hds Hit Hnext Hfresh.
  unfold saving_maybe_enqueue_new_training_batches. rewrite run_bind_get.
  cbn [saving_enqueue_loop]. rewrite run_bind_get, Hav, run_bind_modify.
  rewrite (run_bind_lift _ [])
    by (unfold list_lookup; rewrite Hrel; reflexivity).
  rewrite run_bind_assert by reflexivity.
  apply run_bind_raise. unfold next_batch. rewrite run_bind_get.
  cbn [set_base _data_iter sb_dataset]. rewrite Hit, Hds, Hnext.
  rewrite run_bind_modify, Hfresh. reflexivity.
Qed.
(** ** The learner's acknowledgement *)

(** X21: [SavingBatcher.on_training_batch_released] in synchronous mode,
    without batched sampling, for a buffer of the pool: it returns
    normally; the slots collected since the last release are handed back,
    sorted, exactly when [collect_more_data] holds, that is when
    [train_iter_to_data_collection_ratio] iterations have passed since the
    last release and the iteration is past [min_initial_train_iters]; and
    in either case a training batch is announced again at once for every
    free buffer, the returned one included, whether or not new data has
    arrived. *)
Theorem saving_acknowledgement (st : SavingBatcher ops) (ds : Dataset ops)
    (b : nat) (it : Z) :
  async_rl (cfg (sb_base st)) = false ->
  batched_sampling (cfg (sb_base st)) = false ->
  Forall (fun b' => (b' < List.length (training_batches (sb_base st)))%nat /\
                    nth_error (traj_tensors_to_release (sb_base st)) b' = Some [])
         (available_batches (sb_base st) ++ [b]) ->
  incl (map fst (traj_slices_to_release st))
       (dict_keys (traj_buffer_queues (sb_base st))) ->
  sb_dataset st = Some ds ->
  _data_iter st <> None ->
  loader_next ops ds (loader_iter ops ds) <> None ->
  exists st',
    saving_on_training_batch_released ops b it st = (Ok tt, st') /\
    available_batches (sb_base st') = [] /\
    training_iteration (sb_base st') = it /\
    emitted (sb_base st')
    = emitted (sb_base st)
      ++ (if collect_more_data ops st it
          then [TrajectoryBuffersAvailable (policy_id (sb_base st)) it]
          else [])
      ++ map TrainingBatchesAvailable (available_batches (sb_base st) ++ [b]) /\
    traj_slices_to_release st'
    = (if collect_more_data ops st it then [] else traj_slices_to_release st) /\
    _prev_data_collect_iteration st'
    = (if collect_more_data ops st it then it
       else _prev_data_collect_iteration st) /\
    (forall d,
        dict_get (traj_buffer_queues (sb_base st')) d
        = if collect_more_data ops st it
          then option_map
                 (fun q => q ++ map QIndex
                             (sort_Z (indices_for d (traj_slices_to_release st))))
                 (dict_get (traj_buffer_queues (sb_base st)) d)
          else dict_get (traj_buffer_queues (sb_base st)) d).
Proof.
  intros Hmode Hunb Hav Hq Hds Hit Hfresh.
  set (st0 := set_base ops
                (fun b0 => set_available_batches (available_batches b0 ++ [b]) b0)
                (set_base ops (set_training_iteration it) st)).
  assert (Hunf :
    saving_on_training_batch_released ops b it st
    = bind (if collect_more_data ops st it
            then bind (saving_release_traj_tensors ops)
                      (fun _ => modify (set_prev_data_collect_iteration ops it))
            else ret tt)
           (fun _ =>
              bind (saving_maybe_enqueue_new_training_batches ops)
                   (fun _ => if async_rl (cfg (sb_base st))
                             then raise NotImplementedError else ret tt))
           st0) by reflexivity.
  rewrite Hunf. clear Hunf.
  destruct (collect_more_data ops st it) eqn:Edue.
  - destruct (saving_release_run st0 Hunb Hq) as (queues' & E1 & Hget).
    set (st1 := set_prev_data_collect_iteration ops it
                  (set_base ops
                     (fun b0 =>
                        set_emitted
                          (emitted b0 ++
                           [TrajectoryBuffersAvailable (policy_id (sb_base st0))
                              (training_iteration (sb_base st0))]) b0)
                     (set_base ops (set_traj_buffer_queues queues')
                        (set_traj_slices_to_release ops [] st0)))).
    destruct (saving_enqueue_loop_sync ds
                (S (List.length (available_batches (sb_base st) ++ [b]))) st1)
      as (st' & E & H1 & H2 & _ & H4 & H5 & _ & _ & H8 & H9 & _ & _);
      try assumption.
    + simpl. lia.
    + exists st'. split; [|split; [exact H1|split; [|split; [|split; [|split]]]]].
      * erewrite run_bind_ok.
        2:{ rewrite (run_bind_ok _ tt _ _ _ E1). reflexivity. }
        cbv beta. fold st1.
        rewrite (run_bind_ok _ tt _ _ st').
        2:{ unfold saving_maybe_enqueue_new_training_batches.
            rewrite run_bind_get. exact E. }
        rewrite Hmode. reflexivity.
      * rewrite H8. reflexivity.
      * rewrite H2. simpl. rewrite <- app_assoc. reflexivity.
      * rewrite H4. reflexivity.
      * rewrite H9. reflexivity.
      * intros d. rewrite H5. simpl. apply Hget.
  - rewrite run_bind_ret.
    destruct (saving_enqueue_loop_sync ds
                (S (List.length (available_batches (sb_base st) ++ [b]))) st0)
      as (st' & E & H1 & H2 & _ & H4 & H5 & _ & _ & H8 & H9 & _ & _);
      try assumption.
    + simpl. lia.
    + exists st'. split; [|split; [exact H1|split; [|split; [|split; [|split]]]]].
      * cbv beta. rewrite (run_bind_ok _ tt _ _ st').
        2:{ unfold saving_maybe_enqueue_new_training_batches.
            rewrite run_bind_get. exact E. }
        rewrite Hmode. reflexivity.
      * rewrite H8. reflexivity.
      * rewrite H2. reflexivity.
      * rewrite H4. reflexivity.
      * rewrite H9. reflexivity.
      * intros d. rewrite H5. reflexivity.
Qed.
(** ** Reports of new trajectories *)

Lemma dict_set_set {K V : Type} `{Key K} (d : dict K V) (k : K) (v v' : V) :
  dict_set (dict_set d k v) k v' = dict_set d k v'.
Proof.
  induction d as [|[k0 v0] d IH]; cbn [dict_set].
  - rewrite key_eqb_refl. reflexivity.
  - destruct (key_eqb k0 k) eqn:E; cbn [dict_set]; rewrite E; [reflexivity|].
    now rewrite IH.
Qed.

Lemma saving_merge_run (device : Device) (tds : list TrajectoryDict) :
  forall (st : SavingBatcher ops) (m m' : SliceMerger),
    Forall (fun td => td_policy_id td = policy_id (sb_base st)) tds ->
    dict_get (slices_for_training (sb_base st)) device = Some m ->
    merge_all m (reported_slices tds) = Ok m' ->
    saving_merge_new_trajectories ops device tds st
    = (Ok tt,
       set_n_slices_merged ops
         (_n_slices_merged st + sum_len (reported_slices tds))
         (set_base ops
            (set_slices_for_training
               (dict_set (slices_for_training (sb_base st)) device m'))
            st)).
Proof.
  induction tds as [|td tds IH]; intros st m m' Hpol Hm Hall.
  - simpl in Hall. injection Hall as <-. simpl.
    rewrite (dict_set_same _ _ _ Hm), Z.add_0_r.
    destruct st as [[] ? ? ? ? ? ?]. reflexivity.
  - apply Forall_cons_iff in Hpol. destruct Hpol as [Hp Hpol].
    cbn [reported_slices map merge_all] in Hall.
    destruct (merge_slices m (as_slice (traj_buffer_idx td))) as [m1|e] eqn:E1;
      [|discriminate].
    cbn [saving_merge_new_trajectories]. rewrite run_bind_get.
    rewrite run_bind_assert by (apply Z.eqb_eq; exact Hp).
    cbv zeta.
    rewrite (run_bind_lift _ m) by (unfold dict_lookup; rewrite Hm; reflexivity).
    rewrite (run_bind_lift _ m1) by exact E1.
    rewrite !run_bind_modify.
    rewrite (IH _ m1 m').
    + cbn [reported_slices map sum_len]. f_equal.
      unfold set_n_slices_merged, set_base, set_slices_for_training. simpl.
      rewrite dict_set_set, Z.add_assoc. reflexivity.
    + exact Hpol.
    + simpl. rewrite dict_get_set, key_eqb_refl. reflexivity.
    + exact Hall.
Qed.

Lemma sum_total_set (T : dict Device SliceMerger) (d : Device)
    (m m' : SliceMerger) :
  dict_get T d = Some m ->
  sum_total (dict_set T d m') = sum_total T - total_num m + total_num m'.
Proof.
  intros Hm. destruct (dict_get_split _ _ _ Hm) as (Ta & Tb & -> & Hfresh).
  rewrite dict_set_split by assumption.
  rewrite !sum_total_app. simpl. lia.
Qed.

Lemma Forall_values_set (P : SliceMerger -> Prop) (T : dict Device SliceMerger)
    (d : Device) (m m' : SliceMerger) :
  dict_get T d = Some m ->
  Forall P (dict_values T) -> P m' -> Forall P (dict_values (dict_set T d m')).
Proof.
  intros Hm HT Hm'. destruct (dict_get_split _ _ _ Hm) as (Ta & Tb & -> & Hfresh).
  rewrite dict_set_split by assumption.
  rewrite dict_values_app in *. apply Forall_app in HT. destruct HT as [Ha Hb].
  apply Forall_app. split; [assumption|]. simpl in *.
  apply Forall_cons_iff in Hb. constructor; tauto.
Qed.

(** X22: [SavingBatcher.on_new_trajectories], without batched sampling, for a
    report that keeps to the protocol.  The reported slices are merged and
    up to [traj_per_training_iteration] slots are moved into the dataset.
    While the dataset holds fewer than [min_saving_samples] samples, the
    slots moved so far are handed back at once, sorted, and no training
    batch is announced.  Once it holds enough, in synchronous mode,
    nothing is handed back: the slices stay in the list of slices to
    release, the data iterator is started afresh, and a training batch is
    announced for every free buffer. *)
Theorem saving_on_new_trajectories_outcomes (st : SavingBatcher ops)
    (tds : list TrajectoryDict) (device : Device) (m : SliceMerger)
    (ds : Dataset ops) (mn : Z) :
  dict_keys (slices_for_training (sb_base st)) = traj_tensors (sb_base st) ->
  NoDup (traj_tensors (sb_base st)) ->
  incl (traj_tensors (sb_base st))
       (dict_keys (traj_buffer_queues (sb_base st))) ->
  Forall SInv (dict_values (slices_for_training (sb_base st))) ->
  0 <= traj_per_training_iteration (sb_base st) ->
  Forall (fun x => In (fst x) (traj_tensors (sb_base st)))
         (traj_slices_to_release st) ->
  batched_sampling (cfg (sb_base st)) = false ->
  sb_dataset st = Some ds ->
  sb_min_saving_samples st = Some mn ->
  Forall (fun td => td_policy_id td = policy_id (sb_base st)) tds ->
  dict_get (slices_for_training (sb_base st)) device = Some m ->
  Forall nonempty (reported_slices tds) ->
  pairwise disjoint (reported_slices tds) ->
  (forall r i, In r (reported_slices tds) -> in_slice i r ->
               ~ covered i (ranges m)) ->
  exists xs,
    sum_len (map snd xs)
    = Z.min (traj_per_training_iteration (sb_base st))
            (total_num_trajectories (slices_for_training (sb_base st))
             + sum_len (reported_slices tds)) /\
    (num_samples ops (add_all ops xs ds) < mn ->
     exists st',
       saving_on_new_trajectories ops shuffle tds device st = (Ok tt, st') /\
       traj_slices_to_release st' = [] /\
       (forall d,
           dict_get (traj_buffer_queues (sb_base st')) d
           = option_map
               (fun q => q ++ map QIndex
                           (sort_Z (indices_for d
                                      (traj_slices_to_release st ++ xs))))
               (dict_get (traj_buffer_queues (sb_base st)) d)) /\
       emitted (sb_base st')
       = emitted (sb_base st) ++
         [TrajectoryBuffersAvailable (policy_id (sb_base st))
            (training_iteration (sb_base st))] /\
       available_batches (sb_base st') = available_batches (sb_base st) /\
       sb_dataset st' = Some (add_all ops xs ds)) /\
    (mn <= num_samples ops (add_all ops xs ds) ->
     async_rl (cfg (sb_base st)) = false ->
     Forall (fun b => (b < List.length (training_batches (sb_base st)))%nat /\
                      nth_error (traj_tensors_to_release (sb_base st)) b = Some [])
            (available_batches (sb_base st)) ->
     loader_next ops (add_all ops xs ds) (loader_iter ops (add_all ops xs ds))
       <> None ->
     exists st',
       saving_on_new_trajectories ops shuffle tds device st = (Ok tt, st') /\
       traj_slices_to_release st' = traj_slices_to_release st ++ xs /\
       traj_buffer_queues (sb_base st') = traj_buffer_queues (sb_base st) /\
       emitted (sb_base st')
       = emitted (sb_base st)
         ++ map TrainingBatchesAvailable (available_batches (sb_base st)) /\
       available_batches (sb_base st') = [] /\
       sb_dataset st' = Some (add_all ops xs ds)).
Proof.
  intros Hkeys Hnd Hqs HT HB Hrel Hunb Hds Hmn Hpol Hm Hne Hpw Hfresh.
  assert (Hminv : SInv m).
  { destruct (dict_get_Some_In _ _ _ Hm) as [_ Hin].
    rewrite Forall_forall in HT. auto. }
  destruct (SInv_elim m Hminv) as (L & -> & Hwf & _).
  rewrite ranges_of_ranges in Hfresh.
  destruct (merge_all_spec (reported_slices tds) L Hwf Hne Hpw Hfresh)
    as (L' & Emerge & Hwf' & _ & Hsum').
  pose proof (saving_merge_run device tds st (of_ranges L) (of_ranges L')
                Hpol Hm Emerge) as E1.
  set (st1 := set_n_slices_merged ops _ _) in E1.
  assert (Hkeys1 : dict_keys (slices_for_training (sb_base st1))
                   = traj_tensors (sb_base st1)).
  { simpl. rewrite (dict_keys_set _ _ _ _ Hm). exact Hkeys. }
  assert (HT1 : Forall SInv (dict_values (slices_for_training (sb_base st1)))).
  { simpl. eapply Forall_values_set; eauto. now apply SInv_of_ranges. }
  destruct (saving_collect_run st1 ds Hkeys1 Hnd HT1 HB Hds)
    as (st2 & xs & E2 & C1 & C2 & C3 & C4 & C5 & C6 & C7 & C8 & C9 & C10 & C11).
  assert (Htot1 : total_num_trajectories (slices_for_training (sb_base st1))
                  = total_num_trajectories (slices_for_training (sb_base st))
                    + sum_len (reported_slices tds)).
  { simpl. rewrite !total_num_trajectories_sum.
    rewrite (sum_total_set _ _ _ (of_ranges L') Hm). simpl. lia. }
  assert (Hmn2 : sb_min_saving_samples st2 = Some mn).
  { clear -E2 Hmn.
    unfold _maybe_enqueue_new_trajectory_data in E2.
    rewrite run_bind_get in E2. cbv zeta in E2. rewrite run_bind_modify in E2.
    match type of E2 with
    | context [lift ?r] => destruct r as [f|e] eqn:Ef
    end.
    - rewrite (run_bind_lift _ f) in E2 by reflexivity.
      rewrite !run_bind_modify in E2. unfold modify in E2.
      injection E2 as <-. exact Hmn.
    - rewrite (run_bind_lift_raise _ e) in E2 by reflexivity. discriminate. }
  assert (Hcfg2 : cfg (sb_base st2) = cfg (sb_base st)
                  /\ policy_id (sb_base st2) = policy_id (sb_base st)
                  /\ training_iteration (sb_base st2)
                     = training_iteration (sb_base st)
                  /\ training_batches (sb_base st2) = training_batches (sb_base st)
                  /\ traj_tensors_to_release (sb_base st2)
                     = traj_tensors_to_release (sb_base st)).
  { clear -E2.
    unfold _maybe_enqueue_new_trajectory_data in E2.
    rewrite run_bind_get in E2. cbv zeta in E2. rewrite run_bind_modify in E2.
    match type of E2 with
    | context [lift ?r] => destruct r as [f|e] eqn:Ef
    end.
    - rewrite (run_bind_lift _ f) in E2 by reflexivity.
      rewrite !run_bind_modify in E2. unfold modify in E2.
      injection E2 as <-. repeat split; reflexivity.
    - rewrite (run_bind_lift_raise _ e) in E2 by reflexivity. discriminate. }
  destruct Hcfg2 as (Hc2 & Hp2 & Hi2 & Hb2 & Hr2).
  assert (Hhead :
    saving_on_new_trajectories ops shuffle tds device st
    = (match sb_dataset st2, sb_min_saving_samples st2 with
       | None, _ => raise AttributeError
       | Some _, None => raise TypeError
       | Some ds0, Some min_samples =>
           if num_samples ops ds0 <? min_samples
           then saving_release_traj_tensors ops
           else bind (modify (set_data_iter ops (Some (loader_iter ops ds0))))
                     (fun _ => saving_maybe_enqueue_new_training_batches ops)
       end) st2).
  { unfold saving_on_new_trajectories.
    rewrite (run_bind_ok _ tt _ _ _ E1).
    rewrite (run_bind_ok _ tt _ _ _ E2).
    rewrite run_bind_get. reflexivity. }
  rewrite C2, Hmn2 in Hhead.
  exists xs. split; [rewrite C3, Htot1; reflexivity|].
  clear Htot1 C3 C4 C5 C7 C8 HT1 Hkeys1.
  subst st1. simpl in C1, C6, C9, C10, C11.
  split.
  - intros Hlow. apply Z.ltb_lt in Hlow. rewrite Hlow in Hhead.
    destruct (saving_release_run st2) as (queues' & E3 & Hget).
    { rewrite Hc2. exact Hunb. }
    { rewrite C1, C10. intros d Hd. apply Hqs.
      rewrite map_app in Hd. apply in_app_or in Hd. destruct Hd as [Hd|Hd].
      - apply in_map_iff in Hd. destruct Hd as (x & <- & Hx).
        rewrite Forall_forall in Hrel. apply (Hrel x Hx).
      - apply in_map_iff in Hd. destruct Hd as (x & <- & Hx).
        rewrite Forall_forall in C6. apply (C6 x Hx). }
    eexists. split; [rewrite Hhead; exact E3|].
    split; [reflexivity|]. split; [|split; [|split]].
    + intros d. simpl. rewrite Hget, C1, C10. reflexivity.
    + simpl. rewrite C9, Hp2, Hi2. reflexivity.
    + simpl. exact C11.
    + simpl. exact C2.
  - intros Hhigh Hmode Hav Hloader.
    assert (Hge : (num_samples ops (add_all ops xs ds) <? mn) = false)
      by (apply Z.ltb_ge; lia).
    rewrite Hge in Hhead.
    destruct (saving_enqueue_loop_sync (add_all ops xs ds)
                (S (List.length (available_batches (sb_base st))))
                (set_data_iter ops
                   (Some (loader_iter ops (add_all ops xs ds))) st2))
      as (st' & E & H1 & H2 & _ & H4 & H5 & _ & _ & _ & _ & H10 & _).
    + simpl. rewrite Hc2. exact Hmode.
    + simpl. rewrite C11. lia.
    + simpl. rewrite C11, Hb2, Hr2. exact Hav.
    + simpl. exact C2.
    + simpl. discriminate.
    + exact Hloader.
    + exists st'. split; [|split; [|split; [|split; [|split]]]].
      * rewrite Hhead, run_bind_modify.
        unfold saving_maybe_enqueue_new_training_batches.
        rewrite run_bind_get. simpl available_batches at 1.
        rewrite C11. exact E.
      * rewrite H4. simpl. exact C1.
      * rewrite H5. simpl. exact C10.
      * rewrite H2. simpl. rewrite C9, C11. reflexivity.
      * exact H1.
      * exact H10.
Qed.
End SavingSteps.

(** The saving batcher of the examples after its second report: [2,6) is
    in the dataset and waits for release, [6,7) waits in the merger. *)
Lemma saving_release_example :
  traj_slices_to_release sU2 = [("cpu"%string, mk_slice 2 6)] /\
  exists st',
    saving_release_traj_tensors (list_dataset 1) sU2 = (Ok tt, st') /\
    traj_slices_to_release st' = [] /\
    (forall d,
        dict_get (traj_buffer_queues (sb_base st')) d
        = option_map
            (fun q => q ++ map QIndex
                        (sort_Z (indices_for d (traj_slices_to_release sU2))))
            (dict_get (traj_buffer_queues (sb_base sU2)) d)) /\
    (forall d,
        StronglySorted Z.le (sort_Z (indices_for d (traj_slices_to_release sU2))) /\
        forall i,
          In i (sort_Z (indices_for d (traj_slices_to_release sU2))) <->
          exists s, In (d, s) (traj_slices_to_release sU2)
                    /\ start s <= i < stop s) /\
    emitted (sb_base st')
    = emitted (sb_base sU2) ++
      [TrajectoryBuffersAvailable (policy_id (sb_base sU2))
         (training_iteration (sb_base sU2))] /\
    slices_for_training (sb_base st') = slices_for_training (sb_base sU2) /\
    available_batches (sb_base st') = available_batches (sb_base sU2) /\
    sb_dataset st' = sb_dataset sU2.
Proof.
  split; [vm_compute; reflexivity|].
  apply (saving_release_hands_back_sorted (list_dataset 1) sU2).
  - vm_compute. reflexivity.
  - vm_compute. intros a H. exact H.
Defined.

Lemma sU2_mergers :
  dict_values (slices_for_training (sb_base sU2)) = [of_ranges [mk_slice 6 7]].
Proof. vm_compute. reflexivity. Qed.

(** One slot waits, a batch is 4: that slot is moved. *)
Lemma saving_collects_example :
  total_num_trajectories (slices_for_training (sb_base sU2)) = 1 /\
  exists st' xs,
    _maybe_enqueue_new_trajectory_data (list_dataset 1) no_shuffle sU2
    = (Ok tt, st') /\
    traj_slices_to_release st' = traj_slices_to_release sU2 ++ xs /\
    sb_dataset st'
    = Some (add_all (list_dataset 1) xs
              [("cpu"%string, 0); ("cpu"%string, 1); ("cpu"%string, 2);
               ("cpu"%string, 3); ("cpu"%string, 4); ("cpu"%string, 5)]) /\
    sum_len (map snd xs)
    = Z.min (traj_per_training_iteration (sb_base sU2))
            (total_num_trajectories (slices_for_training (sb_base sU2))) /\
    total_num_trajectories (slices_for_training (sb_base st'))
    = total_num_trajectories (slices_for_training (sb_base sU2))
      - sum_len (map snd xs) /\
    (forall d i,
        occ d i (located (slices_for_training (sb_base sU2)))
        = (occ d i (located (slices_for_training (sb_base st')))
           + occ d i xs)%nat) /\
    Forall SInv (dict_values (slices_for_training (sb_base st'))) /\
    emitted (sb_base st') = emitted (sb_base sU2) /\
    traj_buffer_queues (sb_base st') = traj_buffer_queues (sb_base sU2).
Proof.
  split; [vm_compute; reflexivity|].
  apply (saving_collects_at_most_a_batch (list_dataset 1) no_shuffle
           no_shuffle_perm sU2).
  - vm_compute. reflexivity.
  - vm_compute. repeat constructor. intros [].
  - rewrite sU2_mergers. constructor; [|constructor].
    apply SInv_of_ranges, wf_ranges_single. unfold nonempty; simpl; lia.
  - vm_compute. discriminate.
  - vm_compute. reflexivity.
Defined.

(** Both buffers free, six samples stored: both are announced. *)
Lemma saving_announces_example :
  exists st',
    saving_maybe_enqueue_new_training_batches (list_dataset 1)
      (set_base (list_dataset 1) (set_available_batches [0%nat; 1%nat]) sU2)
    = (Ok tt, st') /\
    available_batches (sb_base st') = [] /\
    emitted (sb_base st')
    = emitted (sb_base
                 (set_base (list_dataset 1)
                    (set_available_batches [0%nat; 1%nat]) sU2))
      ++ map TrainingBatchesAvailable
           (available_batches
              (sb_base
                 (set_base (list_dataset 1)
                    (set_available_batches [0%nat; 1%nat]) sU2))) /\
    traj_slices_to_release st'
    = traj_slices_to_release
        (set_base (list_dataset 1) (set_available_batches [0%nat; 1%nat]) sU2) /\
    traj_buffer_queues (sb_base st')
    = traj_buffer_queues
        (sb_base
           (set_base (list_dataset 1)
              (set_available_batches [0%nat; 1%nat]) sU2)) /\
    slices_for_training (sb_base st')
    = slices_for_training
        (sb_base
           (set_base (list_dataset 1)
              (set_available_batches [0%nat; 1%nat]) sU2)) /\
    sb_dataset st'
    = Some [("cpu"%string, 0); ("cpu"%string, 1); ("cpu"%string, 2);
            ("cpu"%string, 3); ("cpu"%string, 4); ("cpu"%string, 5)].
Proof.
  apply (saving_announces_every_free_buffer (list_dataset 1)
           (set_base (list_dataset 1) (set_available_batches [0%nat; 1%nat]) sU2)).
  - vm_compute. reflexivity.
  - vm_compute. repeat constructor.
  - vm_compute. reflexivity.
  - vm_compute. discriminate.
  - vm_compute. discriminate.
Defined.

(** Right after setup the dataset is empty. *)
Lemma saving_empty_loader_example :
  saving_maybe_enqueue_new_training_batches (list_dataset 1)
    (set_data_iter (list_dataset 1) (Some true) sU0)
  = (Raise StopIteration,
     set_data_iter (list_dataset 1) (Some (loader_iter (list_dataset 1) []))
       (set_base (list_dataset 1) (set_available_batches [1%nat])
          (set_data_iter (list_dataset 1) (Some true) sU0))).
Proof.
  apply (saving_empty_loader_stops (list_dataset 1)
           (set_data_iter (list_dataset 1) (Some true) sU0) [] true 0 [1%nat]);
    vm_compute; reflexivity.
Defined.

(** The learner returns buffer 0 after its first iteration: the release
    is due, slots 2..5 go back, and buffer 0 is announced again. *)
Lemma saving_acknowledgement_example :
  collect_more_data (list_dataset 1) sU2 1 = true /\
  exists st',
    saving_on_training_batch_released (list_dataset 1) 0 1 sU2 = (Ok tt, st') /\
    available_batches (sb_base st') = [] /\
    training_iteration (sb_base st') = 1 /\
    emitted (sb_base st')
    = emitted (sb_base sU2)
      ++ (if collect_more_data (list_dataset 1) sU2 1
          then [TrajectoryBuffersAvailable (policy_id (sb_base sU2)) 1]
          else [])
      ++ map TrainingBatchesAvailable (available_batches (sb_base sU2) ++ [0%nat]) /\
    traj_slices_to_release st'
    = (if collect_more_data (list_dataset 1) sU2 1 then []
       else traj_slices_to_release sU2) /\
    _prev_data_collect_iteration st'
    = (if collect_more_data (list_dataset 1) sU2 1 then 1
       else _prev_data_collect_iteration sU2) /\
    (forall d,
        dict_get (traj_buffer_queues (sb_base st')) d
        = if collect_more_data (list_dataset 1) sU2 1
          then option_map
                 (fun q => q ++ map QIndex
                             (sort_Z (indices_for d (traj_slices_to_release sU2))))
                 (dict_get (traj_buffer_queues (sb_base sU2)) d)
          else dict_get (traj_buffer_queues (sb_base sU2)) d).
Proof.
  split; [vm_compute; reflexivity|].
  apply (saving_acknowledgement (list_dataset 1) sU2
           [("cpu"%string, 0); ("cpu"%string, 1); ("cpu"%string, 2);
            ("cpu"%string, 3); ("cpu"%string, 4); ("cpu"%string, 5)] 0%nat 1).
  - vm_compute. reflexivity.
  - vm_compute. reflexivity.
  - vm_compute. repeat constructor.
  - vm_compute. intros a H. exact H.
  - vm_compute. reflexivity.
  - vm_compute. discriminate.
  - vm_compute. discriminate.
Defined.

Lemma sU0_mergers :
  dict_values (slices_for_training (sb_base sU0)) = [SliceMerger_init].
Proof. vm_compute. reflexivity. Qed.

(** The first report, [0,2), with training due at 3 samples: the two
    slots are stored and handed back at once. *)
Lemma saving_on_new_trajectories_example :
  traj_buffer_queues (sb_base sU1) = [("cpu"%string, [QIndex 0; QIndex 1])] /\
  exists xs,
    sum_len (map snd xs)
    = Z.min (traj_per_training_iteration (sb_base sU0))
            (total_num_trajectories (slices_for_training (sb_base sU0))
             + sum_len (reported_slices [report (mk_slice 0 2)])) /\
    (num_samples (list_dataset 1) (add_all (list_dataset 1) xs []) < 3 ->
     exists st',
       saving_on_new_trajectories (list_dataset 1) no_shuffle
         [report (mk_slice 0 2)] "cpu"%string sU0 = (Ok tt, st') /\
       traj_slices_to_release st' = [] /\
       (forall d,
           dict_get (traj_buffer_queues (sb_base st')) d
           = option_map
               (fun q => q ++ map QIndex
                           (sort_Z (indices_for d
                                      (traj_slices_to_release sU0 ++ xs))))
               (dict_get (traj_buffer_queues (sb_base sU0)) d)) /\
       emitted (sb_base st')
       = emitted (sb_base sU0) ++
         [TrajectoryBuffersAvailable (policy_id (sb_base sU0))
            (training_iteration (sb_base sU0))] /\
       available_batches (sb_base st') = available_batches (sb_base sU0) /\
       sb_dataset st' = Some (add_all (list_dataset 1) xs [])) /\
    (3 <= num_samples (list_dataset 1) (add_all (list_dataset 1) xs []) ->
     async_rl (cfg (sb_base sU0)) = false ->
     Forall (fun b => (b < List.length (training_batches (sb_base sU0)))%nat /\
                      nth_error (traj_tensors_to_release (sb_base sU0)) b = Some [])
            (available_batches (sb_base sU0)) ->
     loader_next (list_dataset 1) (add_all (list_dataset 1) xs [])
       (loader_iter (list_dataset 1) (add_all (list_dataset 1) xs []))
       <> None ->
     exists st',
       saving_on_new_trajectories (list_dataset 1) no_shuffle
         [report (mk_slice 0 2)] "cpu"%string sU0 = (Ok tt, st') /\
       traj_slices_to_release st' = traj_slices_to_release sU0 ++ xs /\
       traj_buffer_queues (sb_base st') = traj_buffer_queues (sb_base sU0) /\
       emitted (sb_base st')
       = emitted (sb_base sU0)
         ++ map TrainingBatchesAvailable (available_batches (sb_base sU0)) /\
       available_batches (sb_base st') = [] /\
       sb_dataset st' = Some (add_all (list_dataset 1) xs [])).
Proof.
  split; [vm_compute; reflexivity|].
  apply (saving_on_new_trajectories_outcomes (list_dataset 1) no_shuffle
           no_shuffle_perm sU0 [report (mk_slice 0 2)] "cpu"%string
           SliceMerger_init [] 3).
  - vm_compute. reflexivity.
  - vm_compute. repeat constructor. intros [].
  - vm_compute. intros a H. exact H.
  - rewrite sU0_mergers. constructor; [apply SInv_init|constructor].
  - vm_compute. discriminate.
  - vm_compute. constructor.
  - vm_compute. reflexivity.
  - vm_compute. reflexivity.
  - vm_compute. reflexivity.
  - repeat constructor.
  - vm_compute. reflexivity.
  - repeat constructor.
  - simpl. auto.
  - intros r i _ _ Hc. eapply covered_nil. exact Hc.
Defined.


(* ================================================================== *)
(** * The global context *)

Lemma nth_error_snoc {A : Type} (l : list A) (x : A) :
  nth_error (l ++ [x]) (List.length l) = Some x.
Proof. induction l; simpl; auto. Qed.

Lemma nth_error_update_nth {A : Type} (f : A -> A) (l : list A) (n : nat) :
  nth_error (update_nth l n f) n = option_map f (nth_error l n).
Proof.
  revert n. induction l as [|x l IH]; intros [|n]; simpl; auto.
Qed.

Lemma length_update_nth {A : Type} (f : A -> A) (l : list A) (n : nat) :
  List.length (update_nth l n f) = List.length l.
Proof.
  revert n. induction l as [|x l IH]; intros [|n]; simpl; auto.
Qed.

Lemma sf_global_context_run (g : Globals) :
  sf_global_context g
  = match GLOBAL_CONTEXT g with
    | Some ctx => (Ok ctx, g)
    | None =>
        (Ok (List.length (contexts g)),
         mk_globals
           (contexts g ++ [mk_context [] (factories g) (S (factories g))])
           (S (S (factories g)))
           (Some (List.length (contexts g))))
    end.
Proof.
  unfold sf_global_context. rewrite run_bind_get.
  destruct (GLOBAL_CONTEXT g) as [ctx|] eqn:E; reflexivity.
Qed.

Lemma sf_global_context_bound (g : Globals) (ctx : nat) :
  GLOBAL_CONTEXT g = Some ctx -> sf_global_context g = (Ok ctx, g).
Proof. intros E. rewrite sf_global_context_run, E. reflexivity. Qed.

Lemma reset_global_context_run (g : Globals) :
  reset_global_context g
  = (Ok tt,
     mk_globals
       (contexts g ++ [mk_context [] (factories g) (S (factories g))])
       (S (S (factories g)))
       (Some (List.length (contexts g)))).
Proof. reflexivity. Qed.

Lemma registry_get_run (registry : nat) (name : string) (g : Globals) :
  registry_get registry name g
  = (Ok (match nth_error (contexts g) registry with
         | Some c => dict_get (env_registry c) name
         | None => None
         end), g).
Proof. reflexivity. Qed.

(** X23: [sf_global_context] is a lazy singleton.  It always returns a context
    and leaves [GLOBAL_CONTEXT] bound to it; a second call returns the same
    object and changes nothing.  When [GLOBAL_CONTEXT] is bound already, no
    object is created; when it is [None], exactly one context is created,
    with an empty registry and two new factories.  After
    [set_global_context(ctx)] the context returned is [ctx]. *)
Theorem sf_global_context_singleton (g : Globals) :
  exists ctx g1,
    sf_global_context g = (Ok ctx, g1) /\
    GLOBAL_CONTEXT g1 = Some ctx /\
    sf_global_context g1 = (Ok ctx, g1) /\
    (forall c0, GLOBAL_CONTEXT g = Some c0 -> ctx = c0 /\ g1 = g) /\
    (GLOBAL_CONTEXT g = None ->
     ctx = List.length (contexts g) /\
     contexts g1
     = contexts g ++ [mk_context [] (factories g) (S (factories g))]) /\
    (forall c,
        bind (set_global_context c) (fun _ => sf_global_context) g
        = (Ok c, set_GLOBAL_CONTEXT (Some c) g)).
Proof.
  rewrite sf_global_context_run.
  destruct (GLOBAL_CONTEXT g) as [c0|] eqn:E.
  - exists c0, g. split; [reflexivity|]. split; [exact E|].
    split; [rewrite sf_global_context_run, E; reflexivity|].
    split; [intros c [= ->]; auto|]. split; [discriminate|].
    intros c. unfold set_global_context. rewrite run_bind_modify.
    rewrite sf_global_context_run. reflexivity.
  - eexists. eexists. split; [reflexivity|]. split; [reflexivity|].
    split; [rewrite sf_global_context_run; reflexivity|].
    split; [discriminate|]. split; [auto|].
    intros c. unfold set_global_context. rewrite run_bind_modify.
    rewrite sf_global_context_run. reflexivity.
Qed.

(** X24: An environment registered through [global_env_registry()] is stored
    in the global context itself: later calls of [global_env_registry()]
    find it.  [reset_global_context()] binds a new context whose registry
    is empty, so the registration is no longer found; the old context
    object still holds it, and [set_global_context] with that object
    brings it back. *)
Theorem registrations_live_in_the_context (g : Globals) (name : string)
    (make_env : CreateEnvFunc) :
  globals_ok g ->
  exists ctx g1 g2,
    bind global_env_registry
         (fun r => bind (registry_setitem r name make_env) (fun _ => ret r)) g
    = (Ok ctx, g1) /\
    globals_ok g1 /\
    bind global_env_registry (fun r => registry_get r name) g1
    = (Ok (Some make_env), g1) /\
    bind reset_global_context
         (fun _ => bind global_env_registry (fun r => registry_get r name)) g1
    = (Ok None, g2) /\
    GLOBAL_CONTEXT g2 <> Some ctx /\
    bind (set_global_context ctx)
         (fun _ => bind global_env_registry (fun r => registry_get r name)) g2
    = (Ok (Some make_env), set_GLOBAL_CONTEXT (Some ctx) g2).
Proof.
  intros Hok. unfold global_env_registry.
  assert (Hstep : forall g0 c,
             GLOBAL_CONTEXT g0 = Some c -> (c < List.length (contexts g0))%nat ->
             exists g1 g2,
               bind sf_global_context
                    (fun r => bind (registry_setitem r name make_env)
                                   (fun _ => ret r)) g0
               = (Ok c, g1) /\
               globals_ok g1 /\
               bind sf_global_context (fun r => registry_get r name) g1
               = (Ok (Some make_env), g1) /\
               bind reset_global_context
                    (fun _ => bind sf_global_context
                                   (fun r => registry_get r name)) g1
               = (Ok None, g2) /\
               GLOBAL_CONTEXT g2 <> Some c /\
               bind (set_global_context c)
                    (fun _ => bind sf_global_context
                                   (fun r => registry_get r name)) g2
               = (Ok (Some make_env), set_GLOBAL_CONTEXT (Some c) g2)).
  { intros g0 c Hc Hlt.
    destruct (nth_error (contexts g0) c) as [c0|] eqn:Ec;
      [|apply nth_error_None in Ec; lia].
    set (upd := fun c1 => mk_context (dict_set (env_registry c1) name make_env)
                            (model_factory c1) (learner_factory c1)).
    set (g1 := mk_globals (update_nth (contexts g0) c upd) (factories g0)
                 (GLOBAL_CONTEXT g0)).
    assert (Hn1 : nth_error (contexts g1) c = Some (upd c0)).
    { unfold g1. simpl. rewrite nth_error_update_nth, Ec. reflexivity. }
    assert (Hlen1 : List.length (contexts g1) = List.length (contexts g0)).
    { unfold g1. simpl. apply length_update_nth. }
    exists g1. eexists.
    split; [|split; [|split; [|split; [|split]]]].
    - rewrite (run_bind_ok _ c _ _ _ (sf_global_context_bound g0 c Hc)).
      unfold registry_setitem. rewrite run_bind_modify. reflexivity.
    - intros c' Hc'. unfold g1 in Hc'. simpl in Hc'. rewrite Hc in Hc'.
      injection Hc' as <-. rewrite Hlen1. exact Hlt.
    - rewrite (run_bind_ok _ c _ _ _ (sf_global_context_bound g1 c Hc)).
      rewrite registry_get_run, Hn1. simpl.
      rewrite dict_get_set, key_eqb_refl. reflexivity.
    - rewrite (run_bind_ok _ tt _ _ _ (reset_global_context_run g1)).
      erewrite run_bind_ok by (apply sf_global_context_bound; reflexivity).
      rewrite registry_get_run. cbn [contexts set_GLOBAL_CONTEXT].
      rewrite nth_error_snoc. reflexivity.
    - cbn [GLOBAL_CONTEXT]. rewrite Hlen1. intros [= E]. lia.
    - unfold set_global_context. rewrite run_bind_modify.
      erewrite run_bind_ok by (apply sf_global_context_bound; reflexivity).
      rewrite registry_get_run. cbn [contexts set_GLOBAL_CONTEXT].
      rewrite nth_error_app1 by (rewrite Hlen1; exact Hlt).
      rewrite Hn1. simpl.
      rewrite dict_get_set, key_eqb_refl. reflexivity. }
  destruct (GLOBAL_CONTEXT g) as [c|] eqn:E.
  - destruct (Hstep g c E (Hok c E)) as (g1 & g2 & H).
    exists c, g1, g2. exact H.
  - set (g0 := mk_globals
                 (contexts g ++ [mk_context [] (factories g) (S (factories g))])
                 (S (S (factories g)))
                 (Some (List.length (contexts g)))).
    destruct (Hstep g0 (List.length (contexts g)) eq_refl)
      as (g1 & g2 & H1 & H2 & H3 & H4 & H5 & H6).
    { unfold g0. simpl. rewrite length_app. simpl. lia. }
    exists (List.length (contexts g)), g1, g2.
    split; [|auto 10].
    rewrite <- H1.
    erewrite run_bind_ok by (rewrite sf_global_context_run, E; reflexivity).
    fold g0.
    rewrite (run_bind_ok _ _ _ _ _ (sf_global_context_bound g0 _ eq_refl)).
    reflexivity.
Qed.

(** Right after import: the first registration creates the context. *)
Lemma registrations_example :
  exists ctx g1 g2,
    bind global_env_registry
         (fun r => bind (registry_setitem r "doom_basic" 7) (fun _ => ret r))
         globals_at_import
    = (Ok ctx, g1) /\
    globals_ok g1 /\
    bind global_env_registry (fun r => registry_get r "doom_basic") g1
    = (Ok (Some 7), g1) /\
    bind reset_global_context
         (fun _ => bind global_env_registry
                        (fun r => registry_get r "doom_basic")) g1
    = (Ok None, g2) /\
    GLOBAL_CONTEXT g2 <> Some ctx /\
    bind (set_global_context ctx)
         (fun _ => bind global_env_registry
                        (fun r => registry_get r "doom_basic")) g2
    = (Ok (Some 7), set_GLOBAL_CONTEXT (Some ctx) g2).
Proof.
  apply (registrations_live_in_the_context globals_at_import "doom_basic" 7).
  intros ctx H. discriminate H.
Defined.

